(** * DICOD: coordinator-side verification

    A shallow embedding of the coordinator code of the DICOD solvers
    (distributed convolutional sparse coding):

    - [dicod/_dicod.py]   the function [dicod] and its helpers,
    - [dicod/dicod.py]    the class [DICOD]   (1D signals),
    - [cdl/dicod2d.py]    the class [DICOD2D] (2D signals),
    - [dicod/dicodil.py]  the dictionary-learning outer loop [dicodil].

    Conventions of the embedding.

    - Python integers are [Z]; [//] and [%] are [Z.div] and [Z.modulo]
      (both floor towards minus infinity, as Python does), guarded by an
      explicit [ZeroDivisionError].
    - Floating-point numbers are idealised as exact rationals [Qc]; wall
      clock readings ([time()]), printing and logging are left out.
    - A numpy array is a shape together with an indexing function.
    - Coordinator code runs in a small exception-and-trace monad: every MPI
      call appends an event to the trace, whatever the workers answer is read
      from an explicit record of worker replies. *)

From Stdlib Require Import ZArith QArith Qcanon Qcabs Lia List String.
From Stdlib Require Import Permutation Sorted.
From stdpp Require Import base list numbers.
Import ListNotations.

Local Open Scope Z_scope.

(* ================================================================== *)
(** ** Python runtime notions *)

Module Py.

Inductive exn : Type :=
| ValueError (msg : string)
| RuntimeError (msg : string)
| AssertionError
| NotImplementedError
| ZeroDivisionError
| IndexError
| TypeError
| UnboundLocalError.

Inductive outcome (A : Type) : Type :=
| Ok (a : A)
| Raise (e : exn).
Arguments Ok {A} a.
Arguments Raise {A} e.

(** [range(a, b)] *)
Definition range (a b : Z) : list Z :=
  map (fun i => a + Z.of_nat i) (seq 0 (Z.to_nat (b - a))).

(** Python floats, idealised. *)
Definition float (n : Z) : Qc := Qc_of_Z n.

Definition Qclt_b (x y : Qc) : bool :=
  if Qclt_le_dec x y then true else false.
Definition Qcle_b (x y : Qc) : bool :=
  if Qclt_le_dec y x then false else true.
Definition Qceq_b (x y : Qc) : bool :=
  if Qc_eq_dec x y then true else false.

Definition Qcmin (x y : Qc) : Qc := if Qclt_b y x then y else x.

(** Sum of [f] over [range(0, n)]. *)
Definition sum_range (n : Z) (f : Z -> Qc) : Qc :=
  fold_right (fun i acc => (f i + acc)%Qc) 0%Qc (range 0 n).

End Py.

Export Py.

(* ================================================================== *)
(** ** The coordinator monad: exceptions over a trace of transport events *)

Section Monad.
Context {E : Type}.

Definition M (A : Type) : Type := list E -> outcome A * list E.

Definition ret {A} (a : A) : M A := fun tr => (Ok a, tr).

Definition bind {A B} (m : M A) (k : A -> M B) : M B :=
  fun tr =>
    match m tr with
    | (Ok a, tr') => k a tr'
    | (Raise e, tr') => (Raise e, tr')
    end.

Definition raise {A} (e : exn) : M A := fun tr => (Raise e, tr).

(** One transport call: the event is appended to the trace. *)
Definition emit (ev : E) : M unit := fun tr => (Ok tt, tr ++ [ev]).

Definition assert_ (b : bool) : M unit :=
  if b then ret tt else raise AssertionError.

Definition lift {A} (o : outcome A) : M A := fun tr => (o, tr).

(** [for x in xs: body x] *)
Fixpoint for_each {A} (xs : list A) (body : A -> M unit) : M unit :=
  match xs with
  | [] => ret tt
  | x :: xs' => bind (body x) (fun _ => for_each xs' body)
  end.

(** A loop that threads a state. *)
Fixpoint fold_m {A S} (xs : list A) (body : S -> A -> M S) (s : S) : M S :=
  match xs with
  | [] => ret s
  | x :: xs' => bind (body s x) (fun s' => fold_m xs' body s')
  end.

Definition run {A} (m : M A) : outcome A * list E := m [].

(** A computation obeys [P] and [Q] when it only ever appends events that
    satisfy [P] to the trace and only ever raises exceptions that
    satisfy [Q]. *)
Definition obeys (P : E -> Prop) (Q : exn -> Prop) {A} (m : M A) : Prop :=
  forall tr o tr',
    m tr = (o, tr') ->
    (exists ev, tr' = tr ++ ev /\ Forall P ev) /\
    match o with
    | Raise e => Q e
    | Ok _ => True
    end.

End Monad.

Arguments M : clear implicits.

Declare Scope coord_scope.
Delimit Scope coord_scope with coord.
Notation "'let*' x ':=' m 'in' k" := (bind m (fun x => k))
  (at level 10, x name, m at level 100, k at level 200, only parsing)
  : coord_scope.
Notation "m >> k" := (bind m (fun _ => k))
  (at level 100, k at level 200, right associativity, only parsing)
  : coord_scope.

(* ================================================================== *)
(** ** numpy arrays *)

Module Np.

Record ndarray : Type := mk_ndarray {
  shape : list Z;
  at_ : list Z -> Qc
}.

Definition ndim (a : ndarray) : Z := Z.of_nat (length (shape a)).

Definition prod (sh : list Z) : Z := fold_right Z.mul 1 sh.

Definition zeros (sh : list Z) : ndarray :=
  {| shape := sh; at_ := fun _ => 0%Qc |}.

(** All multi-indices of a shape, in row-major (C) order. *)
Fixpoint indices (sh : list Z) : list (list Z) :=
  match sh with
  | [] => [[]]
  | n :: sh' => flat_map (fun i => map (cons i) (indices sh')) (range 0 n)
  end.

(** [a.ravel()], [a.flatten()] *)
Definition ravel (a : ndarray) : list Qc := map (at_ a) (indices (shape a)).

(** [a * b] for arrays of equal shape. *)
Definition mul (a b : ndarray) : ndarray :=
  {| shape := shape a; at_ := fun ix => (at_ a ix * at_ b ix)%Qc |}.

Definition insert_at {A} (ax : nat) (x : A) (l : list A) : list A :=
  take ax l ++ x :: drop ax l.

Definition remove_at {A} (ax : nat) (l : list A) : list A :=
  take ax l ++ drop (S ax) l.

(** A possibly negative axis number, resolved against [ndim]. *)
Definition norm_axis (nd : nat) (axis : Z) : nat :=
  Z.to_nat (if axis <? 0 then Z.of_nat nd + axis else axis).

(** [np.sum(a, axis=axis)] *)
Definition sum (a : ndarray) (axis : Z) : ndarray :=
  let ax := norm_axis (length (shape a)) axis in
  let n := nth ax (shape a) 0 in
  {| shape := remove_at ax (shape a);
     at_ := fun ix => sum_range n (fun j => at_ a (insert_at ax j ix)) |}.

(** [np.mean(a, axis=axis)] *)
Definition mean (a : ndarray) (axis : Z) : ndarray :=
  let ax := norm_axis (length (shape a)) axis in
  let n := nth ax (shape a) 0 in
  {| shape := remove_at ax (shape a);
     at_ := fun ix =>
              (sum_range n (fun j => at_ a (insert_at ax j ix)) / float n)%Qc |}.

(** [a += (a == 0)]: the zero entries become one. *)
Definition replace_zeros (a : ndarray) : ndarray :=
  {| shape := shape a;
     at_ := fun ix => (at_ a ix + (if Qceq_b (at_ a ix) 0 then 1 else 0))%Qc |}.

(** An index into an axis of length [n]: negative indices count from the
    end, anything outside [-n, n) is an [IndexError]. *)
Definition norm_index (n i : Z) : outcome Z :=
  if (0 <=? i) && (i <? n) then Ok i
  else if (- n <=? i) && (i <? 0) then Ok (i + n)
  else Raise IndexError.

Fixpoint norm_indices (sh ix : list Z) : outcome (list Z) :=
  match sh, ix with
  | [], [] => Ok []
  | n :: sh', i :: ix' =>
      match norm_index n i with
      | Ok i' =>
          match norm_indices sh' ix' with
          | Ok r => Ok (i' :: r)
          | Raise e => Raise e
          end
      | Raise e => Raise e
      end
  | _, _ => Raise IndexError
  end.

(** [a[i0, i1, ...]] with a full index. *)
Definition getitem (a : ndarray) (ix : list Z) : outcome Qc :=
  match norm_indices (shape a) ix with
  | Ok ix' => Ok (at_ a ix')
  | Raise e => Raise e
  end.

(** [slice(start, stop).indices(n)] for a unit step: the bounds are
    wrapped when negative and clipped to the axis. *)
Definition clip_bound (n b : Z) : Z :=
  if b <? 0 then Z.max 0 (b + n) else Z.min b n.

Definition slice_bounds (n : Z) (s : option (Z * Z)) : Z * Z :=
  match s with
  | None => (0, n)
  | Some (start, stop) =>
      let lo := clip_bound n start in
      let hi := clip_bound n stop in
      (lo, Z.max lo hi)
  end.

(** [a[s0, s1, ...]] where each [s] is [:] ([None]) or [start:stop]. *)
Definition slice (a : ndarray) (sl : list (option (Z * Z))) : ndarray :=
  let bs := zip_with slice_bounds (shape a) sl in
  {| shape := map (fun b => snd b - fst b) bs;
     at_ := fun ix => at_ a (zip_with (fun b i => fst b + i) bs ix) |}.

(** [a[..., s0, s1, ...]]: the leading axes are taken whole. *)
Definition slice_trailing (a : ndarray) (sl : list (Z * Z)) : ndarray :=
  let lead := (length (shape a) - length sl)%nat in
  slice a (replicate lead None ++ map Some sl).

(** [np.allclose(a, b)] on flat buffers, with numpy's default tolerances
    [rtol = 1e-5] and [atol = 1e-8]. *)
Definition rtol : Qc := Q2Qc (1 # 100000).
Definition atol : Qc := Q2Qc (1 # 100000000).

Definition isclose (a b : Qc) : bool :=
  Qcle_b (Qcabs (a - b)) (atol + rtol * Qcabs b)%Qc.

Fixpoint allclose (a b : list Qc) : bool :=
  match a, b with
  | [], [] => true
  | x :: a', y :: b' => isclose x y && allclose a' b'
  | _, _ => false
  end.

End Np.

(* ================================================================== *)
(** ** [dicod/dicod.py]: the class [DICOD] (1D signals) *)

Module DICOD.
Import Np.
Local Open Scope coord_scope.

Definition ALGO_GS : Z := 0.
Definition ALGO_RANDOM : Z := 1.

(** The convolutional coding problem [pb] handed to [fit]: the dictionary
    [D] of shape (K, d, S), the signal [x] of shape (d, T), the
    precomputed correlation [DD] (possibly [None]) and the regularisation
    [lmbd]. *)
Record Problem : Type := {
  pb_D : ndarray;
  pb_x : ndarray;
  pb_DD : option ndarray;
  pb_lmbd : Qc
}.

(** What the base class [_LassoSolver] (not part of these sources) leaves
    on the object: the keyword arguments [tol], [max_iter], [timeout] of the
    docstring, and the solver's [name] and [id]. *)
Record LassoSolver : Type := {
  ls_tol : Qc;
  ls_max_iter : Z;
  ls_timeout : Z;
  ls_name : string;
  ls_id : Z
}.

Record t : Type := {
  debug : Z;
  n_jobs : Z;
  hostfile : option string;
  logging : Z;
  use_seg : Z;
  positive : Z;
  algorithm : Z;
  patience : Z;
  name : string;
  id : Z;
  tol : Qc;
  max_iter : Z;
  timeout : Z;
  (* attributes written by [send_task] *)
  K : option Z;
  d : option Z;
  S : option Z;
  L : option Z;
  L_proc : option Z
}.

Inductive event : Type :=
| BcastInt (count : Z)
| BcastDouble (buf : list Qc)
| Send (buf : list Qc) (dest tag : Z)
| GatherDouble (count : Z)
| Barrier.

Section Class.
(** [str] on integers and the constructor of the base class. *)
Variable str : Z -> string.
Variable kwargs : Type.
Variable super_init : Z -> kwargs -> LassoSolver.

Definition __init__ (n_jobs use_seg : Z) (hostfile : option string)
    (logging : bool) (debug : Z) (positive : bool) (algorithm : Z)
    (patience : Z) (kw : kwargs) : t :=
  let base := super_init debug kw in
  {| debug := debug;
     n_jobs := n_jobs;
     hostfile := hostfile;
     logging := if logging then 1 else 0;
     use_seg := use_seg;
     positive := if positive then 1 else 0;
     algorithm := algorithm;
     patience := 1000;
     name := if String.eqb (ls_name base) ("_GD" ++ str (ls_id base))
             then "MPI_DCP" ++ str n_jobs ++ "_" ++ str (ls_id base)
             else ls_name base;
     id := ls_id base;
     tol := ls_tol base;
     max_iter := ls_max_iter base;
     timeout := ls_timeout base;
     K := None; d := None; S := None; L := None; L_proc := None |}.

End Class.

(** [a // b] *)
Definition floordiv (a b : Z) : M event Z :=
  if b =? 0 then raise ZeroDivisionError else ret (a / b).

(** [_broadcast_array]: the element count, then the flattened array. *)
Definition _broadcast_array (arr : list Qc) : M event unit :=
  emit (BcastInt (Z.of_nat (length arr))) >>
  emit (BcastDouble arr).

(** [_confirm_array]: the workers echo the probe values back through a
    gather; [gathering] is what they answer. *)
Definition _confirm_array (expect : list Qc) (gathering : nat -> Qc)
  : M event unit :=
  emit (GatherDouble (Z.of_nat (length expect))) >>
  assert_ (allclose expect (map gathering (seq 0 (length expect)))).

(** [alpha_k = np.sum(np.mean(pb.D * pb.D, axis=1), axis=1)] followed by
    [alpha_k += (alpha_k == 0)].  ([np.mean] over an empty axis is [nan]
    in numpy; the statements about it assume at least one channel.) *)
Definition alpha_k (D : ndarray) : ndarray :=
  replace_zeros (sum (mean (mul D D) 1) 1).

(** The array [N] of constants of the algorithm. *)
Definition constants (self : t) (pb : Problem) (K d S T max_iter : Z)
  : list Qc :=
  [float d; float K; float S; float T;
   pb_lmbd pb; tol self; float (timeout self);
   float max_iter; float (debug self); float (logging self);
   float (use_seg self); float (positive self);
   float (algorithm self); float (patience self)].

Definition send_task (self : t) (pb : Problem) (gathering : nat -> Qc)
  : M event t :=
  match shape (pb_D pb) with
  | [K; d; S] =>
      match shape (pb_x pb) with
      | _ :: T :: _ =>
          let L := T - S + 1 in
          (* Share constants *)
          match pb_DD pb with
          | None => raise AssertionError
          | Some DD =>
              _broadcast_array (ravel (alpha_k (pb_D pb))) >>
              _broadcast_array (ravel DD) >>
              _broadcast_array (ravel (pb_D pb)) >>
              (* Send the constants of the algorithm *)
              let* q := floordiv (max_iter self) (n_jobs self) in
              let max_iter := Z.max 1 q in
              _broadcast_array (constants self pb K d S T max_iter) >>
              (* Share the work between the processes *)
              let sig := pb_x pb in
              let* q := floordiv L (n_jobs self) in
              let L_proc := q + 1 in
              let* expect := fold_m (range 0 (n_jobs self))
                (fun expect i =>
                   let end_ := Z.min T ((i + 1) * L_proc + S - 1) in
                   emit (Send (ravel (slice sig [None; Some (i * L_proc, end_)]))
                              i (100 + i)) >>
                   let* a := lift (getitem sig [0; i * L_proc]) in
                   let* b := lift (getitem sig [-1; end_ - 1]) in
                   ret (expect ++ [a; b]))
                [] in
              _confirm_array expect gathering >>
              (* Wait end of initialisation *)
              emit Barrier >>
              ret {| debug := debug self; n_jobs := n_jobs self;
                     hostfile := hostfile self; logging := logging self;
                     use_seg := use_seg self; positive := positive self;
                     algorithm := algorithm self; patience := patience self;
                     name := name self; id := id self; tol := tol self;
                     max_iter := DICOD.max_iter self;
                     timeout := timeout self;
                     K := Some K; d := Some d; S := Some S;
                     L := Some L; L_proc := Some L_proc |}
          end
      | _ => raise IndexError
      end
  | _ => raise (ValueError "unpack")
  end.

End DICOD.

(* ================================================================== *)
(** ** [cdl/dicod2d.py]: the class [DICOD2D] (2D signals) *)

Module DICOD2D.
Import Np.
Local Open Scope coord_scope.

Definition ALGO_GS : Z := 0.
Definition ALGO_RANDOM : Z := 1.
Definition TAG_ROOT : Z := 4242.

(** The problem [pb]: dictionary [D] of shape (K, d, h_dic, w_dic), image
    [x] of shape (d, h_sig, w_sig), the correlation [DD] and [lmbd]. *)
Record Problem : Type := {
  pb_D : ndarray;
  pb_x : ndarray;
  pb_DD : option ndarray;
  pb_lmbd : Qc
}.

(** What the base class [toolbox.optim._GradientDescent] (an external
    package) leaves on the object: [tol], [i_max], [t_max] of the
    docstring, and the solver's [name] and [id]. *)
Record GradientDescent : Type := {
  gd_tol : Qc;
  gd_i_max : Qc;
  gd_t_max : Z;
  gd_name : string;
  gd_id : Z
}.

Record t : Type := {
  debug : Z;
  n_jobs : Z;
  hostfile : option string;
  logging : Z;
  use_seg : Z;
  positive : Z;
  algorithm : Z;
  patience : Z;
  name : string;
  id : Z;
  tol : Qc;
  i_max : Qc;
  t_max : Z;
  w_world : Z;
  h_world : Z;
  (* attributes written by [send_task] *)
  h_cod : option Z;
  h_proc : option Z;
  w_cod : option Z;
  w_proc : option Z;
  L : option Z
}.

Inductive event : Type :=
| BcastInt (count : Z)
| BcastDouble (buf : list Qc)
| Send (buf : list Qc) (dest tag : Z)
| GatherDouble (count : Z)
| Barrier.

(** [a // b] *)
Definition floordiv {E} (a b : Z) : M E Z :=
  if b =? 0 then raise ZeroDivisionError else ret (a / b).

(** [a % b] *)
Definition modulo {E} (a b : Z) : M E Z :=
  if b =? 0 then raise ZeroDivisionError else ret (a mod b).

(** [a / b] on numbers *)
Definition truediv {E} (a : Qc) (b : Z) : M E Qc :=
  if b =? 0 then raise ZeroDivisionError else ret (a / float b)%Qc.

Section Class.
Variable str : Z -> string.
Variable kwargs : Type.
Variable super_init : Z -> kwargs -> GradientDescent.
(** [pb.compute_DD(DD=DD)] of the external problem class: the value it
    leaves in [pb.DD]. *)
Variable compute_DD : Problem -> option ndarray -> ndarray.

Definition __init__ (n_jobs w_world use_seg : Z) (hostfile : option string)
    (logging : bool) (debug : Z) (positive : bool) (algorithm : Z)
    (patience : Z) (kw : kwargs) : M event t :=
  let debug := Z.max (debug - 1) 0 in
  let base := super_init debug kw in
  let* h_world := floordiv n_jobs w_world in
  ret {| debug := debug;
         n_jobs := n_jobs;
         hostfile := hostfile;
         logging := if logging then 1 else 0;
         use_seg := use_seg;
         positive := if positive then 1 else 0;
         algorithm := algorithm;
         patience := 1000;
         name := if String.eqb (gd_name base) ("_GD" ++ str (gd_id base))
                 then "MPI_DCP" ++ str n_jobs ++ "_" ++ str (gd_id base)
                 else gd_name base;
         id := gd_id base;
         tol := gd_tol base;
         i_max := gd_i_max base;
         t_max := gd_t_max base;
         w_world := w_world;
         h_world := h_world;
         h_cod := None; h_proc := None; w_cod := None; w_proc := None;
         L := None |}.

(** [_broadcast_array]: the element count [np.prod(arr.shape)], then the
    flattened array. *)
Definition _broadcast_array (arr : ndarray) : M event unit :=
  emit (BcastInt (prod (shape arr))) >>
  emit (BcastDouble (ravel arr)).

Definition _confirm_array (expect : list Qc) (gathering : nat -> Qc)
  : M event unit :=
  emit (GatherDouble (Z.of_nat (length expect))) >>
  assert_ (allclose expect (map gathering (seq 0 (length expect)))).

(** [alpha_k = np.sum(np.mean(pb.D*pb.D, axis=1), axis=-1).sum(axis=-1)]
    followed by [alpha_k += (alpha_k == 0)]. *)
Definition alpha_k (D : ndarray) : ndarray :=
  replace_zeros (sum (sum (mean (mul D D) 1) (-1)) (-1)).

(** [np.array([...], 'd')] of a Python list. *)
Definition array_of_list (l : list Qc) : ndarray :=
  {| shape := [Z.of_nat (length l)];
     at_ := fun ix => match ix with
                      | [i] => nth (Z.to_nat i) l 0%Qc
                      | _ => 0%Qc
                      end |}.

(** The array [N] of constants of the algorithm. *)
Definition constants (self : t) (pb : Problem)
    (K d h_dic w_dic h_sig w_sig w_world : Z) (budget : Qc) : list Qc :=
  [float d; float K; float h_dic; float w_dic;
   float h_sig; float w_sig; float w_world;
   pb_lmbd pb; tol self; float (t_max self);
   budget; float (debug self);
   float (logging self); float (use_seg self);
   float (positive self); float (algorithm self);
   float (patience self)].

Definition send_task (self : t) (pb : Problem) (DD : option ndarray)
    (gathering : nat -> Qc) : M event t :=
  match shape (pb_D pb) with
  | [K; d; h_dic; w_dic] =>
      match shape (pb_x pb) with
      | [_; h_sig; w_sig] =>
          let h_cod := h_sig - h_dic + 1 in
          let w_cod := w_sig - w_dic + 1 in
          (* Share constants *)
          let pb_DD' := compute_DD pb DD in
          _broadcast_array (alpha_k (pb_D pb)) >>
          _broadcast_array pb_DD' >>
          _broadcast_array (pb_D pb) >>
          let w_world := DICOD2D.w_world self in
          let* h_world := floordiv (n_jobs self) w_world in
          let* r := modulo (n_jobs self) w_world in
          assert_ (r =? 0) >>
          (* Send the constants of the algorithm *)
          let* budget := truediv (i_max self) (n_jobs self) in
          _broadcast_array
            (array_of_list
               (constants self pb K d h_dic w_dic h_sig w_sig w_world budget)) >>
          (* Share the work between the processes *)
          let sig := pb_x pb in
          let* h_proc := floordiv h_cod h_world in
          let* q := floordiv w_cod w_world in
          let w_proc := q + 1 in
          let* expect := fold_m (range 0 h_world)
            (fun expect i =>
               fold_m (range 0 w_world)
                 (fun expect j =>
                    let dest := i * w_world + j in
                    let h_end := Z.min h_sig ((i + 1) * h_proc + h_dic - 1) in
                    let w_end := Z.min w_sig ((j + 1) * w_proc + w_dic - 1) in
                    emit (Send (ravel (slice sig [None;
                                                  Some (i * h_proc, h_end);
                                                  Some (j * w_proc, w_end)]))
                               dest (TAG_ROOT + dest)) >>
                    let* a := lift (getitem sig [0; i * h_proc; j * w_proc]) in
                    let* b := lift (getitem sig [-1; h_end - 1; w_end - 1]) in
                    ret (expect ++ [a; b]))
                 expect)
            [] in
          _confirm_array expect gathering >>
          (* Wait end of initialisation *)
          emit Barrier >>
          ret {| debug := debug self; n_jobs := n_jobs self;
                 hostfile := hostfile self; logging := logging self;
                 use_seg := use_seg self; positive := positive self;
                 algorithm := algorithm self; patience := patience self;
                 name := name self; id := id self; tol := tol self;
                 i_max := i_max self; t_max := t_max self;
                 w_world := DICOD2D.w_world self;
                 h_world := DICOD2D.h_world self;
                 h_cod := Some h_cod; h_proc := Some h_proc;
                 w_cod := Some w_cod; w_proc := Some w_proc;
                 L := Some (h_cod * w_cod) |}
      | _ => raise (ValueError "unpack")
      end
  | _ => raise (ValueError "unpack")
  end.

End Class.

End DICOD2D.

(* ================================================================== *)
(** ** More of numpy: writing through the view [a[..., s0, s1, ...]] *)

Module NpView.
Import Np.

(** The resolved bounds of [a[..., s0, s1, ...]], one pair per axis. *)
Definition trailing_bounds (sh : list Z) (sl : list (Z * Z)) : list (Z * Z) :=
  let lead := (length sh - length sl)%nat in
  zip_with slice_bounds sh (replicate lead None ++ map Some sl).

Fixpoint inside (bs : list (Z * Z)) (ix : list Z) : bool :=
  match bs, ix with
  | [], [] => true
  | (lo, hi) :: bs', i :: ix' => (lo <=? i) && (i <? hi) && inside bs' ix'
  | _, _ => false
  end.

Definition relative (bs : list (Z * Z)) (ix : list Z) : list Z :=
  zip_with (fun b i => i - fst b) bs ix.

Definition shape_eqb (s1 s2 : list Z) : bool :=
  if decide (s1 = s2) then true else false.

(** [a[..., s0, s1, ...]] read as a value; more slices than axes is an
    [IndexError]. *)
Definition getview (a : ndarray) (sl : list (Z * Z)) : outcome ndarray :=
  if (length (shape a) <? length sl)%nat then Raise IndexError
  else Ok (slice_trailing a sl).

(** [a[..., s0, s1, ...] = b].  numpy also accepts a [b] that broadcasts to
    the view; the coordinator only ever assigns tiles of the view's own
    shape, any other shape is reported as the [ValueError] numpy raises
    for a mismatch. *)
Definition setitem (a : ndarray) (sl : list (Z * Z)) (b : ndarray)
  : outcome ndarray :=
  let bs := trailing_bounds (shape a) sl in
  if (length (shape a) <? length sl)%nat then Raise IndexError
  else if shape_eqb (shape (slice_trailing a sl)) (shape b) then
    Ok {| shape := shape a;
          at_ := fun ix => if inside bs ix then at_ b (relative bs ix)
                           else at_ a ix |}
  else Raise (ValueError "could not broadcast input array").

(** [a[..., s0, s1, ...] += b] *)
Definition iadd (a : ndarray) (sl : list (Z * Z)) (b : ndarray)
  : outcome ndarray :=
  let bs := trailing_bounds (shape a) sl in
  if (length (shape a) <? length sl)%nat then Raise IndexError
  else if shape_eqb (shape (slice_trailing a sl)) (shape b) then
    Ok {| shape := shape a;
          at_ := fun ix => if inside bs ix
                           then (at_ a ix + at_ b (relative bs ix))%Qc
                           else at_ a ix |}
  else Raise (ValueError "operands could not be broadcast together").

(** [np.zeros(sh)], [np.empty(sh)]: a negative dimension is refused.  The
    content of [np.empty] is whatever [fill] says. *)
Definition alloc (sh : list Z) (fill : list Z -> Qc) : outcome ndarray :=
  if existsb (fun n => n <? 0) sh
  then Raise (ValueError "negative dimensions are not allowed")
  else Ok {| shape := sh; at_ := fill |}.

(** A partial index [a[i0][i1, ..., ik]]: the leading axes are resolved,
    negative entries counting from the end. *)
Fixpoint norm_prefix (sh ix : list Z) {struct ix} : outcome (list Z) :=
  match ix, sh with
  | [], _ => Ok []
  | i :: ix', n :: sh' =>
      match norm_index n i with
      | Ok i' =>
          match norm_prefix sh' ix' with
          | Ok r => Ok (i' :: r)
          | Raise e => Raise e
          end
      | Raise e => Raise e
      end
  | _ :: _, [] => Raise IndexError
  end.

Fixpoint is_prefix (p ix : list Z) : bool :=
  match p, ix with
  | [], _ => true
  | i :: p', j :: ix' => (i =? j) && is_prefix p' ix'
  | _ :: _, [] => false
  end.

(** [a[k][tuple(pt)] += v]: every entry below the index moves by [v]. *)
Definition iadd_at (a : ndarray) (k : Z) (pt : list Z) (v : Qc)
  : outcome ndarray :=
  match norm_prefix (shape a) (k :: pt) with
  | Ok p =>
      Ok {| shape := shape a;
            at_ := fun ix => if is_prefix p ix then (at_ a ix + v)%Qc
                             else at_ a ix |}
  | Raise e => Raise e
  end.

(** [np.sum(a[i0, i1] == v)] *)
Definition count_eq_at (a : ndarray) (i0 i1 : Z) (v : Qc) : outcome Z :=
  match norm_prefix (shape a) [i0; i1] with
  | Ok p =>
      Ok (Z.of_nat (length (filter (fun ix => Qceq_b (at_ a (p ++ ix)) v = true)
                                   (indices (drop 2 (shape a))))))
  | Raise e => Raise e
  end.

End NpView.

(* ================================================================== *)
(** ** [dicod/_dicod.py]: the function [dicod] *)

Module Dicod.
Import Np NpView.
Local Open Scope coord_scope.

(** A parameter that is either a value or the string ['auto']. *)
Inductive auto_or (A : Type) : Type :=
| Auto
| Given (a : A).
Arguments Auto {A}.
Arguments Given {A} a.

(** The dictionary [params] broadcast to the workers. *)
Record Params : Type := {
  p_strategy : string;
  p_tol : Qc;
  p_max_iter : Z;
  p_timeout : option Z;
  p_n_seg : auto_or Z;
  p_z_positive : bool;
  p_verbose : Z;
  p_timing : bool;
  p_debug : bool;
  p_random_state : option Z;
  p_reg : Qc;
  p_return_ztz : bool;
  p_use_soft_lock : bool;
  p_has_z0 : bool;
  p_freeze_support : bool;
  p_valid_shape : list Z;
  p_workers_topology : list Z
}.

(** One entry of a worker's update log:
    [(t_update, ii, rank, k0, pt0, dz)]. *)
Record LogEntry : Type := {
  t_update : Qc;
  ii : Z;
  rank : Z;
  k0 : Z;
  pt0 : list Z;
  dz : Qc
}.

(** The interface of [utils.segmentation.Segmentation] that the coordinator
    uses (the class itself is not part of these sources). *)
Record Segmentation : Type := {
  effective_n_seg : Z;
  n_seg_per_axis : list Z;
  get_seg_shape : Z -> bool -> list Z;
  get_seg_bounds : Z -> list (Z * Z);
  (** [get_seg_slice] is [(Ellipsis, slice, ..., slice)]: the slices *)
  get_seg_slice : Z -> bool -> list (Z * Z);
  get_local_coordinate : Z -> list Z -> list Z;
  is_contained_coordinate : Z -> list Z -> bool
}.

(** What the workers answer, by worker rank. *)
Record Workers : Type := {
  w_debug_X : Z -> list Z -> Qc;
  w_warm_beta : Z -> Qc;
  w_z_hat : Z -> list Z -> Qc;
  w_ztz : Z -> list Z -> Qc;
  w_ztX : Z -> list Z -> Qc;
  w_log : Z -> list LogEntry;
  w_stats : Z -> Qc * Qc
}.

Inductive event : Type :=
| GetReusableWorkers (n_jobs : Z) (hostfile : option string)
| SendCommand (tag : Z)
| BcastParams (params : Params)
| BroadcastArray (a : ndarray)
| SendDouble (buf : list Qc) (dest tag : Z)
| RecvDouble (count : Z) (source : Z) (tag : option Z)
| ReduceSum (count : Z)
| RecvObject (source : Z)
| GatherObject
| Barrier
| PltShow
| Warn (msg : string)
| Helper (name : string).

(** The communicator returned by [get_reusable_workers]: the size of the
    remote group is all the coordinator's reductions depend on. *)
Record Comm : Type := { remote_size : Z }.

(** The keyword arguments of [dicod]. *)
Record Args : Type := {
  z0 : option ndarray;
  n_seg : auto_or Z;
  strategy : string;
  use_soft_lock : bool;
  n_jobs : Z;
  w_world : auto_or Z;
  hostfile : option string;
  tol : Qc;
  max_iter : Z;
  timeout : option Z;
  z_positive : bool;
  return_ztz : bool;
  freeze_support : bool;
  timing : bool;
  random_state : option Z;
  verbose : Z;
  debug : bool
}.

(** The cost curve: rows [(up_ii, t_update, cost)]. *)
Definition curve : Type := list (Z * Qc * Qc).

(** ---- [_find_grid_size] ---- *)

Definition grid_step (n_jobs height width : Z) (st : Z * Z * Qc) (i : Z)
  : Z * Z * Qc :=
  let '(w_world, h_world, w_ratio) := st in
  if negb (n_jobs mod i =? 0) then st
  else
    let j := n_jobs / i in
    let ratio := (float (width * j) / float (height * i))%Qc in
    if Qclt_b (Qcabs (ratio - 1)) (Qcabs (w_ratio - 1))
    then (i, j, ratio)
    else st.

Definition _find_grid_size (n_jobs : Z) (sig_shape : list Z)
  : outcome (list Z) :=
  match sig_shape with
  | [_] => Ok [n_jobs]
  | [height; width] =>
      if height =? 0 then Raise ZeroDivisionError
      else
        let w_ratio := (float (width * n_jobs) / float height)%Qc in
        let '(w_world, h_world, _) :=
          fold_left (grid_step n_jobs height width)
                    (range 2 (n_jobs + 1)) (1, n_jobs, w_ratio) in
        Ok [w_world; h_world]
  | _ => Raise NotImplementedError
  end.

(** ---- the update log, ordered as Python orders tuples ---- *)

Fixpoint list_ltb (a b : list Z) : bool :=
  match a, b with
  | [], [] => false
  | [], _ :: _ => true
  | _ :: _, [] => false
  | x :: a', y :: b' => (x <? y) || ((x =? y) && list_ltb a' b')
  end.

Definition list_eqb (a b : list Z) : bool :=
  if decide (a = b) then true else false.

(** [e1 < e2] on the tuples. *)
Definition entry_ltb (e1 e2 : LogEntry) : bool :=
  Qclt_b (t_update e1) (t_update e2) ||
  (Qceq_b (t_update e1) (t_update e2) &&
   ((ii e1 <? ii e2) ||
    ((ii e1 =? ii e2) &&
     ((rank e1 <? rank e2) ||
      ((rank e1 =? rank e2) &&
       ((k0 e1 <? k0 e2) ||
        ((k0 e1 =? k0 e2) &&
         (list_ltb (pt0 e1) (pt0 e2) ||
          (list_eqb (pt0 e1) (pt0 e2) &&
           Qclt_b (dz e1) (dz e2)))))))))).

Fixpoint insert_entry (e : LogEntry) (l : list LogEntry) : list LogEntry :=
  match l with
  | [] => [e]
  | x :: l' => if entry_ltb x e then x :: insert_entry e l' else e :: l
  end.

(** [_log.sort()] *)
Definition sort_log (l : list LogEntry) : list LogEntry :=
  fold_right insert_entry [] l.

(** ---- Python lists indexed by a rank ---- *)

(** [l[i]] *)
Definition list_get (l : list Z) (i : Z) : outcome Z :=
  match norm_index (Z.of_nat (length l)) i with
  | Ok i' =>
      match l !! Z.to_nat i' with
      | Some x => Ok x
      | None => Raise IndexError
      end
  | Raise e => Raise e
  end.

(** [l[i] = v] *)
Definition list_set (l : list Z) (i : Z) (v : Z) : outcome (list Z) :=
  match norm_index (Z.of_nat (length l)) i with
  | Ok i' => Ok (<[Z.to_nat i' := v]> l)
  | Raise e => Raise e
  end.

(** Lines 113-117: the grid of workers, found automatically or given by
    the number [w_world] of workers per row.
    [assert n_jobs % w_world == 0; w_world, n_jobs // w_world] *)
Definition workers_topology (w_world : auto_or Z) (n_jobs : Z)
    (sig_shape : list Z) : outcome (list Z) :=
  match w_world with
  | Auto => _find_grid_size n_jobs sig_shape
  | Given w_world =>
      if w_world =? 0 then Raise ZeroDivisionError
      else if n_jobs mod w_world =? 0 then Ok [w_world; n_jobs / w_world]
      else Raise AssertionError
  end.

Section Coordinator.

(** The local solver [coordinate_descent] and the objective [utils.csc.cost]
    live in modules that are not part of these sources; so does the
    [Segmentation] class.  The tags come from [utils.constants], the
    flags from [utils.debug_flags]. *)
Variable cd_result : Type.
Variable coordinate_descent :
  ndarray -> ndarray -> Qc -> option ndarray -> auto_or Z -> string ->
  Qc -> Z -> option Z -> bool -> bool -> bool -> bool -> option Z -> Z ->
  cd_result.
Variable cost : ndarray -> ndarray -> ndarray -> Qc -> Qc.
Variable mk_Segmentation : list Z -> list Z -> list Z -> Segmentation.
Variable TAG_ROOT : Z.
Variable TAG_WORKER_RUN_DICOD : Z.
Variable CHECK_WARM_BETA : bool.
Variable GET_OVERLAP_Z_HAT : bool.
(** What [np.empty] happens to contain. *)
Variable uninitialized : list Z -> Qc.

(** What [dicod] returns: the local solver's result on the fast path, the
    tuple [(z_hat, ztz, ztX, p_obj)] otherwise. *)
Inductive result : Type :=
| Local (r : cd_result)
| Distributed (z_hat : ndarray) (ztz ztX : option ndarray)
              (p_obj : option curve).

(** ---- [reconstruct_pobj] ---- *)

(** The first loop: [max_ii[rank] = max(max_ii[rank], ii)]. *)
Definition max_ii_step (max_ii : list Z) (e : LogEntry) : M event (list Z) :=
  let* m := lift (list_get max_ii (rank e)) in
  lift (list_set max_ii (rank e) (Z.max m (ii e))).

(** The state of the replay loop. *)
Record replay : Type := {
  r_z_hat : ndarray;
  r_up_ii : Z;
  r_p_obj : curve;
  r_next_cost : Z;
  r_last_ii : list Z;
  r_t_update : option Qc
}.

Definition replay_step (X D : ndarray) (reg : Qc) (st : replay) (e : LogEntry)
  : M event replay :=
  let* z_hat := lift (iadd_at (r_z_hat st) (k0 e) (pt0 e) (dz e)) in
  let* last := lift (list_get (r_last_ii st) (rank e)) in
  let up_ii := r_up_ii st + (ii e - last) in
  let* last_ii := lift (list_set (r_last_ii st) (rank e) (ii e)) in
  if up_ii >=? r_next_cost st then
    ret {| r_z_hat := z_hat; r_up_ii := up_ii;
           r_p_obj := r_p_obj st ++ [(up_ii, t_update e, cost X z_hat D reg)];
           r_next_cost := r_next_cost st * 2;
           r_last_ii := last_ii; r_t_update := Some (t_update e) |}
  else
    ret {| r_z_hat := z_hat; r_up_ii := up_ii;
           r_p_obj := r_p_obj st;
           r_next_cost := r_next_cost st;
           r_last_ii := last_ii; r_t_update := Some (t_update e) |}.

Definition reconstruct_pobj (X D : ndarray) (reg : Qc) (_log : list LogEntry)
    (n_jobs : Z) (valid_shape : list Z) (z0 : option ndarray)
  : M event curve :=
  match shape D with
  | [] => raise IndexError
  | n_atoms :: _ =>
      let* z_hat :=
        match z0 with
        | None => lift (alloc (n_atoms :: valid_shape) (fun _ => 0%Qc))
        | Some z0 => ret z0
        end in
      (* Re-order the updates *)
      let _log := sort_log _log in
      let* max_ii := fold_m _log max_ii_step
                            (replicate (Z.to_nat n_jobs) 0) in
      let* st := fold_m _log (replay_step X D reg)
                   {| r_z_hat := z_hat; r_up_ii := 0; r_p_obj := [];
                      r_next_cost := 1;
                      r_last_ii := replicate (Z.to_nat n_jobs) 0;
                      r_t_update := None |} in
      match r_t_update st with
      | None => raise UnboundLocalError
      | Some t_update =>
          ret (r_p_obj st ++
               [(r_up_ii st, t_update, cost X (r_z_hat st) D reg)])
      end
  end.

(** ---- [_spawn_workers] ---- *)

Definition _spawn_workers (n_jobs : Z) (hostfile : option string)
  : M event Comm :=
  emit (GetReusableWorkers n_jobs hostfile) >>
  emit (SendCommand TAG_WORKER_RUN_DICOD) >>
  ret {| remote_size := n_jobs |}.

(** ---- [_send_task] ---- *)

Definition _send_task (comm : Comm) (w : Workers) (X D : ndarray) (reg : Qc)
    (z0 : option ndarray) (workers_segments : Segmentation) (params : Params)
  : M event unit :=
  let n_jobs := effective_n_seg workers_segments in
  match shape D with
  | n_atoms :: n_channels :: atom_shape =>
      emit (BcastParams params) >>
      emit (BroadcastArray D) >>
      let X_alpha := zeros (shape X) in
      let* X_alpha :=
        fold_m (range 0 n_jobs)
          (fun X_alpha i_seg =>
             (if p_has_z0 params then
                let worker_slice := get_seg_slice workers_segments i_seg false in
                match z0 with
                | None => raise TypeError
                | Some z0 =>
                    let* tile := lift (getview z0 worker_slice) in
                    emit (SendDouble (ravel tile) i_seg (TAG_ROOT + i_seg))
                end
              else ret tt) >>
             let seg_bounds := get_seg_bounds workers_segments i_seg in
             let X_worker_slice :=
               zip_with (fun b size_atom_ax => (fst b, snd b + size_atom_ax - 1))
                        seg_bounds atom_shape in
             let* tile := lift (getview X X_worker_slice) in
             emit (SendDouble (ravel tile) i_seg (TAG_ROOT + i_seg)) >>
             if p_debug params then
               let* view := lift (getview X_alpha X_worker_slice) in
               emit (RecvDouble (prod (shape view)) i_seg
                                (Some (TAG_ROOT + i_seg))) >>
               let X_worker := {| shape := shape view;
                                  at_ := w_debug_X w i_seg |} in
               lift (iadd X_alpha X_worker_slice X_worker)
             else ret X_alpha)
          X_alpha in
      (if p_debug params then
         (* plt.imshow(np.clip(X_alpha.swapaxes(0, 2), 0, 1)) *)
         (if (length (shape X_alpha) <? 3)%nat
          then raise (ValueError "axis out of bounds") else ret tt) >>
         emit PltShow >>
         let* c := lift (count_eq_at X_alpha 0 0 (Q2Qc (1 # 2))) in
         match rev atom_shape, n_seg_per_axis workers_segments with
         | a_last :: _, n0 :: _ => assert_ (c =? 3 * (a_last - 1) * (n0 - 1))
         | _, _ => raise IndexError
         end
       else ret tt) >>
      (if CHECK_WARM_BETA then
         let pt_global := get_seg_shape workers_segments 0 true in
         let* value :=
           fold_m (range 0 n_jobs)
             (fun value i_worker =>
                let pt := get_local_coordinate workers_segments i_worker
                                               pt_global in
                if is_contained_coordinate workers_segments i_worker pt then
                  emit (RecvDouble 1 i_worker None) >>
                  ret (value ++ [w_warm_beta w i_worker])
                else ret value)
             [] in
         match value with
         | v0 :: (_ :: _) as rest =>
             assert_ (allclose rest (replicate (length rest) v0))
         | _ => ret tt
         end
       else ret tt) >>
      emit Barrier
  | _ => raise (ValueError "not enough values to unpack")
  end.

(** ---- [_recv_result] ---- *)

(** [comm.Reduce(None, [buf, MPI.DOUBLE], MPI.SUM, root=MPI.ROOT)]: the
    buffer receives, entry by entry, the sum of what the workers of the
    remote group contribute. *)
Definition reduce_sum (comm : Comm) (buf : ndarray)
    (contribution : Z -> list Z -> Qc) : M event ndarray :=
  emit (ReduceSum (prod (shape buf))) >>
  ret {| shape := shape buf;
         at_ := fun ix => sum_range (remote_size comm)
                                    (fun r => contribution r ix) |}.

Definition _recv_result (comm : Comm) (w : Workers) (D_shape : list Z)
    (valid_shape : list Z) (workers_segments : Segmentation)
    (return_ztz timing : bool) (verbose : Z)
  : M event (ndarray * option ndarray * option ndarray * list LogEntry) :=
  match D_shape with
  | n_atoms :: n_channels :: atom_shape =>
      let inner := negb GET_OVERLAP_Z_HAT in
      let* z_hat := lift (alloc (n_atoms :: valid_shape) uninitialized) in
      let* z_hat :=
        fold_m (range 0 (effective_n_seg workers_segments))
          (fun z_hat i_seg =>
             let worker_shape := get_seg_shape workers_segments i_seg inner in
             let worker_slice := get_seg_slice workers_segments i_seg inner in
             let* z_worker :=
               lift (alloc (n_atoms :: worker_shape) (fun _ => 0%Qc)) in
             emit (RecvDouble (prod (shape z_worker)) i_seg
                              (Some (TAG_ROOT + i_seg))) >>
             let z_worker := {| shape := shape z_worker;
                                at_ := w_z_hat w i_seg |} in
             lift (setitem z_hat worker_slice z_worker))
          z_hat in
      let* stat :=
        if return_ztz then
          let ztz_shape := map (fun size_atom_ax => 2 * size_atom_ax - 1)
                               atom_shape in
          let* ztz :=
            lift (alloc (n_atoms :: n_atoms :: ztz_shape) (fun _ => 0%Qc)) in
          let* ztz := reduce_sum comm ztz (w_ztz w) in
          let* ztX :=
            lift (alloc (n_atoms :: n_channels :: atom_shape)
                        (fun _ => 0%Qc)) in
          let* ztX := reduce_sum comm ztX (w_ztX w) in
          ret (Some ztz, Some ztX)
        else ret (None, None) in
      let* _log :=
        if timing then
          fold_m (range 0 (effective_n_seg workers_segments))
            (fun _log i_seg =>
               emit (RecvObject i_seg) >> ret (_log ++ w_log w i_seg))
            []
        else ret [] in
      emit GatherObject >>
      ret (z_hat, fst stat, snd stat, _log)
  | _ => raise (ValueError "not enough values to unpack")
  end.

(** ---- [dicod] ---- *)

(** Lines 96-102, 107 and 113-117: the dictionary [params]. *)
Definition mk_params (a : Args) (reg : Qc) (valid_shape : list Z)
    (workers_topology : list Z) : Params :=
  {| p_strategy := strategy a; p_tol := tol a;
     p_max_iter := max_iter a; p_timeout := timeout a;
     p_n_seg := n_seg a; p_z_positive := z_positive a;
     p_verbose := verbose a; p_timing := timing a;
     p_debug := debug a; p_random_state := random_state a;
     p_reg := reg; p_return_ztz := return_ztz a;
     p_use_soft_lock := use_soft_lock a;
     p_has_z0 := match z0 a with Some _ => true | None => false end;
     p_freeze_support := freeze_support a;
     p_valid_shape := valid_shape;
     p_workers_topology := workers_topology |}.

(** The check of lines 124-128: no axis of a worker's tile may be as small
    as [2 * size_atom_ax - 1]. *)
Definition check_worker_shape (atom_shape worker_valid_shape : list Z)
  : M event unit :=
  for_each (zip atom_shape worker_valid_shape)
    (fun ax =>
       if 2 * fst ax - 1 >=? snd ax
       then raise (ValueError "Using too many cores.")
       else ret tt).

(** Lines 130-145, what follows the set-up checks: the workers are
    spawned, the task is sent, the result is gathered and the cost curve
    rebuilt. *)
Definition distributed (X_i D : ndarray) (reg : Qc) (a : Args) (w : Workers)
    (valid_shape : list Z) (workers_segments : Segmentation) (params : Params)
  : M event result :=
  let* comm := _spawn_workers (n_jobs a) (hostfile a) in
  _send_task comm w X_i D reg (z0 a) workers_segments params >>
  emit Barrier >>
  let* res := _recv_result comm w (shape D) valid_shape workers_segments
                           (return_ztz a) (timing a) (verbose a) in
  let '(z_hat, ztz, ztX, _log) := res in
  emit Barrier >>
  let* p_obj :=
    if timing a then
      let* c := reconstruct_pobj X_i D reg _log (n_jobs a)
                                 valid_shape (z0 a) in
      ret (Some c)
    else ret None in
  ret (Distributed z_hat ztz ztX p_obj).

Definition dicod (X_i D : ndarray) (reg : Qc) (a : Args) (w : Workers)
  : M event result :=
  if n_jobs a =? 1 then
    ret (Local (coordinate_descent X_i D reg (z0 a) (n_seg a) (strategy a)
                  (tol a) (max_iter a) (timeout a) (z_positive a)
                  (freeze_support a) (return_ztz a) (timing a)
                  (random_state a) (verbose a)))
  else
    match shape X_i, shape D with
    | n_channels :: sig_shape, n_atoms :: _ :: atom_shape =>
        assert_ (ndim D - 1 =? ndim X_i) >>
        let valid_shape :=
          zip_with (fun size_ax size_atom_ax => size_ax - size_atom_ax + 1)
                   sig_shape atom_shape in
        let overlap := map (fun size_atom_ax => size_atom_ax - 1) atom_shape in
        let* workers_topology :=
          lift (workers_topology (w_world a) (n_jobs a) sig_shape) in
        let params := mk_params a reg valid_shape workers_topology in
        (* compute a segmentation for the image *)
        let workers_segments :=
          mk_Segmentation workers_topology valid_shape overlap in
        (* Make sure we are not below twice the size of the dictionary *)
        let worker_valid_shape := get_seg_shape workers_segments 0 true in
        check_worker_shape atom_shape worker_valid_shape >>
        distributed X_i D reg a w valid_shape workers_segments params
    | _, _ => raise (ValueError "not enough values to unpack")
    end.

End Coordinator.

Arguments Local {cd_result} r.
Arguments Distributed {cd_result} z_hat ztz ztX p_obj.

(** The error of the tile check, and the axes that trigger it. *)
Definition too_many_cores : exn := ValueError "Using too many cores.".

Definition too_small (ax : Z * Z) : Prop := 2 * fst ax - 1 >= snd ax.

Definition not_the_tile_error (e : exn) : Prop := e <> too_many_cores.


(** Every [params] dictionary put on the wire satisfies [good]. *)
Definition sent (good : Params -> Prop) (e : event) : Prop :=
  match e with
  | BcastParams p => good p
  | _ => True
  end.

End Dicod.

(* ================================================================== *)
(** ** [dicod/dicodil.py]: the dictionary-learning outer loop *)

Module Dicodil.
Import Np NpView Dicod.
Local Open Scope coord_scope.

(** [DEFAULT_DICOD_KWARGS] and its like. *)
Record DicodKwargs : Type := {
  kw_max_iter : Z;
  kw_timeout : option Z
}.

Definition DEFAULT_DICOD_KWARGS : DicodKwargs :=
  {| kw_max_iter := 100000000; kw_timeout := None |}.

Record Args : Type := {
  reg : Qc;
  z_positive : bool;
  n_iter : Z;
  strategy : string;
  n_seg : auto_or Z;
  tol : Qc;
  dicod_kwargs : DicodKwargs;
  w_world : auto_or Z;
  n_jobs : Z;
  hostfile : option string;
  stopping_pobj : option Qc;
  eps : Qc;
  raise_on_increase : bool;
  random_state : option Z;
  name : string;
  verbose : Z
}.

(** The local dictionary [constants] handed to [update_d]. *)
Record Constants : Type := {
  c_n_channels : Z;
  c_XtX : Qc;
  c_ztz : option ndarray;
  c_ztX : option ndarray
}.

(** The state carried around the outer loop. *)
Record loop : Type := {
  l_D_hat : ndarray;
  l_pobj : list Qc;
  l_constants : Constants
}.

Inductive flow : Type :=
| Continue (st : loop)
| Break (st : loop).

Inductive verdict : Type :=
| Proceed
| Converged.

(** [l[-i]] on a Python list, for [i >= 1]. *)
Definition from_end (l : list Qc) (i : nat) : outcome Qc :=
  match rev l !! (i - 1)%nat with
  | Some x => Ok x
  | None => Raise IndexError
  end.

(** [a / b] on Python floats. *)
Definition truediv (a b : Qc) : outcome Qc :=
  if Qceq_b b 0 then Raise ZeroDivisionError else Ok (a / b)%Qc.

(** [D_hat[k0] = atom] *)
Definition set_atom (D_hat : ndarray) (k0 : Z) (atom : ndarray) : ndarray :=
  {| shape := shape D_hat;
     at_ := fun ix => match ix with
                      | k :: rest => if k =? k0 then at_ atom rest
                                     else at_ D_hat ix
                      | [] => at_ D_hat ix
                      end |}.

(** [np.where(z_nnz == 0)[0]], first entry. *)
Fixpoint first_null (z_nnz : list Z) (k : Z) : option Z :=
  match z_nnz with
  | [] => None
  | n :: rest => if n =? 0 then Some k else first_null rest (k + 1)
  end.

(** A call to a helper whose code is not in these sources: it leaves a mark
    in the trace and hands back what the workers answered, which may
    depend on everything that happened before. *)
Definition helper {A} (name : string) (reply : list event -> A) : M event A :=
  fun tr => (Ok (reply tr), tr ++ [Helper name]).

Section Learning.

(** From [alphacsc]: [get_lambda_max(X[None], D_hat).max()], [update_d] and
    [get_max_error_dict(...)[0]]. *)
Variable get_lambda_max : ndarray -> ndarray -> Qc.
Variable update_d : ndarray -> ndarray -> Constants -> ndarray.
Variable get_max_error_dict : ndarray -> ndarray -> ndarray -> ndarray.
Variable mk_Segmentation : list Z -> list Z -> list Z -> Segmentation.
(** [utils.constants] and [utils.debug_flags] *)
Variable TAG_ROOT : Z.
Variable TAG_WORKER_RUN_DICODIL : Z.
Variable TAG_DICODIL_STOP : Z.
Variable TAG_DICODIL_UPDATE_D : Z.
Variable TAG_DICODIL_UPDATE_Z : Z.
Variable TAG_DICODIL_GET_COST : Z.
Variable TAG_DICODIL_GET_Z_HAT : Z.
Variable TAG_DICODIL_GET_Z_NNZ : Z.
Variable TAG_DICODIL_GET_SUFFICIENT_STAT : Z.
Variable CHECK_WARM_BETA : bool.
(** ["{}".format] on a number *)
Variable fmt : Qc -> string.
Variable workers : Workers.
(** The answers collected by [recv_cost], [recv_z_hat],
    [recv_sufficient_statistics] and [recv_reduce_sum_array]. *)
Variable cost_reply : list event -> Qc.
Variable z_hat_reply : list event -> ndarray.
Variable stat_reply : list event -> ndarray * ndarray.
Variable z_nnz_reply : list event -> list Z.

Definition _request_workers (n_jobs : Z) (hostfile : option string)
  : M event Comm :=
  emit (GetReusableWorkers n_jobs hostfile) >>
  emit (SendCommand TAG_WORKER_RUN_DICODIL) >>
  ret {| remote_size := n_jobs |}.

Definition _release_workers : M event unit :=
  emit (SendCommand TAG_DICODIL_STOP).

Definition update_worker_D (comm : Comm) (D : ndarray) : M event unit :=
  emit (SendCommand TAG_DICODIL_UPDATE_D) >>
  emit (BroadcastArray D).

Definition update_z (comm : Comm) (n_jobs : Z) (verbose : Z) : M event unit :=
  emit (SendCommand TAG_DICODIL_UPDATE_Z) >>
  (* Wait first for the end of the initialization *)
  emit Barrier >>
  (* Then first for the end of the computation *)
  emit Barrier >>
  helper "_collect_end_stat" (fun _ => tt).

Definition compute_cost (comm : Comm) : M event Qc :=
  emit (SendCommand TAG_DICODIL_GET_COST) >>
  helper "recv_cost" cost_reply.

Definition get_z_hat (comm : Comm) (n_atoms : Z)
    (workers_segments : Segmentation) : M event ndarray :=
  emit (SendCommand TAG_DICODIL_GET_Z_HAT) >>
  helper "recv_z_hat" z_hat_reply.

Definition get_z_nnz (comm : Comm) (n_atoms : Z) : M event (list Z) :=
  emit (SendCommand TAG_DICODIL_GET_Z_NNZ) >>
  helper "recv_reduce_sum_array" z_nnz_reply.

Definition get_sufficient_statistics (comm : Comm) (D_shape : list Z)
  : M event (ndarray * ndarray) :=
  emit (SendCommand TAG_DICODIL_GET_SUFFICIENT_STAT) >>
  helper "recv_sufficient_statistics" stat_reply.

(** The two error messages of the monitoring. *)
Definition z_increase_message (dz : Qc) : string :=
  "The z update have increased the objective value by " ++ fmt dz ++ ".".

Definition d_increase_message (du dz : Qc) : string :=
  "The d update have increased the objective value by " ++ fmt du
  ++ ".(dz=" ++ fmt dz ++ ")".

(** Lines 141-159: the monitoring of the objective at the end of an
    iteration.  [pobj[-3]], [pobj[-2]] and [pobj[-1]] are the objective
    before the z-update, after it, and after the d-update. *)
Definition check_progress (eps : Qc) (raise_on_increase : bool)
    (pobj : list Qc) : M event verdict :=
  let* p3 := lift (from_end pobj 3) in
  let* p2 := lift (from_end pobj 2) in
  let* p1 := lift (from_end pobj 1) in
  let* dz := lift (truediv (p3 - p2) (Qcmin p3 p2)) in
  let* du := lift (truediv (p2 - p1) (Qcmin p2 p1)) in
  if Qclt_b dz eps || Qclt_b du eps then
    if Qclt_b dz 0 && raise_on_increase then
      raise (RuntimeError (z_increase_message dz))
    else if Qclt_b du (- Q2Qc (1 # 10000000000))
            && Qclt_b (Q2Qc (1 # 1000000000000)) dz
            && raise_on_increase then
      raise (RuntimeError (d_increase_message du dz))
    else if Qclt_b dz eps && Qclt_b du eps then ret Converged
    else ret Proceed
  else ret Proceed.

(** One turn of the outer loop of coordinate descent. *)
Definition iteration (a : Args) (X : ndarray) (comm : Comm) (n_atoms : Z)
    (workers_segments : Segmentation) (st : loop) : M event flow :=
  (* Compute z update *)
  update_z comm (n_jobs a) (verbose a) >>
  let* stat := get_sufficient_statistics comm (shape (l_D_hat st)) in
  let constants := {| c_n_channels := c_n_channels (l_constants st);
                      c_XtX := c_XtX (l_constants st);
                      c_ztz := Some (fst stat);
                      c_ztX := Some (snd stat) |} in
  (* monitor cost function *)
  let* c := compute_cost comm in
  let pobj := l_pobj st ++ [c] in
  let* z_nnz := get_z_nnz comm n_atoms in
  if forallb (fun n => n =? 0) z_nnz then
    emit (Warn "Regularization parameter `reg` is too large and all the activations are zero. No atoms has been learned.") >>
    ret (Break {| l_D_hat := l_D_hat st; l_pobj := pobj;
                  l_constants := constants |})
  else
    (* Compute D update *)
    let D_hat := update_d X (l_D_hat st) constants in
    update_worker_D comm D_hat >>
    (* monitor cost function *)
    let* c := compute_cost comm in
    let pobj := pobj ++ [c] in
    let* D_hat :=
      match first_null z_nnz 0 with
      | Some k0 =>
          let* z_hat := get_z_hat comm n_atoms workers_segments in
          ret (set_atom D_hat k0 (get_max_error_dict X z_hat D_hat))
      | None => ret D_hat
      end in
    let st' := {| l_D_hat := D_hat; l_pobj := pobj;
                  l_constants := constants |} in
    (* Only check that the cost is always going down when the
       regularization parameter is fixed. *)
    let* v := check_progress (eps a) (raise_on_increase a) pobj in
    match v with
    | Converged => ret (Break st')
    | Proceed =>
        let* last := lift (from_end pobj 1) in
        match stopping_pobj a with
        | Some target => if Qclt_b last target then ret (Break st')
                         else ret (Continue st')
        | None => ret (Continue st')
        end
    end.

(** [for ii in range(n_iter): ...] with its [break]s. *)
Fixpoint outer_loop (n : nat) (a : Args) (X : ndarray) (comm : Comm)
    (n_atoms : Z) (workers_segments : Segmentation) (st : loop)
  : M event loop :=
  match n with
  | O => ret st
  | S n' =>
      let* r := iteration a X comm n_atoms workers_segments st in
      match r with
      | Break st' => ret st'
      | Continue st' => outer_loop n' a X comm n_atoms workers_segments st'
      end
  end.

(** What follows the set-up checks: the workers are requested, the task is
    sent, the outer loop runs and the result is gathered. *)
Definition learn (a : Args) (X D_hat : ndarray) (reg_ : Qc) (params : Params)
    (n_atoms : Z) (valid_shape : list Z) (workers_segments : Segmentation)
  : M event (list Qc * ndarray * ndarray) :=
  (* Initialize constants dictionary *)
  match shape X with
  | _ :: n_channels :: _ =>
      let XtX := fold_right (fun x acc => (x * x + acc)%Qc) 0%Qc (ravel X) in
      let constants := {| c_n_channels := n_channels; c_XtX := XtX;
                          c_ztz := None; c_ztX := None |} in
      let* z0 := lift (alloc (n_atoms :: valid_shape) (fun _ => 0%Qc)) in
      let* comm := _request_workers (n_jobs a) (hostfile a) in
      _send_task TAG_ROOT CHECK_WARM_BETA comm workers X D_hat reg_ (Some z0)
                 workers_segments params >>
      (* monitor cost function *)
      let* c := compute_cost comm in
      let* st := outer_loop (Z.to_nat (n_iter a)) a X comm n_atoms
                            workers_segments
                            {| l_D_hat := D_hat; l_pobj := [c];
                               l_constants := constants |} in
      update_z comm (n_jobs a) (verbose a) >>
      let* z_hat := get_z_hat comm n_atoms workers_segments in
      let* c := compute_cost comm in
      _release_workers >>
      ret (l_pobj st ++ [c], l_D_hat st, z_hat)
  | _ => raise IndexError
  end.

Definition dicodil (X D_hat : ndarray) (a : Args)
  : M event (list Qc * ndarray * ndarray) :=
  let lmbd_max := get_lambda_max X D_hat in
  let reg_ := (reg a * lmbd_max)%Qc in
  match shape X, shape D_hat with
  | n_channels :: sig_shape, n_atoms :: _ :: atom_shape =>
      assert_ (ndim D_hat - 1 =? ndim X) >>
      let valid_shape :=
        zip_with (fun size_ax size_atom_ax => size_ax - size_atom_ax + 1)
                 sig_shape atom_shape in
      let overlap := map (fun size_atom_ax => size_atom_ax - 1) atom_shape in
      let* workers_topology :=
        lift (workers_topology (w_world a) (n_jobs a) sig_shape) in
      let params :=
        {| p_strategy := strategy a; p_tol := tol a;
           p_max_iter := kw_max_iter (dicod_kwargs a);
           p_timeout := kw_timeout (dicod_kwargs a);
           p_n_seg := n_seg a; p_z_positive := z_positive a;
           p_verbose := verbose a; p_timing := false;
           p_debug := false; p_random_state := random_state a;
           p_reg := reg_; p_return_ztz := false;
           p_use_soft_lock := true;
           p_has_z0 := true;
           p_freeze_support := false;
           p_valid_shape := valid_shape;
           p_workers_topology := workers_topology |} in
      (* compute a segmentation for the image *)
      let workers_segments :=
        mk_Segmentation workers_topology valid_shape overlap in
      (* Make sure we are not below twice the size of the dictionary *)
      let worker_valid_shape := get_seg_shape workers_segments 0 true in
      check_worker_shape atom_shape worker_valid_shape >>
      learn a X D_hat reg_ params n_atoms valid_shape workers_segments
  | _, _ => raise (ValueError "not enough values to unpack")
  end.

End Learning.

End Dicodil.

(* ================================================================== *)
(** ** Reference statements, written from the specification's wording *)

Module Reference.
Import Np.

(** "the mean over the C channels of the squared norm":
    [(1/C) * sum_c sum_p D[k, c, p]^2] for a dictionary of shape (K, C, S). *)
Definition mean_sq_norm_1d (D : ndarray) (k : Z) : Qc :=
  match shape D with
  | [_; C; len] =>
      (sum_range C (fun c => sum_range len (fun p =>
         at_ D [k; c; p] * at_ D [k; c; p])) / float C)%Qc
  | _ => 0%Qc
  end.

(** The same for a dictionary of shape (K, C, h, w). *)
Definition mean_sq_norm_2d (D : ndarray) (k : Z) : Qc :=
  match shape D with
  | [_; C; h; w] =>
      (sum_range C (fun c => sum_range h (fun p => sum_range w (fun q =>
         at_ D [k; c; p; q] * at_ D [k; c; p; q]))) / float C)%Qc
  | _ => 0%Qc
  end.

(** The sum of [f] over a list of indices. *)
Definition sum_list (l : list Z) (f : Z -> Qc) : Qc :=
  fold_right (fun i acc => (f i + acc)%Qc) 0%Qc l.

(** What [alpha_k += (alpha_k == 0)] makes of an entry [m]: a zero becomes
    one. *)
Definition unit_if_zero (m : Qc) : Qc := if Qceq_b m 0 then 1%Qc else m.



(** The [n]-th double buffer broadcast in a trace (counting from 0). *)
Fixpoint nth_bcast_1d (tr : list DICOD.event) (n : nat) : option (list Qc) :=
  match tr with
  | [] => None
  | DICOD.BcastDouble buf :: tr' =>
      match n with
      | O => Some buf
      | S n' => nth_bcast_1d tr' n'
      end
  | _ :: tr' => nth_bcast_1d tr' n
  end.

Fixpoint nth_bcast_2d (tr : list DICOD2D.event) (n : nat) : option (list Qc) :=
  match tr with
  | [] => None
  | DICOD2D.BcastDouble buf :: tr' =>
      match n with
      | O => Some buf
      | S n' => nth_bcast_2d tr' n'
      end
  | _ :: tr' => nth_bcast_2d tr' n
  end.

(** *** The cost curve of [reconstruct_pobj], as the specification tells it

    "sorting the per-update log records in ascending timestamp order,
    replaying each dz onto z in that order, and recording a
    (update_count, t_update, cost) checkpoint whenever the accumulated
    update count reaches the next power of 2, plus one final checkpoint". *)

Section Curve.
Import NpView Dicod.
Variable cost : ndarray -> ndarray -> ndarray -> Qc -> Qc.
Variables (X D : ndarray) (reg : Qc).

(** One logged update replayed onto [z]. *)
Definition apply_update (z : ndarray) (e : LogEntry) : ndarray :=
  match iadd_at z (k0 e) (pt0 e) (dz e) with
  | Ok z' => z'
  | Raise _ => z
  end.

Definition replayed (z : ndarray) (es : list LogEntry) : ndarray :=
  fold_left apply_update es z.

(** Every record carries the local iteration counter of its worker: the
    accumulated update count adds up how far each worker has got. *)
Definition latest_ii (r : Z) (es : list LogEntry) : Z :=
  fold_left (fun acc e => if rank e =? r then ii e else acc) es 0.

Definition update_count (n_jobs : Z) (es : list LogEntry) : Z :=
  fold_right Z.add 0 (map (fun r => latest_ii r es) (range 0 n_jobs)).

(** The checkpoints met while the records [rest] are replayed after the
    records [seen]; [next] is the power of two to reach. *)
Fixpoint checkpoints (z : ndarray) (n_jobs : Z) (seen rest : list LogEntry)
    (next : Z) : curve :=
  match rest with
  | [] => []
  | e :: rest' =>
      let seen' := seen ++ [e] in
      let c := update_count n_jobs seen' in
      if c >=? next
      then (c, t_update e, cost X (replayed z seen') D reg)
             :: checkpoints z n_jobs seen' rest' (2 * next)
      else checkpoints z n_jobs seen' rest' next
  end.

Definition final_checkpoint (z : ndarray) (n_jobs : Z) (es : list LogEntry)
  : curve :=
  match rev es with
  | [] => []
  | e :: _ => [(update_count n_jobs es, t_update e,
                cost X (replayed z es) D reg)]
  end.

Definition cost_curve (z : ndarray) (n_jobs : Z) (log : list LogEntry)
  : curve :=
  let s := sort_log log in
  checkpoints z n_jobs [] s 1 ++ final_checkpoint z n_jobs s.

(** A record the replay can take: its rank names a worker, its index
    names entries of [z]. *)
Definition valid_entry (sh : list Z) (n_jobs : Z) (e : LogEntry) : bool :=
  (0 <=? rank e) && (rank e <? n_jobs) &&
  match norm_prefix sh (k0 e :: pt0 e) with
  | Ok _ => true
  | Raise _ => false
  end.

(** "in ascending timestamp order" *)
Definition by_time (e1 e2 : LogEntry) : Prop :=
  (t_update e1 <= t_update e2)%Qc.

(** The latest local iteration of every worker, as a list. *)
Definition lasts (n_jobs : Z) (es : list LogEntry) : list Z :=
  map (fun r => latest_ii r es) (range 0 n_jobs).

(** The state of the replay loop once the records [seen] are replayed. *)
Definition replay_after (z : ndarray) (n_jobs : Z) (seen : list LogEntry)
    (p_obj : curve) (next_cost : Z) (t : option Qc) : replay :=
  {| r_z_hat := replayed z seen;
     r_up_ii := update_count n_jobs seen;
     r_p_obj := p_obj;
     r_next_cost := next_cost;
     r_last_ii := lasts n_jobs seen;
     r_t_update := t |}.

(** The initial activation of the replay: [z0] when given, zeros of shape
    [(n_atoms, *valid_shape)] otherwise. *)
Definition initial_z (z0 : option ndarray) (n_atoms : Z) (valid_shape : list Z)
  : outcome ndarray :=
  match z0 with
  | Some z0 => Ok z0
  | None => alloc (n_atoms :: valid_shape) (fun _ => 0%Qc)
  end.

(** The logs of all workers, in the order they are received. *)
Definition gathered_log (w : Workers) (seg : Segmentation) : list LogEntry :=
  concat (map (w_log w) (range 0 (effective_n_seg seg))).

(** "the element-wise sum-reduction over all workers of their
    contributions", in an array of shape [sh]. *)
Definition reduced (sh : list Z) (n_workers : Z)
    (contribution : Z -> list Z -> Qc) : ndarray :=
  {| shape := sh;
     at_ := fun ix => sum_range n_workers (fun r => contribution r ix) |}.

End Curve.

End Reference.

(* ================================================================== *)
(** ** Small concrete instances, on which the statements are exercised *)

Module Example.
Import Np NpView.

(** *** For the classes [DICOD] and [DICOD2D] *)

Definition str (n : Z) : string := "".

Definition lasso (debug : Z) (kw : Z * Z) : DICOD.LassoSolver :=
  {| DICOD.ls_tol := Q2Qc (1 # 10000000000);
     DICOD.ls_max_iter := fst kw;
     DICOD.ls_timeout := snd kw;
     DICOD.ls_name := "_GD";
     DICOD.ls_id := 0 |}.

(** [DICOD(n_jobs=2, patience=patience, max_iter=1000, timeout=40)] *)
Definition solver (patience : Z) : DICOD.t :=
  DICOD.__init__ str (Z * Z) lasso 2 1 None false 0 false DICOD.ALGO_GS
                 patience (1000, 40).

(** One atom of one channel and length 2 that is identically zero, and a
    signal of one channel and length 9. *)
Definition zero_atom : ndarray := zeros [1; 1; 2].

Definition ramp : ndarray :=
  {| shape := [1; 9];
     at_ := fun ix => match ix with
                      | [_; t] => float t
                      | _ => 0%Qc
                      end |}.

Definition problem : DICOD.Problem :=
  {| DICOD.pb_D := zero_atom; DICOD.pb_x := ramp;
     DICOD.pb_DD := Some (zeros [1; 1; 3]); DICOD.pb_lmbd := 1%Qc |}.

(** The workers echo the probes of [_confirm_array] faithfully. *)
Definition echo (expect : list Z) (i : nat) : Qc := float (nth i expect 0).

Definition probes : list Z := [0; 5; 5; 8].
Definition probes_2d : list Z := [0; 7; 2; 9].

Definition gradient (debug : Z) (kw : Qc * Z) : DICOD2D.GradientDescent :=
  {| DICOD2D.gd_tol := Q2Qc (1 # 10000000000);
     DICOD2D.gd_i_max := fst kw;
     DICOD2D.gd_t_max := snd kw;
     DICOD2D.gd_name := "_GD";
     DICOD2D.gd_id := 0 |}.

(** [DICOD2D(pb, n_jobs=2, w_world=1, patience=patience, i_max=1000,
    t_max=40)] *)
Definition solver_2d (patience : Z) : M DICOD2D.event DICOD2D.t :=
  DICOD2D.__init__ str (Qc * Z) gradient 2 1 1 None false 0 false
                   DICOD2D.ALGO_GS patience (float 1000, 40).

Definition zero_atom_2d : ndarray := zeros [1; 1; 2; 2].

Definition image : ndarray :=
  {| shape := [1; 6; 6];
     at_ := fun ix => match ix with
                      | [_; i; j] => float (i + j)
                      | _ => 0%Qc
                      end |}.

Definition problem_2d : DICOD2D.Problem :=
  {| DICOD2D.pb_D := zero_atom_2d; DICOD2D.pb_x := image;
     DICOD2D.pb_DD := None; DICOD2D.pb_lmbd := 1%Qc |}.

Definition compute_DD (pb : DICOD2D.Problem) (DD : option ndarray) : ndarray :=
  match DD with
  | Some DD => DD
  | None => zeros [1; 1; 3; 3]
  end.

(** *** For the function [dicod] *)

(** A segmentation of a 1D grid of length [L] in [n] tiles of equal size
    (the last one takes the remainder). *)
Definition tile_bounds (n L i : Z) : Z * Z :=
  (i * (L / n), if i + 1 =? n then L else (i + 1) * (L / n)).

Definition segmentation (n_seg signal_shape overlap : list Z)
  : Dicod.Segmentation :=
  let n := hd 1 n_seg in
  let L := hd 0 signal_shape in
  {| Dicod.effective_n_seg := n;
     Dicod.n_seg_per_axis := n_seg;
     Dicod.get_seg_shape := fun i _ =>
       [snd (tile_bounds n L i) - fst (tile_bounds n L i)];
     Dicod.get_seg_bounds := fun i => [tile_bounds n L i];
     Dicod.get_seg_slice := fun i _ => [tile_bounds n L i];
     Dicod.get_local_coordinate := fun i pt =>
       map (fun p => p - fst (tile_bounds n L i)) pt;
     Dicod.is_contained_coordinate := fun i pt =>
       forallb (fun p => (0 <=? p)
                         && (p <? snd (tile_bounds n L i)
                                  - fst (tile_bounds n L i))) pt |}.

(** One channel, a signal of length 12; one atom of length 2. *)
Definition signal : ndarray :=
  {| shape := [1; 12];
     at_ := fun ix => match ix with
                      | [_; t] => float t
                      | _ => 0%Qc
                      end |}.

Definition atom : ndarray :=
  {| shape := [1; 1; 2]; at_ := fun _ => 1%Qc |}.

Definition args (n_jobs : Z) (return_ztz timing : bool) : Dicod.Args :=
  {| Dicod.z0 := None; Dicod.n_seg := Dicod.Auto;
     Dicod.strategy := "greedy"; Dicod.use_soft_lock := true;
     Dicod.n_jobs := n_jobs; Dicod.w_world := Dicod.Auto;
     Dicod.hostfile := None; Dicod.tol := Q2Qc (1 # 100000);
     Dicod.max_iter := 100000; Dicod.timeout := None;
     Dicod.z_positive := false; Dicod.return_ztz := return_ztz;
     Dicod.freeze_support := false; Dicod.timing := timing;
     Dicod.random_state := None; Dicod.verbose := 0;
     Dicod.debug := false |}.

(** Each worker made one update, at the start of its tile. *)
Definition workers : Dicod.Workers :=
  {| Dicod.w_debug_X := fun _ _ => 0%Qc;
     Dicod.w_warm_beta := fun _ => 0%Qc;
     Dicod.w_z_hat := fun r ix => match ix with
                                  | [_; 0] => 1%Qc
                                  | _ => 0%Qc
                                  end;
     Dicod.w_ztz := fun r _ => float (r + 1);
     Dicod.w_ztX := fun r _ => float (2 * r);
     Dicod.w_log := fun r =>
       [{| Dicod.t_update := float (5 - r); Dicod.ii := 1; Dicod.rank := r;
           Dicod.k0 := 0; Dicod.pt0 := [5 * r]; Dicod.dz := 1%Qc |}];
     Dicod.w_stats := fun _ => (1%Qc, 1%Qc) |}.

(** A stand-in for the objective: the sum of the activations. *)
Definition cost (X z D : ndarray) (reg : Qc) : Qc :=
  fold_right Qcplus 0%Qc (ravel z).

Definition coordinate_descent (X D : ndarray) (reg : Qc) (z0 : option ndarray)
    (n_seg : Dicod.auto_or Z) (strategy : string) (tol : Qc) (max_iter : Z)
    (timeout : option Z) (z_positive freeze_support return_ztz timing : bool)
    (random_state : option Z) (verbose : Z) : Z := max_iter.

Definition dicod (a : Dicod.Args) : M Dicod.event (Dicod.result Z) :=
  Dicod.dicod Z coordinate_descent cost segmentation 4242 1 false false
              (fun _ => 0%Qc) signal atom 1%Qc a workers.

(** *** For [dicodil] *)

Definition learning_args (n_jobs : Z) : Dicodil.Args :=
  {| Dicodil.reg := Q2Qc (1 # 10); Dicodil.z_positive := true;
     Dicodil.n_iter := 2; Dicodil.strategy := "greedy";
     Dicodil.n_seg := Dicod.Auto; Dicodil.tol := Q2Qc (1 # 10);
     Dicodil.dicod_kwargs := Dicodil.DEFAULT_DICOD_KWARGS;
     Dicodil.w_world := Dicod.Auto; Dicodil.n_jobs := n_jobs;
     Dicodil.hostfile := None; Dicodil.stopping_pobj := None;
     Dicodil.eps := Q2Qc (1 # 100000); Dicodil.raise_on_increase := true;
     Dicodil.random_state := None; Dicodil.name := "DICODIL";
     Dicodil.verbose := 0 |}.

Definition fmt (x : Qc) : string := "".

Definition dicodil (a : Dicodil.Args)
  : M Dicod.event (list Qc * ndarray * ndarray) :=
  Dicodil.dicodil (fun _ _ => 1%Qc) (fun _ D _ => D) (fun _ _ D => D)
    segmentation 4242 2 3 4 5 6 7 8 9 false fmt workers
    (fun tr => float (Z.of_nat (length tr))) (fun _ => zeros [1; 11])
    (fun _ => (zeros [1; 1; 3], zeros [1; 1; 2])) (fun _ => [1])
    signal atom a.

End Example.

(* ================================================================== *)
(** ** Further concrete instances *)

Module Scenario.
Import Np NpView.

(** [dicod(..., n_jobs=n_jobs, w_world=w_world)] with the grid given. *)
Definition args_grid (n_jobs w_world : Z) : Dicod.Args :=
  {| Dicod.z0 := None; Dicod.n_seg := Dicod.Auto;
     Dicod.strategy := "greedy"; Dicod.use_soft_lock := true;
     Dicod.n_jobs := n_jobs; Dicod.w_world := Dicod.Given w_world;
     Dicod.hostfile := None; Dicod.tol := Q2Qc (1 # 100000);
     Dicod.max_iter := 100000; Dicod.timeout := None;
     Dicod.z_positive := false; Dicod.return_ztz := false;
     Dicod.freeze_support := false; Dicod.timing := false;
     Dicod.random_state := None; Dicod.verbose := 0;
     Dicod.debug := false |}.

(** A signal with three spatial axes and an atom to match. *)
Definition volume : ndarray := zeros [1; 4; 4; 4].
Definition cube : ndarray := zeros [1; 1; 2; 2; 2].

(** [dicod] on the instances of [Example], for any signal and dictionary. *)
Definition dicod (X D : ndarray) (a : Dicod.Args)
  : M Dicod.event (Dicod.result Z) :=
  Dicod.dicod Z Example.coordinate_descent Example.cost Example.segmentation
              4242 1 false false (fun _ => 0%Qc) X D 1%Qc a Example.workers.

(** Workers that made no update at all. *)
Definition silent_workers : Dicod.Workers :=
  {| Dicod.w_debug_X := fun _ _ => 0%Qc;
     Dicod.w_warm_beta := fun _ => 0%Qc;
     Dicod.w_z_hat := fun _ _ => 0%Qc;
     Dicod.w_ztz := fun _ _ => 0%Qc;
     Dicod.w_ztX := fun _ _ => 0%Qc;
     Dicod.w_log := fun _ => [];
     Dicod.w_stats := fun _ => (0%Qc, 0%Qc) |}.

(** The log gathered from the two workers of [Example.workers], and a
    record that names a worker that does not exist. *)
Definition two_updates : list Dicod.LogEntry :=
  Dicod.w_log Example.workers 0 ++ Dicod.w_log Example.workers 1.

Definition stray_update : Dicod.LogEntry :=
  {| Dicod.t_update := 1%Qc; Dicod.ii := 1; Dicod.rank := 5;
     Dicod.k0 := 0; Dicod.pt0 := [0]; Dicod.dz := 1%Qc |}.

(** A problem whose [DD] has not been computed, and a solver that was
    given no worker: [DICOD(n_jobs=0, max_iter=1000, timeout=40)]. *)
Definition problem_without_DD : DICOD.Problem :=
  {| DICOD.pb_D := Example.zero_atom; DICOD.pb_x := Example.ramp;
     DICOD.pb_DD := None; DICOD.pb_lmbd := 1%Qc |}.

Definition idle_solver : DICOD.t :=
  DICOD.__init__ Example.str (Z * Z) Example.lasso 0 1 None false 0 false
                 DICOD.ALGO_GS 1000 (1000, 40).

End Scenario.

(* ================================================================== *)
(** ** The messages of [_send_task] and [_recv_result], worker by worker *)

Module Wire.
Import Np NpView Dicod.

(** The slice of the signal that worker [i_seg] is sent: its segment,
    widened by [size_atom_ax - 1] at the end of every axis. *)
Definition X_worker_slice (workers_segments : Segmentation)
    (atom_shape : list Z) (i_seg : Z) : list (Z * Z) :=
  zip_with (fun b size_atom_ax => (fst b, snd b + size_atom_ax - 1))
           (get_seg_bounds workers_segments i_seg) atom_shape.

(** What [_send_task] sends to worker [i_seg]: its tile of [z0] when there
    is a warm start, then its tile of [X]. *)
Definition task_messages (TAG_ROOT : Z) (X : ndarray) (z0 : option ndarray)
    (workers_segments : Segmentation) (params : Params) (atom_shape : list Z)
    (i_seg : Z) : list event :=
  (if p_has_z0 params then
     match z0 with
     | Some z0 =>
         [SendDouble (ravel (slice_trailing z0
                               (get_seg_slice workers_segments i_seg false)))
                     i_seg (TAG_ROOT + i_seg)]
     | None => []
     end
   else []) ++
  [SendDouble (ravel (slice_trailing X
                        (X_worker_slice workers_segments atom_shape i_seg)))
              i_seg (TAG_ROOT + i_seg)].

(** Worker [i_seg] can be served: the slices do not have more axes than
    the arrays they cut. *)
Definition servable (X : ndarray) (z0 : option ndarray)
    (workers_segments : Segmentation) (params : Params) (atom_shape : list Z)
    (i_seg : Z) : Prop :=
  (p_has_z0 params = true ->
   exists z, z0 = Some z /\
     (length (get_seg_slice workers_segments i_seg false)
      <= length (shape z))%nat) /\
  (length (X_worker_slice workers_segments atom_shape i_seg)
   <= length (shape X))%nat.

(** What [_recv_result] posts: one receive per worker, two reductions when
    [return_ztz], one object per worker when [timing], and the gather of
    the statistics. *)
Definition result_messages (TAG_ROOT : Z) (inner : bool)
    (workers_segments : Segmentation) (n_atoms n_channels : Z)
    (atom_shape : list Z) (return_ztz timing : bool) : list event :=
  map (fun i_seg =>
         RecvDouble (n_atoms * prod (get_seg_shape workers_segments i_seg inner))
                    i_seg (Some (TAG_ROOT + i_seg)))
      (range 0 (effective_n_seg workers_segments)) ++
  (if return_ztz then
     [ReduceSum (n_atoms * (n_atoms
                  * prod (map (fun size_atom_ax => 2 * size_atom_ax - 1)
                              atom_shape)));
      ReduceSum (n_atoms * (n_channels * prod atom_shape))]
   else []) ++
  (if timing then map RecvObject (range 0 (effective_n_seg workers_segments))
   else []) ++
  [GatherObject].

(** The resolved bounds of the slice of [z_hat] that worker [i_seg]
    fills. *)
Definition tile (workers_segments : Segmentation) (inner : bool)
    (z_shape : list Z) (i_seg : Z) : list (Z * Z) :=
  trailing_bounds z_shape (get_seg_slice workers_segments i_seg inner).

End Wire.

(* ================================================================== *)
(** ** [dicod/dicod.py]: how [send_task] shares the signal out *)

Module Share.
Import Np.

(** The columns of the signal that worker [i] is sent:
    [i * L_proc : min(T, (i + 1) * L_proc + S - 1)]. *)
Definition chunk (T S L_proc i : Z) : Z * Z :=
  (i * L_proc, Z.min T ((i + 1) * L_proc + S - 1)).

Definition chunk_message (sig : ndarray) (T S L_proc i : Z) : DICOD.event :=
  DICOD.Send (ravel (slice sig [None; Some (chunk T S L_proc i)])) i (100 + i).

(** The point-to-point sends of a trace. *)
Definition sends (tr : list DICOD.event) : list DICOD.event :=
  List.filter (fun e => match e with
                   | DICOD.Send _ _ _ => true
                   | _ => false
                   end) tr.

End Share.

(* ================================================================== *)
(** ** Computations that close with a given event *)

(** A computation ends with the event [B] when [B] is the last thing it
    does when it returns, and something it never does when it raises. *)
Definition ends_with {E A} (B : E) (m : M E A) : Prop :=
  forall tr o tr',
    m tr = (o, tr') ->
    exists ev, tr' = tr ++ ev /\
      match o with
      | Ok _ => exists pre, ev = pre ++ [B] /\ ~ In B pre
      | Raise _ => ~ In B ev
      end.

(* ================================================================== *)
(** * Properties *)

(** ** The coordinator monad *)

Section MonadFacts.
Context {E : Type}.
Implicit Types (tr : list E).

Lemma bind_inv {A B} (m : M E A) (k : A -> M E B) tr o tr' :
  bind m k tr = (o, tr') ->
  (exists a tr1, m tr = (Ok a, tr1) /\ k a tr1 = (o, tr')) \/
  (exists e, m tr = (Raise e, tr') /\ o = Raise e).
Proof.
  unfold bind. destruct (m tr) as [[a|e] tr1]; intros H.
  - left. eauto.
  - right. inversion H; subst. eauto.
Qed.

Lemma bind_ok {A B} (m : M E A) (k : A -> M E B) tr a tr1 :
  m tr = (Ok a, tr1) -> bind m k tr = k a tr1.
Proof. unfold bind. now intros ->. Qed.

Lemma bind_raise {A B} (m : M E A) (k : A -> M E B) tr e tr1 :
  m tr = (Raise e, tr1) -> bind m k tr = (Raise e, tr1).
Proof. unfold bind. now intros ->. Qed.

Variable P : E -> Prop.
Variable Q : exn -> Prop.

Lemma obeys_ret {A} (a : A) : obeys P Q (ret a).
Proof.
  intros tr o tr' H. inversion H; subst. split; [|exact I].
  exists []. split; [now rewrite app_nil_r | constructor].
Qed.

Lemma obeys_raise {A} (e : exn) : Q e -> obeys P Q (@raise E A e).
Proof.
  intros Hq tr o tr' H. inversion H; subst. split; [|exact Hq].
  exists []. split; [now rewrite app_nil_r | constructor].
Qed.

Lemma obeys_emit (ev : E) : P ev -> obeys P Q (emit ev).
Proof.
  intros Hp tr o tr' H. inversion H; subst. split; [|exact I].
  exists [ev]. split; [reflexivity | repeat constructor; exact Hp].
Qed.

Lemma obeys_lift {A} (o : outcome A) :
  (forall e, o = Raise e -> Q e) -> obeys P Q (lift o).
Proof.
  intros Hq tr o' tr' H. inversion H; subst. split.
  - exists []. split; [now rewrite app_nil_r | constructor].
  - destruct o'; [exact I | now apply Hq].
Qed.

Lemma obeys_assert (b : bool) : Q AssertionError -> obeys P Q (assert_ b).
Proof.
  intros Hq. destruct b; [apply obeys_ret | now apply obeys_raise].
Qed.

Lemma obeys_bind {A B} (m : M E A) (k : A -> M E B) :
  obeys P Q m -> (forall a, obeys P Q (k a)) -> obeys P Q (bind m k).
Proof.
  intros Hm Hk tr o tr' H.
  destruct (bind_inv _ _ _ _ _ H) as [(a & tr1 & H1 & H2) | (e & H1 & ->)].
  - destruct (Hm _ _ _ H1) as [(ev1 & -> & F1) _].
    destruct (Hk a _ _ _ H2) as [(ev2 & -> & F2) Ho].
    split; [|exact Ho].
    exists (ev1 ++ ev2). split; [now rewrite app_assoc | now apply Forall_app].
  - exact (Hm _ _ _ H1).
Qed.

Lemma obeys_for_each {A} (xs : list A) (body : A -> M E unit) :
  (forall x, obeys P Q (body x)) -> obeys P Q (for_each xs body).
Proof.
  intros Hb. induction xs as [|x xs IH]; simpl.
  - apply obeys_ret.
  - apply obeys_bind; [apply Hb | intros _; exact IH].
Qed.

Lemma obeys_fold_m {A S} (xs : list A) (body : S -> A -> M E S) (s : S) :
  (forall s x, obeys P Q (body s x)) -> obeys P Q (fold_m xs body s).
Proof.
  intros Hb. revert s. induction xs as [|x xs IH]; intros s; simpl.
  - apply obeys_ret.
  - apply obeys_bind; [apply Hb | intros s'; apply IH].
Qed.

End MonadFacts.

(** Repeated use of the rules above; what is left are the side conditions
    on single events and exceptions. *)
Ltac obeys_step :=
  match goal with
  | |- obeys _ _ (bind _ _) => apply obeys_bind; [|intros ?]
  | |- obeys _ _ (ret _) => apply obeys_ret
  | |- obeys _ _ (emit _) => apply obeys_emit
  | |- obeys _ _ (raise _) => apply obeys_raise
  | |- obeys _ _ (assert_ _) => apply obeys_assert
  | |- obeys _ _ (lift _) => apply obeys_lift
  | |- obeys _ _ (for_each _ _) => apply obeys_for_each; intros ?
  | |- obeys _ _ (fold_m _ _ _) => apply obeys_fold_m; intros ? ?
  | |- obeys _ _ (match ?x with _ => _ end) => destruct x
  | |- obeys _ _ (let '(_, _) := ?x in _) => destruct x
  end.

Lemma bind_ok_inv {E A B} (m : M E A) (k : A -> M E B) tr b tr' :
  bind m k tr = (Ok b, tr') ->
  exists a tr1, m tr = (Ok a, tr1) /\ k a tr1 = (Ok b, tr').
Proof.
  intros H. apply bind_inv in H as [H | (e & _ & He)]; [exact H | discriminate].
Qed.

Tactic Notation "bind_inv" hyp(H) "as" ident(a) ident(tr) ident(H1) :=
  apply bind_ok_inv in H; destruct H as (a & tr & H1 & H).

Ltac bind_inv_in H :=
  let a := fresh "a" in
  let tr := fresh "tr" in
  let H1 := fresh "Hm" in
  apply bind_ok_inv in H; destruct H as (a & tr & H1 & H).

Lemma fold_m_preserves {E A S} (I : S -> Prop) (xs : list A)
    (body : S -> A -> M E S) :
  (forall s x tr s' tr', I s -> body s x tr = (Ok s', tr') -> I s') ->
  forall s tr s' tr',
    I s -> fold_m xs body s tr = (Ok s', tr') -> I s'.
Proof.
  intros Hb. induction xs as [|x xs IH]; intros s tr s' tr' Hs H; simpl in H.
  - inversion H; subst. exact Hs.
  - bind_inv_in H. eapply IH; [|exact H]. eapply Hb; eauto.
Qed.

Lemma obeys_weaken {E A} (P P' : E -> Prop) (Q Q' : exn -> Prop) (m : M E A) :
  (forall e, P e -> P' e) -> (forall e, Q e -> Q' e) ->
  obeys P Q m -> obeys P' Q' m.
Proof.
  intros HP HQ H tr o tr' Hm.
  destruct (H _ _ _ Hm) as [(ev & -> & F) Ho]. split.
  - exists ev. split; [reflexivity|]. eapply Forall_impl; eauto.
  - destruct o; auto.
Qed.

(** Any computation built from the combinators only appends to the trace. *)
Ltac obeys_trivial :=
  repeat obeys_step; try exact I; try (intros; exact I).

Lemma obeys_extends {E A} (m : M E A) tr o tr' :
  obeys (fun _ => True) (fun _ => True) m ->
  m tr = (o, tr') -> exists ev, tr' = tr ++ ev.
Proof. intros Hm H. destruct (Hm _ _ _ H) as [(ev & -> & _) _]. eauto. Qed.

(** ** [reconstruct_pobj] *)

Section RangeFacts.

Lemma range_length a b : length (range a b) = Z.to_nat (b - a).
Proof. unfold range. now rewrite length_map, length_seq. Qed.

Lemma range_lookup n k :
  0 <= k < n -> range 0 n !! Z.to_nat k = Some k.
Proof.
  intros H. unfold range. rewrite list_lookup_fmap.
  rewrite lookup_seq_lt by lia. simpl. f_equal. lia.
Qed.

Lemma range_NoDup a b : NoDup (range a b).
Proof.
  unfold range. apply NoDup_fmap_2.
  - intros x y. lia.
  - apply NoDup_seq.
Qed.

Lemma norm_index_in_range n k : 0 <= k < n -> Np.norm_index n k = Ok k.
Proof.
  intros H. unfold Np.norm_index.
  destruct (Z.leb_spec 0 k); [|lia]. destruct (Z.ltb_spec k n); [|lia].
  reflexivity.
Qed.

Lemma insert_map_keyed (f : Z -> Z) (ks : list Z) i k v :
  NoDup ks -> ks !! i = Some k ->
  <[i := v]> (map f ks) = map (fun r => if k =? r then v else f r) ks.
Proof.
  revert i. induction ks as [|x ks IH]; intros i Hnd Hi; [discriminate|].
  apply list.NoDup_cons in Hnd as [Hx Hnd].
  destruct i as [|i]; simpl in *.
  - injection Hi as ->. rewrite Z.eqb_refl. f_equal.
    apply map_ext_in. intros r Hr.
    destruct (Z.eqb_spec k r) as [->|]; [|reflexivity].
    exfalso. apply Hx. now apply list_elem_of_In.
  - destruct (Z.eqb_spec k x) as [->|].
    + exfalso. apply Hx. eapply list_elem_of_lookup_2; eauto.
    + f_equal. now apply IH.
Qed.

Lemma sum_map_keyed (f : Z -> Z) (ks : list Z) k v :
  NoDup ks -> k ∈ ks ->
  fold_right Z.add 0 (map (fun r => if k =? r then v else f r) ks)
  = fold_right Z.add 0 (map f ks) + (v - f k).
Proof.
  induction ks as [|x ks IH]; intros Hnd Hin; [inversion Hin|].
  apply list.NoDup_cons in Hnd as [Hx Hnd]. simpl.
  destruct (Z.eqb_spec k x) as [->|Hne].
  - assert (map (fun r => if x =? r then v else f r) ks = map f ks) as ->.
    { apply map_ext_in. intros r Hr.
      destruct (Z.eqb_spec x r) as [->|]; [|reflexivity].
      exfalso. apply Hx. now apply list_elem_of_In. }
    lia.
  - apply elem_of_cons in Hin as [->|Hin]; [contradiction|].
    rewrite IH by assumption. lia.
Qed.

Lemma replicate_range n (v : Z) :
  replicate (Z.to_nat n) v = map (fun _ => v) (range 0 n).
Proof.
  unfold range. rewrite Z.sub_0_r, map_map. generalize 0%nat.
  induction (Z.to_nat n) as [|m IH]; intros k; simpl;
    [reflexivity | f_equal; apply IH].
Qed.

End RangeFacts.

Section SortFacts.
Import Dicod Reference.

Lemma Qclt_b_true x y : Qclt_b x y = true <-> (x < y)%Qc.
Proof.
  unfold Qclt_b. destruct (Qclt_le_dec x y) as [H|H]; split; try easy.
  intros H'. exfalso. eapply Qclt_not_le; eauto.
Qed.

Lemma Qclt_b_false x y : Qclt_b x y = false <-> (y <= x)%Qc.
Proof.
  unfold Qclt_b. destruct (Qclt_le_dec x y) as [H|H]; split; try easy.
  intros H'. exfalso. eapply Qclt_not_le; eauto.
Qed.

Lemma Qceq_b_true x y : Qceq_b x y = true <-> x = y.
Proof. unfold Qceq_b. destruct (Qc_eq_dec x y); split; easy. Qed.

Lemma entry_ltb_time e1 e2 : entry_ltb e1 e2 = true -> by_time e1 e2.
Proof.
  unfold entry_ltb, by_time. intros H.
  apply orb_true_iff in H as [H|H].
  - apply Qclt_le_weak. now apply Qclt_b_true.
  - apply andb_true_iff in H as [H _]. apply Qceq_b_true in H. rewrite H.
    apply Qcle_refl.
Qed.

Lemma entry_ltb_false_time e1 e2 : entry_ltb e1 e2 = false -> by_time e2 e1.
Proof.
  unfold entry_ltb, by_time. intros H.
  apply orb_false_iff in H as [H _]. now apply Qclt_b_false.
Qed.

Lemma insert_entry_perm e l : Permutation (e :: l) (insert_entry e l).
Proof.
  induction l as [|x l IH]; simpl; [reflexivity|].
  destruct (entry_ltb x e); [|reflexivity].
  rewrite perm_swap. now constructor.
Qed.

Lemma sort_log_perm l : Permutation l (sort_log l).
Proof.
  induction l as [|e l IH]; simpl; [constructor|].
  rewrite <- insert_entry_perm. now constructor.
Qed.

Lemma insert_entry_sorted e l :
  Sorted by_time l -> Sorted by_time (insert_entry e l).
Proof.
  induction l as [|x l IH]; intros Hs; simpl.
  - repeat constructor.
  - destruct (entry_ltb x e) eqn:Hlt.
    + inversion Hs as [|? ? Hs' Hhd]; subst.
      constructor; [now apply IH|].
      destruct l as [|y l]; simpl.
      * constructor. now apply entry_ltb_time.
      * destruct (entry_ltb y e); constructor.
        -- now inversion Hhd.
        -- now apply entry_ltb_time.
    + constructor; [assumption|]. constructor. now apply entry_ltb_false_time.
Qed.

Lemma sort_log_sorted l : StronglySorted by_time (sort_log l).
Proof.
  apply Sorted_StronglySorted.
  - intros a b c Hab Hbc. unfold by_time in *. eapply Qcle_trans; eauto.
  - induction l as [|e l IH]; simpl; [constructor|].
    now apply insert_entry_sorted.
Qed.

End SortFacts.

Section ReplayFacts.
Import Np NpView Dicod Reference.
Variable cost : ndarray -> ndarray -> ndarray -> Qc -> Qc.
Variables (X D : ndarray) (reg : Qc).

Lemma apply_update_shape z e : shape (apply_update z e) = shape z.
Proof.
  unfold apply_update, iadd_at.
  destruct (norm_prefix (shape z) (k0 e :: pt0 e)); reflexivity.
Qed.

Lemma replayed_shape es : forall z, shape (replayed z es) = shape z.
Proof.
  induction es as [|e es IH]; intros z; [reflexivity|].
  unfold replayed in *. simpl. now rewrite IH, apply_update_shape.
Qed.

Lemma replayed_snoc z es e :
  replayed z (es ++ [e]) = apply_update (replayed z es) e.
Proof. unfold replayed. now rewrite fold_left_app. Qed.

Lemma latest_ii_snoc r es e :
  latest_ii r (es ++ [e]) = if rank e =? r then ii e else latest_ii r es.
Proof. unfold latest_ii. now rewrite fold_left_app. Qed.

Lemma lasts_snoc n es e :
  lasts n (es ++ [e])
  = map (fun r => if rank e =? r then ii e else latest_ii r es) (range 0 n).
Proof.
  unfold lasts. apply map_ext. intros r. apply latest_ii_snoc.
Qed.

Lemma update_count_snoc n es e :
  0 <= rank e < n ->
  update_count n (es ++ [e])
  = update_count n es + (ii e - latest_ii (rank e) es).
Proof.
  intros Hr. unfold update_count.
  rewrite <- (sum_map_keyed (fun r => latest_ii r es)).
  - f_equal. apply map_ext. intros r. apply latest_ii_snoc.
  - apply range_NoDup.
  - eapply list_elem_of_lookup_2. now apply range_lookup.
Qed.

Lemma valid_entry_inv sh n e :
  valid_entry sh n e = true ->
  0 <= rank e < n /\ exists p, norm_prefix sh (k0 e :: pt0 e) = Ok p.
Proof.
  unfold valid_entry. intros H.
  apply andb_true_iff in H as [H Hp]. apply andb_true_iff in H as [H1 H2].
  split; [lia|].
  destruct (norm_prefix sh (k0 e :: pt0 e)); [eauto | discriminate].
Qed.

Lemma list_get_lasts n es k :
  0 <= k < n -> list_get (lasts n es) k = Ok (latest_ii k es).
Proof.
  intros H. unfold list_get, lasts.
  rewrite length_map, range_length, Z.sub_0_r, Z2Nat.id by lia.
  rewrite norm_index_in_range by assumption.
  rewrite list_lookup_fmap, range_lookup by assumption. reflexivity.
Qed.

Lemma list_set_lasts n es e :
  0 <= rank e < n ->
  list_set (lasts n es) (rank e) (ii e) = Ok (lasts n (es ++ [e])).
Proof.
  intros H. unfold list_set.
  unfold lasts at 1. rewrite length_map, range_length, Z.sub_0_r, Z2Nat.id by lia.
  rewrite norm_index_in_range by assumption. f_equal.
  rewrite lasts_snoc. unfold lasts.
  apply insert_map_keyed; [apply range_NoDup | now apply range_lookup].
Qed.

Lemma iadd_at_replayed z es e sh n :
  shape z = sh ->
  valid_entry sh n e = true ->
  iadd_at (replayed z es) (k0 e) (pt0 e) (dz e)
  = Ok (replayed z (es ++ [e])).
Proof.
  intros Hsh Hv. apply valid_entry_inv in Hv as [_ [p Hp]].
  rewrite replayed_snoc. unfold apply_update, iadd_at.
  rewrite replayed_shape, Hsh, Hp. reflexivity.
Qed.

Lemma replay_step_spec z n seen p next t e (tr : list event) :
  valid_entry (shape z) n e = true ->
  replay_step cost X D reg (replay_after z n seen p next t) e tr
  = (Ok (let seen' := seen ++ [e] in
         let c := update_count n seen' in
         if c >=? next
         then replay_after z n seen'
                (p ++ [(c, t_update e, cost X (replayed z seen') D reg)])
                (next * 2) (Some (t_update e))
         else replay_after z n seen' p next (Some (t_update e))),
     tr).
Proof.
  intros Hv. pose proof (valid_entry_inv _ _ _ Hv) as [Hr _].
  unfold replay_step, replay_after, bind, lift, ret. simpl.
  rewrite (iadd_at_replayed z seen e (shape z) n eq_refl Hv).
  rewrite list_get_lasts, list_set_lasts by assumption.
  rewrite <- update_count_snoc by assumption.
  destruct (update_count n (seen ++ [e]) >=? next); reflexivity.
Qed.

Lemma replay_loop_spec z n rest : forall seen p next t (tr : list event),
  Forall (fun e => valid_entry (shape z) n e = true) rest ->
  exists next',
    fold_m rest (replay_step cost X D reg) (replay_after z n seen p next t) tr
    = (Ok (replay_after z n (seen ++ rest)
             (p ++ checkpoints cost X D reg z n seen rest next) next'
             (match rev rest with
              | e :: _ => Some (t_update e)
              | [] => t
              end)),
       tr).
Proof.
  induction rest as [|e rest IH]; intros seen p next t tr Hv.
  - exists next. simpl. unfold ret. now rewrite !app_nil_r.
  - inversion Hv as [|? ? He Hrest]; subst.
    simpl fold_m. unfold bind. rewrite replay_step_spec by assumption.
    cbv zeta. simpl checkpoints.
    assert (Ht : forall t0 : option Qc,
               match rev rest with e0 :: _ => Some (t_update e0)
                                 | [] => Some (t_update e) end
               = match rev (e :: rest) with e0 :: _ => Some (t_update e0)
                                           | [] => t0 end).
    { intros t0. simpl. destruct (rev rest); reflexivity. }
    destruct (update_count n (seen ++ [e]) >=? next).
    + destruct (IH (seen ++ [e])
                  (p ++ [(update_count n (seen ++ [e]), t_update e,
                          cost X (replayed z (seen ++ [e])) D reg)])
                  (next * 2) (Some (t_update e)) tr Hrest) as [next' ->].
      exists next'. rewrite <- !app_assoc. simpl.
      rewrite (Z.mul_comm 2 next), (Ht t). reflexivity.
    + destruct (IH (seen ++ [e]) p next (Some (t_update e)) tr Hrest)
        as [next' ->].
      exists next'. rewrite <- !app_assoc. simpl. rewrite (Ht t). reflexivity.
Qed.

Lemma max_ii_loop_ok n es : forall (l : list Z) (tr : list event),
  Z.of_nat (length l) = n ->
  Forall (fun e => 0 <= rank e < n) es ->
  exists l', fold_m es max_ii_step l tr = (Ok l', tr).
Proof.
  induction es as [|e es IH]; intros l tr Hl Hv.
  - exists l. reflexivity.
  - inversion Hv as [|? ? He Hes]; subst.
    simpl. unfold bind at 1. unfold max_ii_step, bind, lift.
    unfold list_get, list_set.
    rewrite norm_index_in_range by assumption.
    destruct (lookup_lt_is_Some_2 l (Z.to_nat (rank e))) as [x Hx]; [lia|].
    rewrite Hx. apply IH; [|assumption].
    rewrite length_insert. reflexivity.
Qed.


Lemma reconstruct_pobj_spec _log n_jobs valid_shape z0 n_atoms rest z
    (tr : list event) :
  shape D = n_atoms :: rest ->
  initial_z z0 n_atoms valid_shape = Ok z ->
  _log <> [] ->
  Forall (fun e => valid_entry (shape z) n_jobs e = true) _log ->
  reconstruct_pobj cost X D reg _log n_jobs valid_shape z0 tr
  = (Ok (cost_curve cost X D reg z n_jobs _log), tr).
Proof.
  intros HD Hz Hne Hv.
  assert (Hvs : Forall (fun e => valid_entry (shape z) n_jobs e = true)
                       (sort_log _log)).
  { eapply Permutation_Forall; [apply sort_log_perm | exact Hv]. }
  assert (Hns : sort_log _log <> []).
  { intros E. apply Hne. apply Permutation_nil.
    rewrite <- E. symmetry. apply sort_log_perm. }
  assert (Hn : 0 <= n_jobs).
  { destruct (sort_log _log) as [|e s]; [contradiction|].
    inversion Hvs as [|? ? He _]; subst.
    apply valid_entry_inv in He as [He _]. lia. }
  unfold reconstruct_pobj. rewrite HD.
  assert (Hz' : match z0 with
                | Some z1 => ret z1
                | None => lift (alloc (n_atoms :: valid_shape) (fun _ => 0%Qc))
                end tr = (Ok z, tr)).
  { unfold initial_z in Hz. destruct z0; unfold ret, lift; now rewrite Hz. }
  erewrite bind_ok by exact Hz'.
  destruct (max_ii_loop_ok n_jobs (sort_log _log)
              (replicate (Z.to_nat n_jobs) 0) tr) as [l' Hl'].
  { rewrite length_replicate. lia. }
  { eapply Forall_impl; [|exact Hvs]. intros e He.
    now apply valid_entry_inv in He as [He _]. }
  erewrite bind_ok by exact Hl'.
  assert (Hinit : {| r_z_hat := z; r_up_ii := 0; r_p_obj := [];
                     r_next_cost := 1;
                     r_last_ii := replicate (Z.to_nat n_jobs) 0;
                     r_t_update := None |}
                  = replay_after z n_jobs [] [] 1 None).
  { unfold replay_after, replayed, update_count, lasts, latest_ii. simpl.
    f_equal.
    - induction (range 0 n_jobs) as [|i l IH]; simpl; [reflexivity | lia].
    - apply replicate_range. }
  rewrite Hinit.
  destruct (replay_loop_spec z n_jobs (sort_log _log) [] [] 1 None tr Hvs)
    as [next' Hloop].
  erewrite bind_ok by exact Hloop. simpl.
  unfold cost_curve, final_checkpoint.
  destruct (rev (sort_log _log)) as [|e r] eqn:Hrev.
  - exfalso. apply Hns. rewrite <- (rev_involutive (sort_log _log)), Hrev.
    reflexivity.
  - reflexivity.
Qed.

(** Without any logged update the replay loop never binds [t_update]. *)
Lemma reconstruct_pobj_empty_log n_jobs valid_shape z0 n_atoms rest z
    (tr : list event) :
  shape D = n_atoms :: rest ->
  initial_z z0 n_atoms valid_shape = Ok z ->
  reconstruct_pobj cost X D reg [] n_jobs valid_shape z0 tr
  = (Raise UnboundLocalError, tr).
Proof.
  intros HD Hz. unfold reconstruct_pobj. rewrite HD.
  unfold initial_z in Hz. destruct z0; unfold bind, ret, lift; simpl.
  - reflexivity.
  - rewrite Hz. reflexivity.
Qed.

End ReplayFacts.

(** ** [dicod]: fast path and set-up checks *)

Section DicodFacts.
Import Np NpView Dicod Reference.

Variable cd_result : Type.
Variable coordinate_descent :
  ndarray -> ndarray -> Qc -> option ndarray -> auto_or Z -> string ->
  Qc -> Z -> option Z -> bool -> bool -> bool -> bool -> option Z -> Z ->
  cd_result.
Variable cost : ndarray -> ndarray -> ndarray -> Qc -> Qc.
Variable mk_Segmentation : list Z -> list Z -> list Z -> Segmentation.
Variable TAG_ROOT : Z.
Variable TAG_WORKER_RUN_DICOD : Z.
Variable CHECK_WARM_BETA : bool.
Variable GET_OVERLAP_Z_HAT : bool.
Variable uninitialized : list Z -> Qc.

Local Abbreviation dicod :=
  (Dicod.dicod cd_result coordinate_descent cost mk_Segmentation TAG_ROOT
               TAG_WORKER_RUN_DICOD CHECK_WARM_BETA GET_OVERLAP_Z_HAT
               uninitialized).
Local Abbreviation distributed :=
  (Dicod.distributed cd_result cost TAG_ROOT TAG_WORKER_RUN_DICOD
                     CHECK_WARM_BETA GET_OVERLAP_Z_HAT uninitialized).


Lemma check_worker_shape_raises atom_shape worker_valid_shape tr :
  Exists too_small (zip atom_shape worker_valid_shape) ->
  check_worker_shape atom_shape worker_valid_shape tr
  = (Raise too_many_cores, tr).
Proof.
  unfold check_worker_shape.
  induction (zip atom_shape worker_valid_shape) as [|ax l IH]; intros H.
  - inversion H.
  - simpl. unfold bind.
    destruct (2 * fst ax - 1 >=? snd ax) eqn:He; [reflexivity|].
    simpl. apply IH. inversion H; subst; [|assumption].
    unfold too_small in *. lia.
Qed.

Lemma check_worker_shape_passes atom_shape worker_valid_shape tr :
  ~ Exists too_small (zip atom_shape worker_valid_shape) ->
  check_worker_shape atom_shape worker_valid_shape tr = (Ok tt, tr).
Proof.
  unfold check_worker_shape.
  induction (zip atom_shape worker_valid_shape) as [|ax l IH]; intros H.
  - reflexivity.
  - simpl. unfold bind.
    destruct (2 * fst ax - 1 >=? snd ax) eqn:He.
    + exfalso. apply H. left. unfold too_small. lia.
    + simpl. apply IH. intros Hl. apply H. now right.
Qed.


Lemma norm_index_raises n i e : norm_index n i = Raise e -> e = IndexError.
Proof. unfold norm_index. repeat case_match; intros; congruence. Qed.

Lemma norm_prefix_raises sh ix e : norm_prefix sh ix = Raise e -> e = IndexError.
Proof.
  revert sh. induction ix as [|i ix IH]; intros sh H; simpl in H; [congruence|].
  destruct sh as [|n sh]; [congruence|].
  destruct (norm_index n i) eqn:Hn.
  - destruct (norm_prefix sh ix) eqn:Hp; [congruence|].
    injection H as <-. eauto.
  - injection H as <-. eauto using norm_index_raises.
Qed.

Ltac pure_raise :=
  let e := fresh "e" in
  let H := fresh "H" in
  intros e H; unfold not_the_tile_error, too_many_cores;
  repeat match goal with
  | H : norm_index _ _ = Raise _ |- _ => apply norm_index_raises in H; subst
  | H : norm_prefix _ _ = Raise _ |- _ => apply norm_prefix_raises in H; subst
  | H : context [match ?x with _ => _ end] |- _ => destruct x eqn:?
  | H : Raise _ = Raise _ |- _ => injection H as <-
  | H : Ok _ = Raise _ |- _ => discriminate H
  end; try discriminate.

Lemma list_get_raises l i : forall e, list_get l i = Raise e -> not_the_tile_error e.
Proof. unfold list_get. pure_raise. Qed.

Lemma list_set_raises l i v : forall e, list_set l i v = Raise e -> not_the_tile_error e.
Proof. unfold list_set. pure_raise. Qed.

Lemma iadd_at_raises a k pt v : forall e, iadd_at a k pt v = Raise e -> not_the_tile_error e.
Proof. unfold iadd_at. pure_raise. Qed.

Lemma alloc_raises sh f : forall e, alloc sh f = Raise e -> not_the_tile_error e.
Proof. unfold alloc. pure_raise. Qed.

Lemma getview_raises a sl : forall e, getview a sl = Raise e -> not_the_tile_error e.
Proof. unfold getview. pure_raise. Qed.

Lemma setitem_raises a sl b : forall e, setitem a sl b = Raise e -> not_the_tile_error e.
Proof. unfold setitem. pure_raise. Qed.

Lemma iadd_raises a sl b : forall e, iadd a sl b = Raise e -> not_the_tile_error e.
Proof. unfold iadd. pure_raise. Qed.

Lemma count_eq_at_raises a i j v : forall e, count_eq_at a i j v = Raise e -> not_the_tile_error e.
Proof. unfold count_eq_at. pure_raise. Qed.


Create HintDb raises.
Hint Resolve list_get_raises list_set_raises iadd_at_raises alloc_raises
  getview_raises setitem_raises iadd_raises count_eq_at_raises : raises.

Ltac obeys_auto :=
  repeat obeys_step;
  try exact I;
  try (simpl; assumption);
  eauto with raises;
  try (unfold not_the_tile_error, too_many_cores; discriminate).

Lemma _send_task_obeys good comm w X D reg z0 seg params :
  good params ->
  obeys (sent good) not_the_tile_error
        (_send_task TAG_ROOT CHECK_WARM_BETA comm w X D reg z0 seg params).
Proof. intros Hg. unfold _send_task. obeys_auto. Qed.

Lemma _recv_result_obeys good comm w D_shape valid_shape seg return_ztz timing verbose :
  obeys (sent good) not_the_tile_error
        (_recv_result TAG_ROOT GET_OVERLAP_Z_HAT uninitialized comm w D_shape
                      valid_shape seg return_ztz timing verbose).
Proof. unfold _recv_result, reduce_sum. obeys_auto. Qed.

Lemma reconstruct_pobj_obeys good X D reg _log n_jobs valid_shape z0 :
  obeys (sent good) not_the_tile_error
        (reconstruct_pobj cost X D reg _log n_jobs valid_shape z0).
Proof.
  unfold reconstruct_pobj, max_ii_step, replay_step. obeys_auto.
Qed.


Lemma distributed_obeys good X_i D reg a w valid_shape seg params :
  good params ->
  obeys (sent good) not_the_tile_error
    (distributed X_i D reg a w valid_shape seg params).
Proof.
  intros Hg. unfold Dicod.distributed, _spawn_workers.
  repeat first
    [ now apply _send_task_obeys | apply _recv_result_obeys
    | apply reconstruct_pobj_obeys | obeys_step ];
  exact I.
Qed.

(** Claim C1.  With [n_jobs = 1] the call spawns no worker and uses no
    transport (the trace of transport events stays empty) and returns
    exactly what [coordinate_descent] returns on the same [X_i], [D], [reg],
    [z0], [n_seg], [strategy], [tol], [max_iter], [timeout], [z_positive],
    [freeze_support], [return_ztz], [timing], [random_state] (and
    [verbose]). *)
Theorem dicod_single_worker_fast_path X_i D reg a w :
  n_jobs a = 1 ->
  run (dicod X_i D reg a w)
  = (Ok (Local
           (coordinate_descent X_i D reg (z0 a) (n_seg a) (strategy a)
              (tol a) (max_iter a) (timeout a) (z_positive a)
              (freeze_support a) (return_ztz a) (timing a)
              (random_state a) (verbose a))),
     []).
Proof.
  intros H. unfold run, Dicod.dicod. rewrite H. reflexivity.
Qed.

Lemma dicod_setup X_i D reg a w n_channels sig_shape n_atoms n_channels'
    atom_shape topo :
  n_jobs a <> 1 ->
  shape X_i = n_channels :: sig_shape ->
  shape D = n_atoms :: n_channels' :: atom_shape ->
  length atom_shape = length sig_shape ->
  workers_topology (w_world a) (n_jobs a) sig_shape = Ok topo ->
  let valid_shape := zip_with (fun s a => s - a + 1) sig_shape atom_shape in
  let seg := mk_Segmentation topo valid_shape
               (map (fun a => a - 1) atom_shape) in
  dicod X_i D reg a w
  = (check_worker_shape atom_shape (get_seg_shape seg 0 true) >>
     distributed X_i D reg a w valid_shape seg
                 (mk_params a reg valid_shape topo))%coord.
Proof.
  intros Hn HX HD Hlen Htopo. cbv zeta.
  unfold Dicod.dicod.
  destruct (Z.eqb_spec (n_jobs a) 1) as [E|E]; [contradiction|].
  rewrite HX, HD.
  assert (Hnd : (ndim D - 1 =? ndim X_i) = true).
  { unfold ndim. rewrite HX, HD. simpl. apply Z.eqb_eq. lia. }
  rewrite Hnd, Htopo. reflexivity.
Qed.


(** *** The same check in [dicodil] *)

Variable get_lambda_max : ndarray -> ndarray -> Qc.
Variable update_d : ndarray -> ndarray -> Dicodil.Constants -> ndarray.
Variable get_max_error_dict : ndarray -> ndarray -> ndarray -> ndarray.
Variable TAG_WORKER_RUN_DICODIL : Z.
Variable TAG_DICODIL_STOP : Z.
Variable TAG_DICODIL_UPDATE_D : Z.
Variable TAG_DICODIL_UPDATE_Z : Z.
Variable TAG_DICODIL_GET_COST : Z.
Variable TAG_DICODIL_GET_Z_HAT : Z.
Variable TAG_DICODIL_GET_Z_NNZ : Z.
Variable TAG_DICODIL_GET_SUFFICIENT_STAT : Z.
Variable fmt : Qc -> string.
Variable workers : Workers.
Variable cost_reply : list event -> Qc.
Variable z_hat_reply : list event -> ndarray.
Variable stat_reply : list event -> ndarray * ndarray.
Variable z_nnz_reply : list event -> list Z.

Local Abbreviation dicodil :=
  (Dicodil.dicodil get_lambda_max update_d get_max_error_dict mk_Segmentation
     TAG_ROOT TAG_WORKER_RUN_DICODIL TAG_DICODIL_STOP TAG_DICODIL_UPDATE_D
     TAG_DICODIL_UPDATE_Z TAG_DICODIL_GET_COST TAG_DICODIL_GET_Z_HAT
     TAG_DICODIL_GET_Z_NNZ TAG_DICODIL_GET_SUFFICIENT_STAT CHECK_WARM_BETA
     fmt workers cost_reply z_hat_reply stat_reply z_nnz_reply).
Local Abbreviation learn :=
  (Dicodil.learn update_d get_max_error_dict
     TAG_ROOT TAG_WORKER_RUN_DICODIL TAG_DICODIL_STOP TAG_DICODIL_UPDATE_D
     TAG_DICODIL_UPDATE_Z TAG_DICODIL_GET_COST TAG_DICODIL_GET_Z_HAT
     TAG_DICODIL_GET_Z_NNZ TAG_DICODIL_GET_SUFFICIENT_STAT CHECK_WARM_BETA
     fmt workers cost_reply z_hat_reply stat_reply z_nnz_reply).
Local Abbreviation iteration :=
  (Dicodil.iteration update_d get_max_error_dict
     TAG_DICODIL_UPDATE_D TAG_DICODIL_UPDATE_Z TAG_DICODIL_GET_COST
     TAG_DICODIL_GET_Z_HAT TAG_DICODIL_GET_Z_NNZ
     TAG_DICODIL_GET_SUFFICIENT_STAT
     fmt cost_reply z_hat_reply stat_reply z_nnz_reply).

Lemma helper_obeys {A} (P : event -> Prop) name (reply : list event -> A) Q :
  P (Helper name) -> obeys P Q (Dicodil.helper name reply).
Proof.
  intros Hp tr o tr' H. inversion H; subst. split; [|exact I].
  exists [Helper name]. split; [reflexivity | now repeat constructor].
Qed.

Lemma from_end_raises l i :
  forall e, Dicodil.from_end l i = Raise e -> not_the_tile_error e.
Proof. unfold Dicodil.from_end. pure_raise. Qed.

Lemma truediv_raises x y :
  forall e, Dicodil.truediv x y = Raise e -> not_the_tile_error e.
Proof. unfold Dicodil.truediv. pure_raise. Qed.

Hint Resolve from_end_raises truediv_raises : raises.

Lemma check_progress_obeys good eps raise_on_increase pobj :
  obeys (sent good) not_the_tile_error
        (Dicodil.check_progress fmt eps raise_on_increase pobj).
Proof. unfold Dicodil.check_progress. obeys_auto. Qed.

Lemma iteration_obeys good a X comm n_atoms seg st :
  obeys (sent good) not_the_tile_error
        (iteration a X comm n_atoms seg st).
Proof.
  unfold Dicodil.iteration, Dicodil.update_z, Dicodil.compute_cost,
    Dicodil.get_sufficient_statistics, Dicodil.get_z_nnz,
    Dicodil.update_worker_D, Dicodil.get_z_hat.
  repeat first
    [ apply helper_obeys | apply check_progress_obeys | obeys_step ];
  try exact I; eauto with raises.
Qed.

Lemma outer_loop_obeys good n a X comm n_atoms seg st :
  obeys (sent good) not_the_tile_error
    (Dicodil.outer_loop update_d get_max_error_dict
       TAG_DICODIL_UPDATE_D TAG_DICODIL_UPDATE_Z TAG_DICODIL_GET_COST
       TAG_DICODIL_GET_Z_HAT TAG_DICODIL_GET_Z_NNZ
       TAG_DICODIL_GET_SUFFICIENT_STAT
       fmt cost_reply z_hat_reply stat_reply z_nnz_reply
       n a X comm n_atoms seg st).
Proof.
  revert st. induction n as [|n IH]; intros st; simpl.
  - apply obeys_ret.
  - apply obeys_bind; [apply iteration_obeys|].
    intros [st'|st']; [apply IH | apply obeys_ret].
Qed.

Lemma learn_obeys good a X D_hat reg_ params n_atoms valid_shape seg :
  good params ->
  obeys (sent good) not_the_tile_error
        (learn a X D_hat reg_ params n_atoms valid_shape seg).
Proof.
  intros Hg. unfold Dicodil.learn, Dicodil._request_workers, Dicodil.update_z,
    Dicodil.compute_cost, Dicodil.get_z_hat, Dicodil._release_workers.
  repeat first
    [ apply helper_obeys | apply outer_loop_obeys
    | now apply _send_task_obeys | obeys_step ];
  try exact I; eauto with raises;
  try (unfold not_the_tile_error, too_many_cores; discriminate).
Qed.


Lemma dicodil_setup X D_hat a n_channels sig_shape n_atoms n_channels'
    atom_shape topo :
  shape X = n_channels :: sig_shape ->
  shape D_hat = n_atoms :: n_channels' :: atom_shape ->
  length atom_shape = length sig_shape ->
  workers_topology (Dicodil.w_world a) (Dicodil.n_jobs a) sig_shape = Ok topo ->
  let valid_shape := zip_with (fun s a => s - a + 1) sig_shape atom_shape in
  let seg := mk_Segmentation topo valid_shape
               (map (fun a => a - 1) atom_shape) in
  exists reg_ params,
    dicodil X D_hat a
    = (check_worker_shape atom_shape (get_seg_shape seg 0 true) >>
       learn a X D_hat reg_ params n_atoms valid_shape seg)%coord.
Proof.
  intros HX HD Hlen Htopo. cbv zeta.
  do 2 eexists. unfold Dicodil.dicodil.
  rewrite HX, HD.
  assert (Hnd : (ndim D_hat - 1 =? ndim X) = true).
  { unfold ndim. rewrite HX, HD. simpl. apply Z.eqb_eq. lia. }
  rewrite Hnd, Htopo. reflexivity.
Qed.

Lemma spawn_then {A} (k : Comm -> M event A) n_jobs hostfile o tr :
  (forall c, obeys (fun _ => True) (fun _ => True) (k c)) ->
  bind (_spawn_workers TAG_WORKER_RUN_DICOD n_jobs hostfile) k [] = (o, tr) ->
  exists tr', tr = GetReusableWorkers n_jobs hostfile :: tr'.
Proof.
  intros Hk H. unfold _spawn_workers, bind, emit, ret in H. simpl in H.
  destruct (Hk _ _ _ _ H) as [(ev & -> & _) _]. simpl. eauto.
Qed.

(** Claim C3.  Once the grid of workers is known, [dicod] (and [dicodil],
    which repeats the check) looks at the inner tile of worker 0: if on some
    axis [2 * size_atom_ax - 1 >= size_valid_ax], the call ends with
    [ValueError("Using too many cores.")] and an empty trace, so before any
    worker is spawned and before any message is sent; if no axis is that
    small the call never ends with this error, and [dicod] goes on to
    request its workers. *)
Theorem tile_too_small_is_refused_before_spawn
    X_i D (reg : Qc) a w (a' : Dicodil.Args)
    n_channels sig_shape n_atoms n_channels' atom_shape topo topo' :
  shape X_i = n_channels :: sig_shape ->
  shape D = n_atoms :: n_channels' :: atom_shape ->
  length atom_shape = length sig_shape ->
  n_jobs a <> 1 ->
  workers_topology (w_world a) (n_jobs a) sig_shape = Ok topo ->
  workers_topology (Dicodil.w_world a') (Dicodil.n_jobs a') sig_shape
  = Ok topo' ->
  let valid_shape := zip_with (fun s a => s - a + 1) sig_shape atom_shape in
  let overlap := map (fun a => a - 1) atom_shape in
  let tile t := get_seg_shape (mk_Segmentation t valid_shape overlap) 0 true in
  ((Exists too_small (zip atom_shape (tile topo)) ->
    run (dicod X_i D reg a w) = (Raise too_many_cores, [])) /\
   (~ Exists too_small (zip atom_shape (tile topo)) ->
    fst (run (dicod X_i D reg a w)) <> Raise too_many_cores /\
    exists tr, snd (run (dicod X_i D reg a w))
               = GetReusableWorkers (n_jobs a) (hostfile a) :: tr)) /\
  ((Exists too_small (zip atom_shape (tile topo')) ->
    run (dicodil X_i D a') = (Raise too_many_cores, [])) /\
   (~ Exists too_small (zip atom_shape (tile topo')) ->
    fst (run (dicodil X_i D a')) <> Raise too_many_cores)).
Proof.
  intros HX HD Hlen Hn Htopo Htopo' valid_shape overlap tile.
  pose proof (dicod_setup X_i D reg a w _ _ _ _ _ _ Hn HX HD Hlen Htopo) as Hd.
  destruct (dicodil_setup X_i D a' _ _ _ _ _ _ HX HD Hlen Htopo')
    as (reg_ & params & Hl).
  cbv zeta in Hd, Hl. fold valid_shape overlap in Hd, Hl.
  unfold run. rewrite Hd, Hl. clear Hd Hl.
  split; split.
  - intros Hex. apply bind_raise. now apply check_worker_shape_raises.
  - intros Hno.
    erewrite bind_ok by (now apply check_worker_shape_passes).
    destruct (Dicod.distributed _ _ _ _ _ _ _ _ _ _ _ _ _ _ _ []) as [o tr] eqn:Hrun.
    split.
    + destruct (distributed_obeys (fun _ => True) _ _ _ _ _ _ _ _ I _ _ _ Hrun)
        as [_ Ho].
      simpl. destruct o; [discriminate|]. intros [= ->]. now apply Ho.
    + simpl. unfold Dicod.distributed in Hrun.
      eapply spawn_then; [|exact Hrun].
      intros c. eapply obeys_weaken; [| |]; cycle 2.
      * repeat first
          [ now apply (_send_task_obeys (fun _ => True))
          | apply (_recv_result_obeys (fun _ => True))
          | apply (reconstruct_pobj_obeys (fun _ => True)) | obeys_step ];
        exact I.
      * auto.
      * auto.
  - intros Hex. apply bind_raise. now apply check_worker_shape_raises.
  - intros Hno.
    erewrite bind_ok by (now apply check_worker_shape_passes).
    destruct (Dicodil.learn _ _ _ _ _ _ _ _ _ _ _ _ _ _ _ _ _ _ _ _ _ _ _ _ _ _ []) as [o tr] eqn:Hrun.
    destruct (learn_obeys (fun _ => True) _ _ _ _ _ _ _ _ I _ _ _ Hrun)
      as [_ Ho].
    simpl. destruct o; [discriminate|]. intros [= ->]. now apply Ho.
Qed.


(** *** What [dicod] returns *)

Lemma alloc_ok sh fill z :
  alloc sh fill = Ok z -> z = {| shape := sh; at_ := fill |}.
Proof. unfold alloc. destruct (existsb _ sh); congruence. Qed.

Lemma setitem_shape a sl b a' : setitem a sl b = Ok a' -> shape a' = shape a.
Proof.
  unfold setitem. intros Hs. repeat case_match; inversion Hs; reflexivity.
Qed.

Lemma recv_logs w xs : forall (l0 : list LogEntry) (tr : list event),
  fold_m xs (fun _log i_seg =>
               bind (emit (RecvObject i_seg))
                    (fun _ => ret (_log ++ w_log w i_seg))) l0 tr
  = (Ok (l0 ++ concat (map (w_log w) xs)), tr ++ map RecvObject xs).
Proof.
  induction xs as [|x xs IH]; intros l0 tr; simpl.
  - unfold ret. now rewrite !app_nil_r.
  - unfold bind at 1. unfold bind at 1. unfold emit, ret. rewrite IH.
    now rewrite <- !app_assoc.
Qed.

Lemma _recv_result_inv comm w n_atoms n_channels atom_shape valid_shape seg
    return_ztz timing verbose tr z_hat ztz ztX _log tr' :
  _recv_result TAG_ROOT GET_OVERLAP_Z_HAT uninitialized comm w
               (n_atoms :: n_channels :: atom_shape) valid_shape seg
               return_ztz timing verbose tr
  = (Ok (z_hat, ztz, ztX, _log), tr') ->
  shape z_hat = n_atoms :: valid_shape /\
  ztz = (if return_ztz
         then Some (reduced (n_atoms :: n_atoms
                               :: map (fun s => 2 * s - 1) atom_shape)
                            (remote_size comm) (w_ztz w))
         else None) /\
  ztX = (if return_ztz
         then Some (reduced (n_atoms :: n_channels :: atom_shape)
                            (remote_size comm) (w_ztX w))
         else None) /\
  _log = (if timing then gathered_log w seg else []).
Proof.
  unfold _recv_result. intros H.
  bind_inv_in H. bind_inv_in H. bind_inv_in H. bind_inv_in H. bind_inv_in H.
  unfold ret in H. injection H as <- <- <- <- <-.
  assert (Hstat : a1 = (if return_ztz
         then (Some (reduced (n_atoms :: n_atoms
                               :: map (fun s => 2 * s - 1) atom_shape)
                            (remote_size comm) (w_ztz w)),
               Some (reduced (n_atoms :: n_channels :: atom_shape)
                            (remote_size comm) (w_ztX w)))
         else (None, None))).
  { clear Hm2 Hm3. destruct return_ztz.
    - bind_inv_in Hm1. bind_inv_in Hm1. bind_inv_in Hm1. bind_inv_in Hm1.
      unfold ret in Hm1. injection Hm1 as <- _.
      unfold lift in Hm2, Hm4.
      injection Hm2 as Hz _. injection Hm4 as Hx _.
      apply alloc_ok in Hz, Hx. subst.
      unfold reduce_sum, bind, emit, ret in Hm3, Hm5.
      injection Hm3 as <- _. injection Hm5 as <- _. reflexivity.
    - unfold ret in Hm1. now injection Hm1 as <- _. }
  split; [|split; [|split]].
  - unfold lift in Hm. injection Hm as Hm _. apply alloc_ok in Hm.
    eapply (fold_m_preserves (fun z => shape z = n_atoms :: valid_shape));
      [| |exact Hm0].
    + intros s x t s' t' Hs Hb.
      bind_inv_in Hb. bind_inv_in Hb. unfold lift in Hb. injection Hb as Hb _.
      apply setitem_shape in Hb. congruence.
    + subst. reflexivity.
  - rewrite Hstat. now destruct return_ztz.
  - rewrite Hstat. now destruct return_ztz.
  - destruct timing.
    + rewrite recv_logs in Hm2. now injection Hm2 as <- _.
    + unfold ret in Hm2. now injection Hm2 as <- _.
Qed.

Lemma dicod_inv X_i D reg a w tr0 z_hat ztz ztX p_obj tr :
  dicod X_i D reg a w tr0 = (Ok (Distributed z_hat ztz ztX p_obj), tr) ->
  n_jobs a <> 1 /\
  exists n_channels sig_shape n_atoms n_channels' atom_shape topo tr1,
    shape X_i = n_channels :: sig_shape /\
    shape D = n_atoms :: n_channels' :: atom_shape /\
    length atom_shape = length sig_shape /\
    workers_topology (w_world a) (n_jobs a) sig_shape = Ok topo /\
    let valid_shape := zip_with (fun s a => s - a + 1) sig_shape atom_shape in
    let seg := mk_Segmentation topo valid_shape
                 (map (fun a => a - 1) atom_shape) in
    distributed X_i D reg a w valid_shape seg
                (mk_params a reg valid_shape topo) tr1
    = (Ok (Distributed z_hat ztz ztX p_obj), tr).
Proof.
  unfold Dicod.dicod. intros H.
  destruct (Z.eqb_spec (n_jobs a) 1) as [E|E]; [discriminate|].
  split; [exact E|].
  destruct (shape X_i) as [|n_channels sig_shape] eqn:HX; [discriminate|].
  destruct (shape D) as [|n_atoms [|n_channels' atom_shape]] eqn:HD;
    try discriminate.
  bind_inv_in H. bind_inv_in H. bind_inv_in H.
  unfold assert_ in Hm.
  destruct (Z.eqb_spec (ndim D - 1) (ndim X_i)) as [Hnd|]; [|discriminate].
  unfold lift in Hm0. injection Hm0 as Htopo _.
  eexists n_channels, sig_shape, n_atoms, n_channels', atom_shape, _, _.
  repeat split; try eassumption.
  unfold ndim in Hnd. rewrite HX, HD in Hnd. simpl in Hnd. lia.
Qed.

Lemma distributed_inv X_i D reg a w valid_shape seg params tr0
    z_hat ztz ztX p_obj tr :
  distributed X_i D reg a w valid_shape seg params tr0
  = (Ok (Distributed z_hat ztz ztX p_obj), tr) ->
  exists _log tr1 tr2,
    _recv_result TAG_ROOT GET_OVERLAP_Z_HAT uninitialized
                 {| remote_size := n_jobs a |} w (shape D) valid_shape seg
                 (return_ztz a) (timing a) (verbose a) tr1
    = (Ok (z_hat, ztz, ztX, _log), tr2) /\
    if timing a
    then exists c tr3 tr4,
           reconstruct_pobj cost X_i D reg _log (n_jobs a) valid_shape (z0 a)
                            tr3 = (Ok c, tr4) /\ p_obj = Some c
    else p_obj = None.
Proof.
  unfold Dicod.distributed. intros H.
  bind_inv H as comm t1 Hspawn. bind_inv H as u1 t2 Hsend.
  bind_inv H as u2 t3 Hbar. bind_inv H as res t4 Hrecv.
  destruct res as [[[z' ztz'] ztX'] _log].
  bind_inv H as u3 t5 Hbar'. bind_inv H as p t6 Hp.
  unfold ret in H. injection H as <- <- <- <- _.
  unfold _spawn_workers, bind, emit, ret in Hspawn. injection Hspawn as <- _.
  exists _log. do 2 eexists. split; [exact Hrecv|].
  destruct (timing a).
  - bind_inv Hp as c t7 Hc. unfold ret in Hp. injection Hp as <- _. eauto.
  - unfold ret in Hp. now injection Hp as <- _.
Qed.

(** What [dicod] puts in the [params] it broadcasts. *)
Lemma dicod_obeys X_i D reg a w :
  obeys (sent (fun p =>
           p_max_iter p = max_iter a /\
           forall n_channels sig_shape n_atoms n_channels' atom_shape,
             shape X_i = n_channels :: sig_shape ->
             shape D = n_atoms :: n_channels' :: atom_shape ->
             p_valid_shape p
             = zip_with (fun s a => s - a + 1) sig_shape atom_shape))
        (fun _ => True)
        (dicod X_i D reg a w).
Proof.
  unfold Dicod.dicod.
  destruct (n_jobs a =? 1); [apply obeys_ret|].
  destruct (shape X_i) as [|n_channels sig_shape] eqn:HX;
    [now apply obeys_raise|].
  destruct (shape D) as [|n_atoms [|n_channels' atom_shape]] eqn:HD;
    try now apply obeys_raise.
  apply obeys_bind; [now apply obeys_assert | intros _].
  apply obeys_bind; [now apply obeys_lift | intros topo].
  apply obeys_bind.
  - unfold check_worker_shape. apply obeys_for_each. intros ax.
    destruct (2 * ax.1 - 1 >=? ax.2); [now apply obeys_raise | apply obeys_ret].
  - intros _. eapply obeys_weaken; [| |apply distributed_obeys].
    + intros e He. exact He.
    + auto.
    + split; [reflexivity|]. intros ? ? ? ? ? [= _ <-] [= _ _ <-]. reflexivity.
Qed.

(** Claim C7.  Whenever [dicod] returns its tuple (that is, off the
    single-worker fast path), [ztz] and [ztX] are [None] exactly when
    [return_ztz] is false; when it is true, [ztz] has shape
    [(n_atoms, n_atoms, 2*a_1 - 1, ..., 2*a_d - 1)], [ztX] has shape
    [(n_atoms, n_channels, a_1, ..., a_d)], and every entry of either is the
    sum over the [n_jobs] workers of their contributions. *)
Theorem ztz_and_ztX_follow_return_ztz
    X_i D reg a w n_atoms n_channels atom_shape z_hat ztz ztX p_obj tr :
  shape D = n_atoms :: n_channels :: atom_shape ->
  run (dicod X_i D reg a w) = (Ok (Distributed z_hat ztz ztX p_obj), tr) ->
  (ztz = None <-> return_ztz a = false) /\
  (ztX = None <-> return_ztz a = false) /\
  (return_ztz a = true ->
   exists zz zx,
     ztz = Some zz /\ ztX = Some zx /\
     shape zz = n_atoms :: n_atoms :: map (fun s => 2 * s - 1) atom_shape /\
     shape zx = n_atoms :: n_channels :: atom_shape /\
     forall ix,
       at_ zz ix = sum_range (n_jobs a) (fun r => w_ztz w r ix) /\
       at_ zx ix = sum_range (n_jobs a) (fun r => w_ztX w r ix)).
Proof.
  intros HD Hrun. unfold run in Hrun.
  apply dicod_inv in Hrun
    as (_ & nc & sig & na & nc' & atom & topo & tr1 & _ & HD' & _ & _ & Hrun).
  cbv zeta in Hrun.
  apply distributed_inv in Hrun as (_log & t1 & t2 & Hrecv & _).
  rewrite HD in Hrecv.
  apply _recv_result_inv in Hrecv as (_ & -> & -> & _).
  destruct (return_ztz a); simpl.
  - repeat split; try discriminate.
    intros _. do 2 eexists. repeat split.
  - repeat split; try reflexivity. discriminate.
Qed.


End DicodFacts.

(** ** [_find_grid_size] *)

Section GridFacts.
Import Dicod Reference.

Variables n_jobs height width : Z.



Lemma range_In a b i : In i (range a b) <-> a <= i < b.
Proof.
  unfold range. rewrite in_map_iff. split.
  - intros (k & <- & Hk). apply in_seq in Hk. lia.
  - intros H. exists (Z.to_nat (i - a)). split; [lia|]. apply in_seq. lia.
Qed.

End GridFacts.


(** ** [dicodil]: monitoring of the objective *)

Section MonitorFacts.
Import Np Dicod Dicodil.

Variable update_d : ndarray -> ndarray -> Constants -> ndarray.
Variable get_max_error_dict : ndarray -> ndarray -> ndarray -> ndarray.
Variable TAG_DICODIL_UPDATE_D : Z.
Variable TAG_DICODIL_UPDATE_Z : Z.
Variable TAG_DICODIL_GET_COST : Z.
Variable TAG_DICODIL_GET_Z_HAT : Z.
Variable TAG_DICODIL_GET_Z_NNZ : Z.
Variable TAG_DICODIL_GET_SUFFICIENT_STAT : Z.
Variable fmt : Qc -> string.
Variable cost_reply : list event -> Qc.
Variable z_hat_reply : list event -> ndarray.
Variable stat_reply : list event -> ndarray * ndarray.
Variable z_nnz_reply : list event -> list Z.

Local Abbreviation iteration :=
  (Dicodil.iteration update_d get_max_error_dict
     TAG_DICODIL_UPDATE_D TAG_DICODIL_UPDATE_Z TAG_DICODIL_GET_COST
     TAG_DICODIL_GET_Z_HAT TAG_DICODIL_GET_Z_NNZ
     TAG_DICODIL_GET_SUFFICIENT_STAT
     fmt cost_reply z_hat_reply stat_reply z_nnz_reply).
Local Abbreviation outer_loop :=
  (Dicodil.outer_loop update_d get_max_error_dict
     TAG_DICODIL_UPDATE_D TAG_DICODIL_UPDATE_Z TAG_DICODIL_GET_COST
     TAG_DICODIL_GET_Z_HAT TAG_DICODIL_GET_Z_NNZ
     TAG_DICODIL_GET_SUFFICIENT_STAT
     fmt cost_reply z_hat_reply stat_reply z_nnz_reply).






End MonitorFacts.


(** ** The class [DICOD] *)

Section DICODFacts.
Import Np DICOD Reference.

Lemma send_task_broadcasts self pb gathering o tr :
  run (send_task self pb gathering) = (o, tr) ->
  (forall buf, nth_bcast_1d tr 0 = Some buf ->
               buf = ravel (alpha_k (pb_D pb))) /\
  (forall buf, nth_bcast_1d tr 3 = Some buf ->
     exists K d S T,
       shape (pb_D pb) = [K; d; S] /\
       (exists c rest, shape (pb_x pb) = c :: T :: rest) /\
       buf = constants self pb K d S T
               (Z.max 1 (max_iter self / n_jobs self))).
Proof.
  unfold run, send_task. intros H.
  destruct (shape (pb_D pb)) as [|K [|d [|S [|]]]] eqn:HD;
    try (injection H as <- <-; split; intros buf; discriminate).
  destruct (shape (pb_x pb)) as [|c [|T rest]] eqn:Hx;
    try (injection H as <- <-; split; intros buf; discriminate).
  destruct (pb_DD pb) as [DD|];
    [|injection H as <- <-; split; intros buf; discriminate].
  erewrite bind_ok in H by reflexivity.
  erewrite bind_ok in H by reflexivity.
  erewrite bind_ok in H by reflexivity.
  unfold floordiv at 1 in H.
  destruct (Z.eqb_spec (n_jobs self) 0) as [E|E].
  - unfold bind, raise in H. injection H as <- <-.
    split; intros buf; simpl; [now intros [= <-] | discriminate].
  - erewrite bind_ok in H by reflexivity.
    erewrite bind_ok in H by reflexivity.
    apply obeys_extends in H as [ev ->];
      [|unfold floordiv, _confirm_array; obeys_trivial].
    split; intros buf; simpl; intros [= <-]; [reflexivity|].
    exists K, d, S, T. repeat split; eauto.
Qed.

Lemma send_task_code_length self pb gathering tr0 self' tr :
  send_task self pb gathering tr0 = (Ok self', tr) ->
  exists K d S c T rest,
    shape (pb_D pb) = [K; d; S] /\
    shape (pb_x pb) = c :: T :: rest /\
    L self' = Some (T - S + 1).
Proof.
  unfold send_task. intros H.
  destruct (shape (pb_D pb)) as [|K [|d [|S [|]]]] eqn:HD; try discriminate.
  destruct (shape (pb_x pb)) as [|c [|T rest]] eqn:Hx; try discriminate.
  destruct (pb_DD pb) as [DD|]; [|discriminate].
  bind_inv H as u1 t1 H1. bind_inv H as u2 t2 H2. bind_inv H as u3 t3 H3.
  bind_inv H as q t4 H4. bind_inv H as u5 t5 H5. bind_inv H as q' t6 H6.
  bind_inv H as expect t7 H7. bind_inv H as u8 t8 H8. bind_inv H as u9 t9 H9.
  unfold ret in H. injection H as <- _.
  exists K, d, S, c, T, rest. repeat split.
Qed.

End DICODFacts.

(** ** Sums of rationals over ranges *)

Section SumFacts.
Import Reference.

Lemma sum_range_list n f : sum_range n f = sum_list (range 0 n) f.
Proof. reflexivity. Qed.

Lemma sum_list_ext l f g :
  (forall i, f i = g i) -> sum_list l f = sum_list l g.
Proof.
  intros H. induction l as [|i l IH]; simpl; [reflexivity|].
  now rewrite H, IH.
Qed.

Lemma sum_list_add l f g :
  sum_list l (fun i => f i + g i)%Qc = (sum_list l f + sum_list l g)%Qc.
Proof.
  induction l as [|i l IH]; simpl; [ring|]. rewrite IH. ring.
Qed.

Lemma sum_list_zero l : sum_list l (fun _ => 0%Qc) = 0%Qc.
Proof. induction l as [|i l IH]; simpl; [reflexivity|]. rewrite IH. ring. Qed.

Lemma sum_list_div l f c :
  sum_list l (fun i => f i / c)%Qc = (sum_list l f / c)%Qc.
Proof.
  induction l as [|i l IH]; simpl.
  - unfold Qcdiv. ring.
  - rewrite IH. unfold Qcdiv. ring.
Qed.

Lemma sum_list_exchange l1 l2 (f : Z -> Z -> Qc) :
  sum_list l1 (fun i => sum_list l2 (fun j => f i j))
  = sum_list l2 (fun j => sum_list l1 (fun i => f i j)).
Proof.
  induction l1 as [|i l1 IH]; simpl.
  - now rewrite sum_list_zero.
  - rewrite IH. now rewrite <- sum_list_add.
Qed.

End SumFacts.

Section AlphaFacts.
Import Np Reference.

Lemma replace_zero_entry v :
  (v + (if Qceq_b v 0 then 1 else 0))%Qc = unit_if_zero v.
Proof.
  unfold unit_if_zero, Qceq_b. destruct (Qc_eq_dec v 0%Qc) as [->|]; ring.
Qed.

Lemma alpha_k_1d D K C len k :
  shape D = [K; C; len] ->
  at_ (DICOD.alpha_k D) [k] = unit_if_zero (mean_sq_norm_1d D k).
Proof.
  intros HD. unfold DICOD.alpha_k, mean_sq_norm_1d. rewrite HD.
  unfold replace_zeros. cbn [at_]. rewrite replace_zero_entry. f_equal.
  unfold sum, mean, mul. cbn [shape at_]. rewrite HD. cbn.
  rewrite !sum_range_list.
  rewrite sum_list_div. f_equal.
  apply sum_list_exchange.
Qed.

Lemma alpha_k_2d D K C h w k :
  shape D = [K; C; h; w] ->
  at_ (DICOD2D.alpha_k D) [k] = unit_if_zero (mean_sq_norm_2d D k).
Proof.
  intros HD. unfold DICOD2D.alpha_k, mean_sq_norm_2d. rewrite HD.
  unfold replace_zeros. cbn [at_]. rewrite replace_zero_entry. f_equal.
  unfold sum, mean, mul. cbn [shape at_]. rewrite HD.
  change (norm_axis (length [K; C; h; w]) 1) with 1%nat.
  cbn [remove_at take drop app length nth].
  change (norm_axis 3 (-1)) with 2%nat.
  cbn [remove_at take drop app length nth].
  change (norm_axis 2 (-1)) with 1%nat.
  cbn [remove_at take drop app length nth insert_at].
  change sum_range with (fun n f => sum_list (range 0 n) f). cbv beta.
  transitivity
    (sum_list (range 0 h) (fun p =>
       sum_list (range 0 w) (fun q =>
         sum_list (range 0 C) (fun c =>
           at_ D [k; c; p; q] * at_ D [k; c; p; q])) / float C))%Qc.
  { apply sum_list_ext. intros p. apply sum_list_div. }
  rewrite sum_list_div. f_equal.
  transitivity
    (sum_list (range 0 h) (fun p =>
       sum_list (range 0 C) (fun c =>
         sum_list (range 0 w) (fun q =>
           at_ D [k; c; p; q] * at_ D [k; c; p; q]))))%Qc.
  { apply sum_list_ext. intros p. apply sum_list_exchange. }
  apply sum_list_exchange.
Qed.

End AlphaFacts.

(** ** The class [DICOD2D] *)

Section DICOD2DFacts.
Import Np DICOD2D Reference.

Variable compute_DD : Problem -> option ndarray -> ndarray.

Local Abbreviation send_task := (DICOD2D.send_task compute_DD).

Lemma ravel_constants self pb K d h_dic w_dic h_sig w_sig w_world budget :
  ravel (array_of_list
           (constants self pb K d h_dic w_dic h_sig w_sig w_world budget))
  = constants self pb K d h_dic w_dic h_sig w_sig w_world budget.
Proof. reflexivity. Qed.

Lemma send_task_2d_broadcasts self pb DD gathering o tr :
  run (send_task self pb DD gathering) = (o, tr) ->
  (forall buf, nth_bcast_2d tr 0 = Some buf ->
               buf = ravel (alpha_k (pb_D pb))) /\
  (forall buf, nth_bcast_2d tr 3 = Some buf ->
     exists K d h_dic w_dic c h_sig w_sig,
       shape (pb_D pb) = [K; d; h_dic; w_dic] /\
       shape (pb_x pb) = [c; h_sig; w_sig] /\
       buf = constants self pb K d h_dic w_dic h_sig w_sig (w_world self)
               (i_max self / float (n_jobs self))%Qc).
Proof.
  unfold run, DICOD2D.send_task. intros H.
  destruct (shape (pb_D pb)) as [|K [|d [|h_dic [|w_dic [|]]]]] eqn:HD;
    try (injection H as <- <-; split; intros buf; discriminate).
  destruct (shape (pb_x pb)) as [|c [|h_sig [|w_sig [|]]]] eqn:Hx;
    try (injection H as <- <-; split; intros buf; discriminate).
  erewrite bind_ok in H by reflexivity.
  erewrite bind_ok in H by reflexivity.
  erewrite bind_ok in H by reflexivity.
  unfold floordiv at 1, modulo at 1 in H.
  destruct (Z.eqb_spec (w_world self) 0) as [E|E].
  { unfold bind, raise in H. injection H as <- <-.
    split; intros buf; simpl; [now intros [= <-] | discriminate]. }
  erewrite bind_ok in H by reflexivity.
  erewrite bind_ok in H by reflexivity.
  unfold assert_ at 1 in H.
  destruct (n_jobs self mod w_world self =? 0).
  2:{ unfold bind, raise in H. injection H as <- <-.
      split; intros buf; simpl; [now intros [= <-] | discriminate]. }
  erewrite bind_ok in H by reflexivity.
  unfold truediv at 1 in H.
  destruct (Z.eqb_spec (n_jobs self) 0) as [E'|E'].
  { unfold bind, raise in H. injection H as <- <-.
    split; intros buf; simpl; [now intros [= <-] | discriminate]. }
  erewrite bind_ok in H by reflexivity.
  erewrite bind_ok in H by reflexivity.
  apply obeys_extends in H as [ev ->];
    [|unfold floordiv, _confirm_array; obeys_trivial].
  split; intros buf; simpl; intros [= <-]; [reflexivity|].
  exists K, d, h_dic, w_dic, c, h_sig, w_sig. repeat split.
Qed.

Lemma send_task_2d_code_shape self pb DD gathering tr0 self' tr :
  send_task self pb DD gathering tr0 = (Ok self', tr) ->
  exists K d h_dic w_dic c h_sig w_sig,
    shape (pb_D pb) = [K; d; h_dic; w_dic] /\
    shape (pb_x pb) = [c; h_sig; w_sig] /\
    h_cod self' = Some (h_sig - h_dic + 1) /\
    w_cod self' = Some (w_sig - w_dic + 1).
Proof.
  unfold DICOD2D.send_task. intros H.
  destruct (shape (pb_D pb)) as [|K [|d [|h_dic [|w_dic [|]]]]] eqn:HD;
    try discriminate.
  destruct (shape (pb_x pb)) as [|c [|h_sig [|w_sig [|]]]] eqn:Hx;
    try discriminate.
  bind_inv H as u1 t1 H1. bind_inv H as u2 t2 H2. bind_inv H as u3 t3 H3.
  bind_inv H as hw t4 H4. bind_inv H as r t5 H5. bind_inv H as u6 t6 H6.
  bind_inv H as b t7 H7. bind_inv H as u8 t8 H8. bind_inv H as hp t9 H9.
  bind_inv H as q t10 H10. bind_inv H as expect t11 H11.
  bind_inv H as u12 t12 H12. bind_inv H as u13 t13 H13.
  unfold ret in H. injection H as <- _.
  exists K, d, h_dic, w_dic, c, h_sig, w_sig. repeat split.
Qed.

End DICOD2DFacts.

(** ** Shapes, budgets, coefficients and patience *)

Section CoordinatorClaims.
Import Np Reference.

Variable cd_result : Type.
Variable coordinate_descent :
  ndarray -> ndarray -> Qc -> option ndarray -> Dicod.auto_or Z -> string ->
  Qc -> Z -> option Z -> bool -> bool -> bool -> bool -> option Z -> Z ->
  cd_result.
Variable cost : ndarray -> ndarray -> ndarray -> Qc -> Qc.
Variable mk_Segmentation : list Z -> list Z -> list Z -> Dicod.Segmentation.
Variable TAG_ROOT : Z.
Variable TAG_WORKER_RUN_DICOD : Z.
Variable CHECK_WARM_BETA : bool.
Variable GET_OVERLAP_Z_HAT : bool.
Variable uninitialized : list Z -> Qc.
Variable str : Z -> string.
Variable kwargs : Type.
Variable super_init : Z -> kwargs -> DICOD.LassoSolver.
Variable kwargs_2d : Type.
Variable super_init_2d : Z -> kwargs_2d -> DICOD2D.GradientDescent.
Variable compute_DD : DICOD2D.Problem -> option ndarray -> ndarray.

Local Abbreviation dicod :=
  (Dicod.dicod cd_result coordinate_descent cost mk_Segmentation TAG_ROOT
               TAG_WORKER_RUN_DICOD CHECK_WARM_BETA GET_OVERLAP_Z_HAT
               uninitialized).

Lemma dicod_params_sent X_i D reg a w o tr p :
  run (dicod X_i D reg a w) = (o, tr) ->
  In (Dicod.BcastParams p) tr ->
  Dicod.p_max_iter p = Dicod.max_iter a /\
  forall n_channels sig_shape n_atoms n_channels' atom_shape,
    shape X_i = n_channels :: sig_shape ->
    shape D = n_atoms :: n_channels' :: atom_shape ->
    Dicod.p_valid_shape p
    = zip_with (fun s a => s - a + 1) sig_shape atom_shape.
Proof.
  intros Hrun Hin.
  destruct (dicod_obeys cd_result coordinate_descent cost mk_Segmentation
              TAG_ROOT TAG_WORKER_RUN_DICOD CHECK_WARM_BETA GET_OVERLAP_Z_HAT
              uninitialized X_i D reg a w _ _ _ Hrun) as [(ev & -> & F) _].
  simpl in Hin. rewrite Forall_forall in F. exact (F _ Hin).
Qed.

(** Claim C2.  The activation array has spatial shape [V] with
    [V_i = S_i - a_i + 1] on every axis: in [dicod], the array [z_hat] that is
    returned has shape [(n_atoms, *V)] and [V] is the [valid_shape] of every
    [params] sent to the workers; the coordinator of [DICOD] stores the code
    length [L = T - S + 1], that of [DICOD2D] the code shape
    [(h_sig - h_dic + 1, w_sig - w_dic + 1)]. *)
Theorem activation_shape_is_signal_minus_atom_plus_one :
  (forall X_i D reg a w n_channels sig_shape n_atoms n_channels' atom_shape
          z_hat ztz ztX p_obj tr,
     shape X_i = n_channels :: sig_shape ->
     shape D = n_atoms :: n_channels' :: atom_shape ->
     run (dicod X_i D reg a w)
     = (Ok (Dicod.Distributed z_hat ztz ztX p_obj), tr) ->
     exists V,
       shape z_hat = n_atoms :: V /\
       length V = length sig_shape /\
       (forall i S_i a_i,
          sig_shape !! i = Some S_i -> atom_shape !! i = Some a_i ->
          V !! i = Some (S_i - a_i + 1)) /\
       (forall p, In (Dicod.BcastParams p) tr -> Dicod.p_valid_shape p = V)) /\
  (forall self pb gathering self' tr K d S c T rest,
     shape (DICOD.pb_D pb) = [K; d; S] ->
     shape (DICOD.pb_x pb) = c :: T :: rest ->
     run (DICOD.send_task self pb gathering) = (Ok self', tr) ->
     DICOD.L self' = Some (T - S + 1)) /\
  (forall self pb DD gathering self' tr K d h_dic w_dic c h_sig w_sig,
     shape (DICOD2D.pb_D pb) = [K; d; h_dic; w_dic] ->
     shape (DICOD2D.pb_x pb) = [c; h_sig; w_sig] ->
     run (DICOD2D.send_task compute_DD self pb DD gathering) = (Ok self', tr) ->
     DICOD2D.h_cod self' = Some (h_sig - h_dic + 1) /\
     DICOD2D.w_cod self' = Some (w_sig - w_dic + 1)).
Proof.
  split; [|split].
  - intros X_i D reg a w nc sig na nc' atom z_hat ztz ztX p_obj tr HX HD Hrun.
    exists (zip_with (fun s a => s - a + 1) sig atom).
    pose proof Hrun as Hrun'. unfold run in Hrun'.
    apply dicod_inv in Hrun'
      as (_ & nc1 & sig1 & na1 & nc1' & atom1 & topo & tr1 & HX' & HD' & Hlen
          & _ & Hd).
    rewrite HX in HX'. injection HX' as <- <-.
    rewrite HD in HD'. injection HD' as <- <- <-.
    cbv zeta in Hd.
    apply distributed_inv in Hd as (_log & t1 & t2 & Hrecv & _).
    rewrite HD in Hrecv. apply _recv_result_inv in Hrecv as (Hz & _).
    repeat split.
    + exact Hz.
    + rewrite length_zip_with. lia.
    + intros i S_i a_i Hs Ha. rewrite lookup_zip_with, Hs, Ha. reflexivity.
    + intros p Hp.
      destruct (dicod_params_sent _ _ _ _ _ _ _ _ Hrun Hp) as [_ Hv].
      eapply Hv; eassumption.
  - intros self pb g self' tr K d S c T rest HD Hx Hrun.
    apply send_task_code_length in Hrun
      as (K' & d' & S' & c' & T' & rest' & HD' & Hx' & HL).
    rewrite HD in HD'. injection HD' as <- <- <-.
    rewrite Hx in Hx'. injection Hx' as <- <- <-. exact HL.
  - intros self pb DD g self' tr K d h_dic w_dic c h_sig w_sig HD Hx Hrun.
    apply send_task_2d_code_shape in Hrun
      as (K' & d' & h' & w' & c' & hs' & ws' & HD' & Hx' & Hh & Hw).
    rewrite HD in HD'. injection HD' as <- <- <- <-.
    rewrite Hx in Hx'. injection Hx' as <- <- <-. now split.
Qed.

(** Claim C5, as the code has it.  The function [dicod] hands [max_iter] to
    the workers unchanged: every [params] it broadcasts carries the caller's
    value, whatever [n_jobs] is.  The classes share the budget out
    instead: the constants broadcast by [DICOD.send_task] carry
    [max(1, max_iter // n_jobs)], those of [DICOD2D.send_task] carry
    [i_max / n_jobs]. *)
Theorem iteration_budget_sent_to_the_workers :
  (forall X_i D reg a w o tr p,
     run (dicod X_i D reg a w) = (o, tr) ->
     In (Dicod.BcastParams p) tr ->
     Dicod.p_max_iter p = Dicod.max_iter a) /\
  (forall self pb gathering o tr buf,
     run (DICOD.send_task self pb gathering) = (o, tr) ->
     nth_bcast_1d tr 3 = Some buf ->
     nth 7 buf 0%Qc
     = float (Z.max 1 (DICOD.max_iter self / DICOD.n_jobs self))) /\
  (forall self pb DD gathering o tr buf,
     run (DICOD2D.send_task compute_DD self pb DD gathering) = (o, tr) ->
     nth_bcast_2d tr 3 = Some buf ->
     nth 10 buf 0%Qc
     = (DICOD2D.i_max self / float (DICOD2D.n_jobs self))%Qc).
Proof.
  split; [|split].
  - intros X_i D reg a w o tr p Hrun Hp.
    now destruct (dicod_params_sent _ _ _ _ _ _ _ _ Hrun Hp).
  - intros self pb g o tr buf Hrun Hb.
    destruct (send_task_broadcasts _ _ _ _ _ Hrun) as [_ H].
    destruct (H _ Hb) as (K & d & S & T & _ & _ & ->). reflexivity.
  - intros self pb DD g o tr buf Hrun Hb.
    destruct (send_task_2d_broadcasts _ _ _ _ _ _ _ Hrun) as [_ H].
    destruct (H _ Hb) as (K & d & h & w & c & hs & ws & _ & _ & ->).
    reflexivity.
Qed.

(** Claim C6, as the code has it.  The first array that [send_task]
    broadcasts is [alpha_k]; for a dictionary with at least one channel its
    entry [k] is the mean over the channels of the squared norm of atom [k]
    when that mean is not zero, and 1 when it is zero (the effect of
    [alpha_k += (alpha_k == 0)]). *)
Theorem alpha_is_mean_squared_norm_unless_zero :
  (forall D K C len k,
     shape D = [K; C; len] -> 0 < C ->
     at_ (DICOD.alpha_k D) [k] = unit_if_zero (mean_sq_norm_1d D k)) /\
  (forall D K C h w k,
     shape D = [K; C; h; w] -> 0 < C ->
     at_ (DICOD2D.alpha_k D) [k] = unit_if_zero (mean_sq_norm_2d D k)) /\
  (forall self pb gathering o tr buf,
     run (DICOD.send_task self pb gathering) = (o, tr) ->
     nth_bcast_1d tr 0 = Some buf ->
     buf = ravel (DICOD.alpha_k (DICOD.pb_D pb))) /\
  (forall self pb DD gathering o tr buf,
     run (DICOD2D.send_task compute_DD self pb DD gathering) = (o, tr) ->
     nth_bcast_2d tr 0 = Some buf ->
     buf = ravel (DICOD2D.alpha_k (DICOD2D.pb_D pb))).
Proof.
  repeat split.
  - intros D K C len k HD _. eapply alpha_k_1d; eauto.
  - intros D K C h w k HD _. eapply alpha_k_2d; eauto.
  - intros self pb g o tr buf Hrun Hb.
    destruct (send_task_broadcasts _ _ _ _ _ Hrun) as [H _]. now apply H.
  - intros self pb DD g o tr buf Hrun Hb.
    destruct (send_task_2d_broadcasts _ _ _ _ _ _ _ Hrun) as [H _].
    now apply H.
Qed.

(** Claim C10.  The [patience] argument of the two constructors is ignored:
    whatever value is passed, the attribute [patience] of the object is 1000,
    and so is the last entry of the array of constants that [send_task]
    broadcasts to the workers. *)
Theorem patience_argument_is_ignored :
  (forall n_jobs use_seg hostfile logging debug positive algorithm kw
          (v : Z),
     let self := DICOD.__init__ str kwargs super_init n_jobs use_seg
                   hostfile logging debug positive algorithm v kw in
     DICOD.patience self = 1000 /\
     forall pb gathering buf,
       nth_bcast_1d (snd (run (DICOD.send_task self pb gathering))) 3
       = Some buf ->
       nth 13 buf 0%Qc = float 1000) /\
  (forall n_jobs w_world use_seg hostfile logging debug positive algorithm kw
          (v : Z) self tr,
     run (DICOD2D.__init__ str kwargs_2d super_init_2d n_jobs w_world use_seg
            hostfile logging debug positive algorithm v kw) = (Ok self, tr) ->
     DICOD2D.patience self = 1000 /\
     forall pb DD gathering buf,
       nth_bcast_2d
         (snd (run (DICOD2D.send_task compute_DD self pb DD gathering))) 3
       = Some buf ->
       nth 16 buf 0%Qc = float 1000).
Proof.
  split.
  - intros n_jobs use_seg hostfile logging debug positive algorithm kw v self.
    split; [reflexivity|].
    intros pb g buf Hb. unfold run in Hb.
    destruct (DICOD.send_task self pb g []) as [o tr] eqn:Hrun.
    simpl in Hb.
    destruct (send_task_broadcasts _ _ _ _ _ Hrun) as [_ H].
    destruct (H _ Hb) as (K & d & S & T & _ & _ & ->). reflexivity.
  - intros n_jobs w_world use_seg hostfile logging debug positive algorithm kw
      v self tr Hinit.
    assert (Hp : DICOD2D.patience self = 1000).
    { unfold run, DICOD2D.__init__ in Hinit.
      bind_inv Hinit as h t1 Hh. unfold ret in Hinit.
      now injection Hinit as <- _. }
    split; [exact Hp|].
    intros pb DD g buf Hb. unfold run in Hb.
    destruct (DICOD2D.send_task compute_DD self pb DD g []) as [o tr'] eqn:Hrun.
    simpl in Hb.
    destruct (send_task_2d_broadcasts _ _ _ _ _ _ _ Hrun) as [_ H].
    destruct (H _ Hb) as (K & d & h & w & c & hs & ws & _ & _ & ->).
    cbn [nth DICOD2D.constants]. now rewrite Hp.
Qed.

End CoordinatorClaims.

(** ** The statements at work on the small instances *)

Lemma dicod_single_worker_fast_path_witness :
  Dicod.n_jobs (Example.args 1 false false) = 1 /\
  run (Example.dicod (Example.args 1 false false))
  = (Ok (Dicod.Local 100000), []).
Proof.
  split; [reflexivity|].
  apply (dicod_single_worker_fast_path Z Example.coordinate_descent
           Example.cost Example.segmentation 4242 1 false false
           (fun _ => 0%Qc) Example.signal Example.atom 1%Qc
           (Example.args 1 false false) Example.workers).
  reflexivity.
Defined.



Lemma tile_too_small_is_refused_before_spawn_witness :
  run (Example.dicod (Example.args 4 true true))
  = (Raise Dicod.too_many_cores, []) /\
  run (Example.dicodil (Example.learning_args 4))
  = (Raise Dicod.too_many_cores, []) /\
  fst (run (Example.dicod (Example.args 2 true true)))
  <> Raise Dicod.too_many_cores.
Proof.
  pose proof (tile_too_small_is_refused_before_spawn
    Z Example.coordinate_descent Example.cost Example.segmentation 4242 1
    false false (fun _ => 0%Qc) (fun _ _ => 1%Qc) (fun _ D _ => D)
    (fun _ _ D => D) 2 3 4 5 6 7 8 9 Example.fmt Example.workers
    (fun tr => float (Z.of_nat (length tr))) (fun _ => Np.zeros [1; 11])
    (fun _ => (Np.zeros [1; 1; 3], Np.zeros [1; 1; 2])) (fun _ => [1])
    Example.signal Example.atom 1%Qc) as H.
  destruct (H (Example.args 4 true true) Example.workers
              (Example.learning_args 4) 1 [12] 1 1 [2] [4] [4]
              eq_refl eq_refl eq_refl ltac:(discriminate) eq_refl eq_refl)
    as [[Hd _] [Hl _]].
  destruct (H (Example.args 2 true true) Example.workers
              (Example.learning_args 2) 1 [12] 1 1 [2] [2] [2]
              eq_refl eq_refl eq_refl ltac:(discriminate) eq_refl eq_refl)
    as [[_ Hok] _].
  split; [|split].
  - apply Hd. left. unfold Dicod.too_small. vm_compute. discriminate.
  - apply Hl. left. unfold Dicod.too_small. vm_compute. discriminate.
  - apply Hok. intros Hex.
    apply Exists_exists in Hex as (ax & Hin & Hs).
    destruct Hin as [<-|[]]. unfold Dicod.too_small in Hs. vm_compute in Hs.
    now apply Hs.
Defined.

Lemma ztz_and_ztX_follow_return_ztz_witness :
  exists z_hat zz zx p_obj tr,
    run (Example.dicod (Example.args 2 true true))
    = (Ok (Dicod.Distributed z_hat (Some zz) (Some zx) p_obj), tr) /\
    Np.shape zz = [1; 1; 3] /\ Np.shape zx = [1; 1; 2] /\
    Np.at_ zz [0; 0; 1] = sum_range 2 (fun r => float (r + 1)).
Proof.
  eassert (Hrun : run (Example.dicod (Example.args 2 true true))
                  = (Ok (Dicod.Distributed _ (Some _) (Some _) _), _))
    by (lazy; reflexivity).
  do 5 eexists. split; [exact Hrun|].
  destruct (ztz_and_ztX_follow_return_ztz
    Z Example.coordinate_descent Example.cost Example.segmentation 4242 1
    false false (fun _ => 0%Qc) Example.signal Example.atom 1%Qc
    (Example.args 2 true true) Example.workers 1 1 [2] _ _ _ _ _
    eq_refl Hrun) as (_ & _ & H).
  destruct (H eq_refl) as (zz & zx & Hzz & Hzx & Hsz & Hsx & Hat).
  injection Hzz as <-. injection Hzx as <-.
  split; [exact Hsz|]. split; [exact Hsx|]. exact (proj1 (Hat [0; 0; 1])).
Defined.


Lemma activation_shape_is_signal_minus_atom_plus_one_witness :
  (exists z_hat ztz ztX p_obj tr,
     run (Example.dicod (Example.args 2 true true))
     = (Ok (Dicod.Distributed z_hat ztz ztX p_obj), tr) /\
     Np.shape z_hat = [1; 12 - 2 + 1]) /\
  (exists self' tr,
     run (DICOD.send_task (Example.solver 7) Example.problem
            (Example.echo Example.probes)) = (Ok self', tr) /\
     DICOD.L self' = Some (9 - 2 + 1)).
Proof.
  pose proof (activation_shape_is_signal_minus_atom_plus_one
    Z Example.coordinate_descent Example.cost Example.segmentation 4242 1
    false false (fun _ => 0%Qc) Example.compute_DD) as (Hd & H1 & _).
  split.
  - eassert (Hrun : run (Example.dicod (Example.args 2 true true))
                    = (Ok (Dicod.Distributed _ _ _ _), _))
      by (lazy; reflexivity).
    do 5 eexists. split; [exact Hrun|].
    destruct (Hd Example.signal Example.atom 1%Qc (Example.args 2 true true)
                Example.workers 1 [12] 1 1 [2] _ _ _ _ _ eq_refl eq_refl Hrun)
      as (V & Hz & Hlen & Hv & _).
    rewrite Hz. f_equal.
    destruct V as [|v [|]]; try discriminate. f_equal.
    specialize (Hv 0%nat 12 2 eq_refl eq_refl). now injection Hv.
  - eassert (Hrun : run (DICOD.send_task (Example.solver 7) Example.problem
                           (Example.echo Example.probes)) = (Ok _, _))
      by (lazy; reflexivity).
    do 2 eexists. split; [exact Hrun|].
    exact (H1 (Example.solver 7) Example.problem (Example.echo Example.probes)
              _ _ 1 1 2 1 9 [] eq_refl eq_refl Hrun).
Defined.

(** With [max_iter = 1000] and two workers the class [DICOD] sends each
    worker a budget of 500, not 1000. *)
Lemma budget_sent_by_DICOD_counterexample :
  let self := Example.solver 1000 in
  let tr := snd (run (DICOD.send_task self Example.problem
                        (Example.echo Example.probes))) in
  DICOD.max_iter self = 1000 /\ DICOD.n_jobs self = 2 /\
  exists buf,
    Reference.nth_bcast_1d tr 3 = Some buf /\
    nth 7 buf 0%Qc = float 500 /\
    nth 7 buf 0%Qc <> float (DICOD.max_iter self).
Proof.
  cbv zeta. split; [reflexivity|]. split; [reflexivity|].
  eexists. split; [vm_compute; reflexivity|].
  split; [reflexivity|].
  intros H. apply (f_equal this) in H. vm_compute in H. discriminate.
Defined.

Lemma iteration_budget_sent_to_the_workers_witness :
  exists o tr buf,
    run (DICOD.send_task (Example.solver 1000) Example.problem
           (Example.echo Example.probes)) = (o, tr) /\
    Reference.nth_bcast_1d tr 3 = Some buf /\
    nth 7 buf 0%Qc = float (Z.max 1 (1000 / 2)).
Proof.
  pose proof (iteration_budget_sent_to_the_workers
    Z Example.coordinate_descent Example.cost Example.segmentation 4242 1
    false false (fun _ => 0%Qc) Example.compute_DD) as (_ & H1 & _).
  eassert (Hrun : run (DICOD.send_task (Example.solver 1000) Example.problem
                         (Example.echo Example.probes)) = (_, _))
    by (lazy; reflexivity).
  eassert (Hb : Reference.nth_bcast_1d _ 3 = Some _); cycle 1.
  - do 3 eexists. split; [exact Hrun|]. split; [exact Hb|].
    exact (H1 _ _ _ _ _ _ Hrun Hb).
  - lazy. reflexivity.
Defined.

(** A dictionary whose only atom is zero: the mean of its squared norm is
    0, the coefficient [alpha_k] that is broadcast is 1. *)
Lemma alpha_of_a_zero_atom_counterexample :
  let tr := snd (run (DICOD.send_task (Example.solver 1000) Example.problem
                        (Example.echo Example.probes))) in
  Reference.mean_sq_norm_1d Example.zero_atom 0 = 0%Qc /\
  Np.at_ (DICOD.alpha_k Example.zero_atom) [0] = 1%Qc /\
  Reference.nth_bcast_1d tr 0 = Some [1%Qc] /\
  Np.at_ (DICOD.alpha_k Example.zero_atom) [0]
  <> Reference.mean_sq_norm_1d Example.zero_atom 0.
Proof.
  cbv zeta.
  assert (Hm : Reference.mean_sq_norm_1d Example.zero_atom 0 = 0%Qc)
    by (apply Qc_is_canon; reflexivity).
  assert (Ha : Np.at_ (DICOD.alpha_k Example.zero_atom) [0] = 1%Qc)
    by (apply Qc_is_canon; reflexivity).
  split; [exact Hm|]. split; [exact Ha|]. split.
  - vm_compute. reflexivity.
  - rewrite Hm, Ha. discriminate.
Defined.

Lemma alpha_is_mean_squared_norm_unless_zero_witness :
  Np.shape Example.zero_atom = [1; 1; 2] /\ 0 < 1 /\
  Np.at_ (DICOD.alpha_k Example.zero_atom) [0]
  = Reference.unit_if_zero (Reference.mean_sq_norm_1d Example.zero_atom 0).
Proof.
  split; [reflexivity|]. split; [lia|].
  apply (proj1 (alpha_is_mean_squared_norm_unless_zero Example.compute_DD)
           Example.zero_atom 1 1 2 0); [reflexivity | lia].
Defined.

Lemma patience_argument_is_ignored_witness :
  DICOD.patience (Example.solver 7) = 1000 /\
  exists self tr,
    run (Example.solver_2d 7) = (Ok self, tr) /\
    DICOD2D.patience self = 1000.
Proof.
  pose proof (patience_argument_is_ignored Example.str (Z * Z) Example.lasso
                (Qc * Z) Example.gradient Example.compute_DD) as [H1 H2].
  split.
  - exact (proj1 (H1 2 1 None false 0 false DICOD.ALGO_GS (1000, 40) 7)).
  - eassert (Hrun : run (Example.solver_2d 7) = (Ok _, _))
      by (lazy; reflexivity).
    do 2 eexists. split; [exact Hrun|].
    exact (proj1 (H2 2 1 1 None false 0 false DICOD2D.ALGO_GS
                     (float 1000, 40) 7 _ _ Hrun)).
Defined.
(** ** Set-up errors of [dicod] *)

Section SetupFacts.
Import Np NpView Dicod Reference.

Variable cd_result : Type.
Variable coordinate_descent :
  ndarray -> ndarray -> Qc -> option ndarray -> auto_or Z -> string ->
  Qc -> Z -> option Z -> bool -> bool -> bool -> bool -> option Z -> Z ->
  cd_result.
Variable cost : ndarray -> ndarray -> ndarray -> Qc -> Qc.
Variable mk_Segmentation : list Z -> list Z -> list Z -> Segmentation.
Variable TAG_ROOT : Z.
Variable TAG_WORKER_RUN_DICOD : Z.
Variable CHECK_WARM_BETA : bool.
Variable GET_OVERLAP_Z_HAT : bool.
Variable uninitialized : list Z -> Qc.

Local Abbreviation dicod :=
  (Dicod.dicod cd_result coordinate_descent cost mk_Segmentation TAG_ROOT
               TAG_WORKER_RUN_DICOD CHECK_WARM_BETA GET_OVERLAP_Z_HAT
               uninitialized).

Lemma obeys_bind_lift {E A B} (P : E -> Prop) (Q : exn -> Prop)
    (o : outcome A) (k : A -> M E B) :
  (forall a, o = Ok a -> obeys P Q (k a)) ->
  (forall e, o = Raise e -> Q e) ->
  obeys P Q (bind (lift o) k).
Proof.
  intros Hk Hq tr o' tr' H. unfold bind, lift in H. destruct o as [a|e].
  - exact (Hk a eq_refl _ _ _ H).
  - injection H as <- <-. split; [|now apply Hq].
    exists []. split; [now rewrite app_nil_r | constructor].
Qed.

(** The head of [dicod] once the shapes are unpacked and the dimensions
    agree: the grid of workers is resolved next. *)
Lemma dicod_reaches_topology X_i D reg a w n_channels sig_shape n_atoms
    n_channels' atom_shape e :
  n_jobs a <> 1 ->
  shape X_i = n_channels :: sig_shape ->
  shape D = n_atoms :: n_channels' :: atom_shape ->
  length atom_shape = length sig_shape ->
  workers_topology (w_world a) (n_jobs a) sig_shape = Raise e ->
  run (dicod X_i D reg a w) = (Raise e, []).
Proof.
  intros Hn HX HD Hlen Ht. unfold run, Dicod.dicod.
  destruct (Z.eqb_spec (n_jobs a) 1) as [|_]; [contradiction|].
  rewrite HX, HD.
  assert (Hd : (ndim D - 1 =? ndim X_i) = true).
  { apply Z.eqb_eq. unfold ndim. rewrite HX, HD. simpl. lia. }
  rewrite Hd. simpl. unfold bind at 1. simpl.
  unfold bind at 1. unfold lift. now rewrite Ht.
Qed.

(** Off the fast path, [dicod] first unpacks the two shapes and asserts
    [D.ndim - 1 == X_i.ndim]: arrays that are too flat to unpack end in a
    [ValueError], arrays whose numbers of spatial axes differ end in an
    [AssertionError]; neither touches the transport. *)
Theorem dicod_refuses_mismatched_dimensions X_i D reg a w :
  n_jobs a <> 1 ->
  ((shape X_i = [] \/ (length (shape D) < 2)%nat) ->
   exists msg, run (dicod X_i D reg a w) = (Raise (ValueError msg), [])) /\
  (forall n_channels sig_shape n_atoms n_channels' atom_shape,
     shape X_i = n_channels :: sig_shape ->
     shape D = n_atoms :: n_channels' :: atom_shape ->
     length atom_shape <> length sig_shape ->
     run (dicod X_i D reg a w) = (Raise AssertionError, [])).
Proof.
  intros Hn. unfold run, Dicod.dicod.
  destruct (Z.eqb_spec (n_jobs a) 1) as [|_]; [contradiction|].
  split.
  - intros [HX|HD].
    + rewrite HX. eexists. reflexivity.
    + destruct (shape X_i); [eexists; reflexivity|].
      destruct (shape D) as [|? [|? ?]]; simpl in HD; try lia;
        eexists; reflexivity.
  - intros nc sig na nc' atom HX HD Hlen. rewrite HX, HD.
    assert (Hd : (ndim D - 1 =? ndim X_i) = false).
    { apply Z.eqb_neq. unfold ndim. rewrite HX, HD. simpl. lia. }
    rewrite Hd. reflexivity.
Qed.

(** With [w_world] given as a number, the grid of workers is
    [(w_world, n_jobs // w_world)] and [dicod] asserts that [w_world] divides
    [n_jobs]: a [w_world] of zero ends in [ZeroDivisionError], one that does
    not divide [n_jobs] in [AssertionError], both before any transport; and
    every [params] that is ever broadcast carries a grid whose two sides
    multiply to [n_jobs]. *)
Theorem dicod_checks_the_given_grid X_i D reg a w ww n_channels sig_shape
    n_atoms n_channels' atom_shape :
  n_jobs a <> 1 ->
  w_world a = Given ww ->
  shape X_i = n_channels :: sig_shape ->
  shape D = n_atoms :: n_channels' :: atom_shape ->
  length atom_shape = length sig_shape ->
  (ww = 0 -> run (dicod X_i D reg a w) = (Raise ZeroDivisionError, [])) /\
  (ww <> 0 -> n_jobs a mod ww <> 0 ->
   run (dicod X_i D reg a w) = (Raise AssertionError, [])) /\
  (forall p, In (BcastParams p) (snd (run (dicod X_i D reg a w))) ->
     p_workers_topology p = [ww; n_jobs a / ww] /\
     ww * (n_jobs a / ww) = n_jobs a).
Proof.
  intros Hn Hw HX HD Hlen. split; [|split].
  - intros ->. eapply dicod_reaches_topology; eauto.
    rewrite Hw. reflexivity.
  - intros H0 Hmod. eapply dicod_reaches_topology; eauto.
    rewrite Hw. simpl.
    destruct (Z.eqb_spec ww 0); [contradiction|].
    destruct (Z.eqb_spec (n_jobs a mod ww) 0); [contradiction|reflexivity].
  - intros p Hp.
    assert (Hob : obeys (sent (fun p =>
                     p_workers_topology p = [ww; n_jobs a / ww] /\
                     ww * (n_jobs a / ww) = n_jobs a))
                   (fun _ => True) (dicod X_i D reg a w)).
    { unfold Dicod.dicod.
      destruct (n_jobs a =? 1); [apply obeys_ret|].
      rewrite HX, HD.
      apply obeys_bind; [now apply obeys_assert | intros _].
      apply obeys_bind_lift; [|auto].
      intros topo Ht. rewrite Hw in Ht. simpl in Ht.
      destruct (Z.eqb_spec ww 0) as [|H0]; [discriminate|].
      destruct (Z.eqb_spec (n_jobs a mod ww) 0) as [Hmod|]; [|discriminate].
      injection Ht as <-.
      apply obeys_bind.
      - unfold check_worker_shape. apply obeys_for_each. intros ax.
        destruct (2 * ax.1 - 1 >=? ax.2);
          [now apply obeys_raise | apply obeys_ret].
      - intros _. eapply obeys_weaken; [| |apply distributed_obeys].
        + intros e He. exact He.
        + auto.
        + split; [reflexivity|]. simpl.
          symmetry. apply Z.div_exact; assumption. }
    unfold run in Hp.
    destruct (dicod X_i D reg a w []) as [o tr] eqn:Hrun.
    destruct (Hob _ _ _ Hrun) as [(ev & -> & F) _].
    simpl in Hp. rewrite Forall_forall in F. exact (F _ Hp).
Qed.

(** With [w_world='auto'] the grid comes from [_find_grid_size], which knows
    signals with one or two spatial axes only: any other number of axes
    ends in [NotImplementedError], and a 2D signal of height zero in
    [ZeroDivisionError] (the aspect ratio divides by the height); both
    before any transport. *)
Theorem dicod_auto_grid_needs_1d_or_2d_signal X_i D reg a w n_channels
    sig_shape n_atoms n_channels' atom_shape :
  n_jobs a <> 1 ->
  w_world a = Auto ->
  shape X_i = n_channels :: sig_shape ->
  shape D = n_atoms :: n_channels' :: atom_shape ->
  length atom_shape = length sig_shape ->
  (length sig_shape <> 1%nat -> length sig_shape <> 2%nat ->
   _find_grid_size (n_jobs a) sig_shape = Raise NotImplementedError /\
   run (dicod X_i D reg a w) = (Raise NotImplementedError, [])) /\
  (forall width, sig_shape = [0; width] ->
   run (dicod X_i D reg a w) = (Raise ZeroDivisionError, [])).
Proof.
  intros Hn Hw HX HD Hlen. split.
  - intros H1 H2.
    assert (Hg : _find_grid_size (n_jobs a) sig_shape
                 = Raise NotImplementedError).
    { destruct sig_shape as [|? [|? [|? ?]]]; simpl in *;
        try reflexivity; congruence. }
    split; [exact Hg|].
    eapply dicod_reaches_topology; eauto. now rewrite Hw.
  - intros width ->.
    eapply dicod_reaches_topology; eauto. now rewrite Hw.
Qed.

End SetupFacts.

(** ** [_find_grid_size]: which of two equally good grids is returned *)

Section GridTieFacts.
Import Dicod Reference.

Variables n_jobs height width : Z.



End GridTieFacts.



(** ** The set-up statements on concrete calls *)

Lemma dicod_refuses_mismatched_dimensions_witness :
  run (Scenario.dicod Example.image Example.atom (Example.args 2 false false))
  = (Raise AssertionError, []).
Proof.
  apply (proj2 (dicod_refuses_mismatched_dimensions
                  Z Example.coordinate_descent Example.cost
                  Example.segmentation 4242 1 false false (fun _ => 0%Qc)
                  Example.image Example.atom 1%Qc (Example.args 2 false false)
                  Example.workers ltac:(simpl; lia))
               1 [6; 6] 1 1 [2]);
    [reflexivity | reflexivity | simpl; lia].
Defined.

Lemma dicod_checks_the_given_grid_witness :
  run (Scenario.dicod Example.signal Example.atom (Scenario.args_grid 4 3))
  = (Raise AssertionError, []).
Proof.
  apply (proj1 (proj2 (dicod_checks_the_given_grid
                  Z Example.coordinate_descent Example.cost
                  Example.segmentation 4242 1 false false (fun _ => 0%Qc)
                  Example.signal Example.atom 1%Qc (Scenario.args_grid 4 3)
                  Example.workers 3 1 [12] 1 1 [2]
                  ltac:(simpl; lia) eq_refl eq_refl eq_refl eq_refl)));
    [lia | vm_compute; discriminate].
Defined.

Lemma dicod_auto_grid_needs_1d_or_2d_signal_witness :
  run (Scenario.dicod Scenario.volume Scenario.cube
                      (Example.args 2 false false))
  = (Raise NotImplementedError, []).
Proof.
  apply (proj1 (dicod_auto_grid_needs_1d_or_2d_signal
                  Z Example.coordinate_descent Example.cost
                  Example.segmentation 4242 1 false false (fun _ => 0%Qc)
                  Scenario.volume Scenario.cube 1%Qc
                  (Example.args 2 false false)
                  Example.workers 1 [4; 4; 4] 1 1 [2; 2; 2]
                  ltac:(simpl; lia) eq_refl eq_refl eq_refl eq_refl));
    simpl; lia.
Defined.

(** ** [reconstruct_pobj]: logs it cannot replay *)

Section ReplayEdgeFacts.
Import Np NpView Dicod Reference.

Variable cd_result : Type.
Variable coordinate_descent :
  ndarray -> ndarray -> Qc -> option ndarray -> auto_or Z -> string ->
  Qc -> Z -> option Z -> bool -> bool -> bool -> bool -> option Z -> Z ->
  cd_result.
Variable cost : ndarray -> ndarray -> ndarray -> Qc -> Qc.
Variable mk_Segmentation : list Z -> list Z -> list Z -> Segmentation.
Variable TAG_ROOT : Z.
Variable TAG_WORKER_RUN_DICOD : Z.
Variable CHECK_WARM_BETA : bool.
Variable GET_OVERLAP_Z_HAT : bool.
Variable uninitialized : list Z -> Qc.

Local Abbreviation dicod :=
  (Dicod.dicod cd_result coordinate_descent cost mk_Segmentation TAG_ROOT
               TAG_WORKER_RUN_DICOD CHECK_WARM_BETA GET_OVERLAP_Z_HAT
               uninitialized).

Lemma reconstruct_pobj_empty_never_returns X D reg n_jobs valid_shape z0
    (tr : list event) c tr' :
  reconstruct_pobj cost X D reg [] n_jobs valid_shape z0 tr <> (Ok c, tr').
Proof.
  unfold reconstruct_pobj. destruct (shape D) as [|n_atoms rest]; [easy|].
  destruct z0 as [z0|]; unfold bind, ret, lift; simpl; [easy|].
  destruct (alloc (n_atoms :: valid_shape) (fun _ => 0%Qc)); easy.
Qed.

Lemma concat_nil_map {A B} (f : A -> list B) xs :
  (forall x, f x = []) -> concat (map f xs) = [].
Proof.
  intros H. induction xs as [|x xs IH]; simpl; [reflexivity|].
  now rewrite H, IH.
Qed.

(** The replay loop of [reconstruct_pobj] is what binds [t_update], which
    the final checkpoint reads: on an empty log the function ends in
    [UnboundLocalError].  So a call of [dicod] with [timing=True] in which
    no worker logged an update never returns its tuple. *)
Theorem cost_curve_needs_a_logged_update X D reg a w :
  (forall n_jobs valid_shape z0 n_atoms rest z,
     shape D = n_atoms :: rest ->
     initial_z z0 n_atoms valid_shape = Ok z ->
     run (reconstruct_pobj cost X D reg [] n_jobs valid_shape z0)
     = (Raise UnboundLocalError, [])) /\
  (n_jobs a <> 1 -> timing a = true -> (forall r, w_log w r = []) ->
   forall res tr, run (dicod X D reg a w) <> (Ok res, tr)).
Proof.
  split.
  - intros n_jobs valid_shape z0 n_atoms rest z HD Hz.
    eapply reconstruct_pobj_empty_log; eauto.
  - intros Hn Ht Hw res tr Hrun. unfold run in Hrun.
    destruct res as [r|z_hat ztz ztX p_obj].
    + unfold Dicod.dicod in Hrun.
      destruct (Z.eqb_spec (n_jobs a) 1) as [|_]; [contradiction|].
      set (P := fun r : result cd_result =>
                  match r with Local _ => False | _ => True end).
      assert (Hd : forall X_i D reg a w vs seg p t r' t',
                 Dicod.distributed cd_result cost TAG_ROOT TAG_WORKER_RUN_DICOD
                   CHECK_WARM_BETA GET_OVERLAP_Z_HAT uninitialized
                   X_i D reg a w vs seg p t = (Ok r', t') -> P r').
      { clear. intros X_i D reg a w vs seg p t r' t' H.
        unfold Dicod.distributed in H.
        bind_inv_in H. bind_inv_in H. bind_inv_in H. bind_inv_in H.
        destruct a3 as [[[? ?] ?] ?].
        bind_inv_in H. bind_inv_in H. unfold ret in H.
        injection H as <- _. exact I. }
      destruct (shape X) as [|nc sig]; [discriminate|].
      destruct (shape D) as [|na [|nc' atom]]; try discriminate.
      bind_inv_in Hrun. bind_inv_in Hrun. bind_inv_in Hrun.
      exact (Hd _ _ _ _ _ _ _ _ _ _ _ Hrun).
    + apply dicod_inv in Hrun
        as (_ & nc & sig & na & nc' & atom & topo & tr1 & _ & HD & _ & _
            & Hrun).
      cbv zeta in Hrun.
      apply distributed_inv in Hrun as (l & t1 & t2 & Hrecv & Hp).
      rewrite HD in Hrecv.
      apply _recv_result_inv in Hrecv as (_ & _ & _ & Hl).
      rewrite Ht in Hp, Hl.
      destruct Hp as (c & t3 & t4 & Hc & _). subst l.
      unfold gathered_log in Hc. rewrite concat_nil_map in Hc by exact Hw.
      now apply reconstruct_pobj_empty_never_returns in Hc.
Qed.

(** [max_ii_step] keeps the length of the list it updates. *)
Lemma max_ii_step_length l e (tr : list event) l' tr' :
  max_ii_step l e tr = (Ok l', tr') -> length l' = length l /\ tr' = tr.
Proof.
  unfold max_ii_step, bind, lift, list_get, list_set.
  destruct (norm_index _ _) as [i|]; [|discriminate].
  destruct (l !! Z.to_nat i); [|discriminate].
  intros [= <- <-]. now rewrite length_insert.
Qed.

Lemma max_ii_loop_bad_rank es : forall (l : list Z) (tr : list event),
  Exists (fun e => ~ (- Z.of_nat (length l) <= rank e < Z.of_nat (length l)))
         es ->
  fold_m es max_ii_step l tr = (Raise IndexError, tr).
Proof.
  induction es as [|e es IH]; intros l tr Hex; [inversion Hex|].
  simpl. unfold bind at 1.
  destruct (max_ii_step l e tr) as [[l'|x] tr'] eqn:Hstep.
  - apply max_ii_step_length in Hstep as Hlen. destruct Hlen as [Hlen ->].
    apply IH. rewrite Hlen.
    inversion Hex as [? ? Hbad|]; subst; [|assumption].
    exfalso. unfold max_ii_step, bind, lift, list_get in Hstep.
    unfold norm_index in Hstep.
    destruct (Z.leb_spec 0 (rank e)), (Z.ltb_spec (rank e) (Z.of_nat (length l)));
      simpl in Hstep; try lia;
      destruct (Z.leb_spec (- Z.of_nat (length l)) (rank e)),
               (Z.ltb_spec (rank e) 0); simpl in Hstep; try lia;
      discriminate.
  - unfold max_ii_step, bind, lift in Hstep.
    destruct (list_get l (rank e)) as [m|x'] eqn:Hg.
    + unfold list_set in Hstep. unfold list_get in Hg.
      destruct (norm_index _ _); [discriminate|discriminate].
    + injection Hstep as <- <-. unfold list_get in Hg.
      destruct (norm_index _ _) as [i|x''] eqn:Hn.
      * destruct (l !! Z.to_nat i) eqn:Hl; [discriminate|].
        injection Hg as <-. reflexivity.
      * injection Hg as <-. apply norm_index_raises in Hn. now subst.
Qed.

(** [reconstruct_pobj] indexes the list [max_ii] of length [n_jobs] by the
    rank of every record: a record whose rank is not in
    [-n_jobs .. n_jobs - 1] ends the reconstruction in [IndexError]
    (negative ranks down to [-n_jobs] are taken from the end, as Python
    lists do). *)
Theorem cost_curve_rejects_unknown_ranks X D reg _log n_jobs valid_shape z0
    n_atoms rest z :
  shape D = n_atoms :: rest ->
  initial_z z0 n_atoms valid_shape = Ok z ->
  Exists (fun e => ~ (- Z.max 0 n_jobs <= rank e < Z.max 0 n_jobs)) _log ->
  run (reconstruct_pobj cost X D reg _log n_jobs valid_shape z0)
  = (Raise IndexError, []).
Proof.
  intros HD Hz Hex. unfold run, reconstruct_pobj. rewrite HD.
  assert (Hz' : match z0 with
                | Some z1 => ret z1
                | None => lift (alloc (n_atoms :: valid_shape) (fun _ => 0%Qc))
                end ([] : list event) = (Ok z, [])).
  { unfold initial_z in Hz. destruct z0; unfold ret, lift; now rewrite Hz. }
  erewrite bind_ok by exact Hz'.
  apply bind_raise. apply max_ii_loop_bad_rank.
  rewrite length_replicate.
  replace (Z.of_nat (Z.to_nat n_jobs)) with (Z.max 0 n_jobs) by lia.
  apply Exists_exists in Hex as (e & He & Hbad).
  apply Exists_exists. exists e. split; [|exact Hbad].
  eapply Permutation_in; [apply sort_log_perm | exact He].
Qed.

End ReplayEdgeFacts.

(** ** [reconstruct_pobj]: the shape of the curve *)

Section CurveFacts.
Import Np NpView Dicod Reference.
Variable cost : ndarray -> ndarray -> ndarray -> Qc -> Qc.
Variables (X D : ndarray) (reg : Qc).

(** The update count and the timestamp of a row of the curve. *)
Local Abbreviation count_of := (fun row : Z * Qc * Qc => fst (fst row)).
Local Abbreviation time_of := (fun row : Z * Qc * Qc => snd (fst row)).

Lemma checkpoints_length z n rest : forall seen next,
  (length (checkpoints cost X D reg z n seen rest next) <= length rest)%nat.
Proof.
  induction rest as [|e rest IH]; intros seen next; simpl; [lia|].
  destruct (_ >=? _); simpl; specialize (IH (seen ++ [e])).
  - specialize (IH (2 * next)). lia.
  - specialize (IH next). lia.
Qed.

Lemma checkpoints_counts z n rest : forall seen next k row,
  0 < next ->
  checkpoints cost X D reg z n seen rest next !! k = Some row ->
  next * 2 ^ Z.of_nat k <= count_of row.
Proof.
  induction rest as [|e rest IH]; intros seen next k row Hn Hk; simpl in Hk;
    [discriminate|].
  destruct (Z.geb_spec (update_count n (seen ++ [e])) next) as [Hge|Hlt].
  - destruct k as [|k]; simpl in Hk.
    + injection Hk as <-. simpl. lia.
    + apply IH in Hk; [|lia].
      rewrite Nat2Z.inj_succ, Z.pow_succ_r by lia. lia.
  - eapply IH; eassumption.
Qed.

Lemma checkpoints_times z n rest : forall seen next,
  map time_of (checkpoints cost X D reg z n seen rest next)
  `sublist_of` map t_update rest.
Proof.
  induction rest as [|e rest IH]; intros seen next; simpl; [constructor|].
  destruct (_ >=? _); simpl.
  - apply sublist_skip, IH.
  - apply sublist_cons, IH.
Qed.

Lemma StronglySorted_sublist {A} (R : A -> A -> Prop) l1 l2 :
  l1 `sublist_of` l2 -> StronglySorted R l2 -> StronglySorted R l1.
Proof.
  induction 1 as [|x l1 l2 Hs IH|x l1 l2 Hs IH]; intros H2.
  - constructor.
  - apply StronglySorted_inv in H2 as [H2 Hx]. constructor; [auto|].
    rewrite Forall_forall in Hx |- *. intros y Hy. apply Hx.
    apply list_elem_of_In. eapply sublist_subseteq; [exact Hs|].
    now apply list_elem_of_In.
  - apply StronglySorted_inv in H2 as [H2 _]. auto.
Qed.

Lemma StronglySorted_map {A B} (f : A -> B) (R : B -> B -> Prop) l :
  StronglySorted (fun x y => R (f x) (f y)) l -> StronglySorted R (map f l).
Proof.
  induction 1 as [|x l Hs IH Hx]; simpl; constructor; [assumption|].
  now apply Forall_map.
Qed.

Lemma StronglySorted_snoc {A} (R : A -> A -> Prop) l x :
  StronglySorted R l -> Forall (fun y => R y x) l ->
  StronglySorted R (l ++ [x]).
Proof.
  induction 1 as [|y l Hs IH Hy]; intros Hx; simpl.
  - repeat constructor.
  - inversion Hx; subst. constructor; [auto|].
    apply Forall_app. split; [assumption | now repeat constructor].
Qed.

Lemma StronglySorted_below_last {A} (R : A -> A -> Prop) l x :
  (forall a, R a a) ->
  StronglySorted R (l ++ [x]) -> Forall (fun y => R y x) (l ++ [x]).
Proof.
  intros Hrefl. induction l as [|y l IH]; simpl; intros Hs.
  - repeat constructor. apply Hrefl.
  - apply StronglySorted_inv in Hs as [Hs Hy]. constructor; [|auto].
    rewrite Forall_forall in Hy. apply Hy. apply in_or_app. right. now left.
Qed.

(** The curve of a log that can be replayed. *)
Lemma curve_of_valid_log _log n_jobs valid_shape z0 n_atoms rest z :
  shape D = n_atoms :: rest ->
  initial_z z0 n_atoms valid_shape = Ok z ->
  _log <> [] ->
  Forall (fun e => valid_entry (shape z) n_jobs e = true) _log ->
  exists s e_last,
    sort_log _log = s ++ [e_last] /\
    run (reconstruct_pobj cost X D reg _log n_jobs valid_shape z0)
    = (Ok (checkpoints cost X D reg z n_jobs [] (s ++ [e_last]) 1
           ++ [(update_count n_jobs (s ++ [e_last]), t_update e_last,
                cost X (replayed z (s ++ [e_last])) D reg)]),
       []).
Proof.
  intros HD Hz Hne Hv.
  assert (Hns : sort_log _log <> []).
  { intros E. apply Hne. apply Permutation_nil.
    rewrite <- E. symmetry. apply sort_log_perm. }
  destruct (rev (sort_log _log)) as [|e r] eqn:Hrev.
  { exfalso. apply Hns. rewrite <- (rev_involutive (sort_log _log)), Hrev.
    reflexivity. }
  assert (Hs : sort_log _log = rev r ++ [e]).
  { rewrite <- (rev_involutive (sort_log _log)), Hrev. reflexivity. }
  exists (rev r), e. split; [exact Hs|].
  unfold run. erewrite reconstruct_pobj_spec by eassumption.
  unfold cost_curve, final_checkpoint. rewrite Hrev, Hs. reflexivity.
Qed.

(** On a log that names workers and entries of [z], [reconstruct_pobj]
    returns a curve of at least one and at most [len(_log) + 1] rows, and
    since [next_cost] doubles after every checkpoint, the update count of
    row [k] (every row but the final one) is at least [2 ** k]: the
    checkpoints are spaced geometrically. *)
Theorem cost_curve_checkpoints_double _log n_jobs valid_shape z0 n_atoms
    rest z :
  shape D = n_atoms :: rest ->
  initial_z z0 n_atoms valid_shape = Ok z ->
  _log <> [] ->
  Forall (fun e => valid_entry (shape z) n_jobs e = true) _log ->
  exists c,
    run (reconstruct_pobj cost X D reg _log n_jobs valid_shape z0)
    = (Ok c, []) /\
    (1 <= length c <= length _log + 1)%nat /\
    forall k row, c !! k = Some row -> (S k < length c)%nat ->
      2 ^ Z.of_nat k <= count_of row.
Proof.
  intros HD Hz Hne Hv.
  destruct (curve_of_valid_log _ _ _ _ _ _ _ HD Hz Hne Hv)
    as (s & e & Hs & ->).
  eexists. split; [reflexivity|].
  pose proof (checkpoints_length z n_jobs (s ++ [e]) [] 1) as Hlen.
  rewrite <- Hs in Hlen at 2.
  rewrite <- (Permutation_length (sort_log_perm _log)) in Hlen.
  rewrite length_app. simpl. split; [lia|].
  intros k row Hk Hlt.
  apply lookup_app_Some in Hk as [Hk|[Hge _]]; [|lia].
  apply checkpoints_counts in Hk; lia.
Qed.

(** The rows of the curve come in the order of their timestamps, and the
    timestamp of the final row is the latest of the whole log: the curve
    can be plotted against time as it is. *)
Theorem cost_curve_is_ordered_in_time _log n_jobs valid_shape z0 n_atoms
    rest z :
  shape D = n_atoms :: rest ->
  initial_z z0 n_atoms valid_shape = Ok z ->
  _log <> [] ->
  Forall (fun e => valid_entry (shape z) n_jobs e = true) _log ->
  exists c row,
    run (reconstruct_pobj cost X D reg _log n_jobs valid_shape z0)
    = (Ok c, []) /\
    StronglySorted (fun r1 r2 => (time_of r1 <= time_of r2)%Qc) c /\
    list.last c = Some row /\
    forall e, In e _log -> (t_update e <= time_of row)%Qc.
Proof.
  intros HD Hz Hne Hv.
  destruct (curve_of_valid_log _ _ _ _ _ _ _ HD Hz Hne Hv)
    as (s & e & Hs & ->).
  pose proof (sort_log_sorted _log) as Hsorted. rewrite Hs in Hsorted.
  pose proof (StronglySorted_below_last by_time s e
                (fun a => Qcle_refl _) Hsorted) as Hbelow.
  do 2 eexists. split; [reflexivity|]. split; [|split].
  - apply StronglySorted_snoc.
    + set (cs := checkpoints _ _ _ _ _ _ _ _ _).
      assert (Hmap : StronglySorted Qcle (map time_of cs)).
      { eapply StronglySorted_sublist; [apply checkpoints_times|].
        now apply StronglySorted_map. }
      clearbody cs. induction cs as [|c cs IH]; [constructor|].
      simpl in Hmap. apply StronglySorted_inv in Hmap as [Hmap Hc].
      constructor; [auto|].
      rewrite Forall_forall in Hc |- *. intros r Hr. apply Hc.
      exact (in_map time_of cs r Hr).
    + apply Forall_forall. intros row Hrow. simpl.
      pose proof (checkpoints_times z n_jobs (s ++ [e]) [] 1) as Hsub.
      apply sublist_subseteq in Hsub.
      assert (Hin : time_of row ∈ map t_update (s ++ [e])).
      { apply Hsub. apply list_elem_of_In.
        exact (in_map time_of _ row Hrow). }
      apply list_elem_of_In, in_map_iff in Hin as (e' & <- & He').
      rewrite Forall_forall in Hbelow. now apply Hbelow.
  - apply last_snoc.
  - intros e' He'. simpl.
    rewrite Forall_forall in Hbelow. apply Hbelow.
    rewrite <- Hs. eapply Permutation_in; [apply sort_log_perm | exact He'].
Qed.

End CurveFacts.

Lemma cost_curve_needs_a_logged_update_witness :
  run (Dicod.reconstruct_pobj Example.cost Example.signal Example.atom 1%Qc
         [] 2 [11] None)
  = (Raise UnboundLocalError, []) /\
  forall res tr,
    run (Dicod.dicod Z Example.coordinate_descent Example.cost
           Example.segmentation 4242 1 false false (fun _ => 0%Qc)
           Example.signal Example.atom 1%Qc (Example.args 2 false true)
           Scenario.silent_workers)
    <> (Ok res, tr).
Proof.
  destruct (cost_curve_needs_a_logged_update
              Z Example.coordinate_descent Example.cost Example.segmentation
              4242 1 false false (fun _ => 0%Qc)
              Example.signal Example.atom 1%Qc (Example.args 2 false true)
              Scenario.silent_workers) as [H1 H2].
  split.
  - apply (H1 2 [11] None 1 [1; 2] (Np.zeros [1; 11])); reflexivity.
  - apply H2; [simpl; lia | reflexivity | reflexivity].
Defined.

Lemma cost_curve_rejects_unknown_ranks_witness :
  run (Dicod.reconstruct_pobj Example.cost Example.signal Example.atom 1%Qc
         (Scenario.two_updates ++ [Scenario.stray_update]) 2 [11] None)
  = (Raise IndexError, []).
Proof.
  apply (cost_curve_rejects_unknown_ranks Example.cost Example.signal
           Example.atom 1%Qc (Scenario.two_updates ++ [Scenario.stray_update])
           2 [11] None 1 [1; 2] (Np.zeros [1; 11]));
    [reflexivity | reflexivity |].
  apply Exists_cons_tl, Exists_cons_tl, Exists_cons_hd. simpl. lia.
Defined.

Lemma cost_curve_checkpoints_double_witness :
  exists c,
    run (Dicod.reconstruct_pobj Example.cost Example.signal Example.atom 1%Qc
           Scenario.two_updates 2 [11] None)
    = (Ok c, []) /\
    (1 <= length c <= length Scenario.two_updates + 1)%nat /\
    forall k row, c !! k = Some row -> (S k < length c)%nat ->
      2 ^ Z.of_nat k <= fst (fst row).
Proof.
  apply (cost_curve_checkpoints_double Example.cost Example.signal
           Example.atom 1%Qc Scenario.two_updates 2 [11] None 1 [1; 2]
           (Np.zeros [1; 11]));
    [reflexivity | reflexivity | discriminate |].
  repeat constructor.
Defined.

Lemma cost_curve_is_ordered_in_time_witness :
  exists c row,
    run (Dicod.reconstruct_pobj Example.cost Example.signal Example.atom 1%Qc
           Scenario.two_updates 2 [11] None)
    = (Ok c, []) /\
    StronglySorted (fun r1 r2 => (snd (fst r1) <= snd (fst r2))%Qc) c /\
    list.last c = Some row /\
    forall e, In e Scenario.two_updates ->
      (Dicod.t_update e <= snd (fst row))%Qc.
Proof.
  apply (cost_curve_is_ordered_in_time Example.cost Example.signal
           Example.atom 1%Qc Scenario.two_updates 2 [11] None 1 [1; 2]
           (Np.zeros [1; 11]));
    [reflexivity | reflexivity | discriminate |].
  repeat constructor.
Defined.

(** ** [_send_task] and [_recv_result]: what goes over the wire *)

Section WireFacts.
Import Np NpView Dicod Wire.

Variable TAG_ROOT : Z.
Variable GET_OVERLAP_Z_HAT : bool.
Variable uninitialized : list Z -> Qc.

Lemma getview_ok a sl :
  (length sl <= length (shape a))%nat -> getview a sl = Ok (slice_trailing a sl).
Proof.
  intros H. unfold getview.
  destruct (Nat.ltb_spec (length (shape a)) (length sl)); [lia|reflexivity].
Qed.

Lemma send_loop X z0 seg params atom_shape (A : Type) (s : A) xs :
  forall tr : list event,
  p_debug params = false ->
  Forall (servable X z0 seg params atom_shape) xs ->
  fold_m xs
    (fun X_alpha i_seg =>
       bind (if p_has_z0 params then
               match z0 with
               | None => raise TypeError
               | Some z0 =>
                   bind (lift (getview z0 (get_seg_slice seg i_seg false)))
                        (fun tile => emit (SendDouble (ravel tile) i_seg
                                                      (TAG_ROOT + i_seg)))
               end
             else ret tt)
         (fun _ =>
            bind (lift (getview X
                          (zip_with (fun b size_atom_ax =>
                                       (fst b, snd b + size_atom_ax - 1))
                                    (get_seg_bounds seg i_seg) atom_shape)))
              (fun tile =>
                 bind (emit (SendDouble (ravel tile) i_seg (TAG_ROOT + i_seg)))
                   (fun _ => ret X_alpha))))
    s tr
  = (Ok s, tr ++ concat (map (task_messages TAG_ROOT X z0 seg params
                                            atom_shape) xs)).
Proof.
  induction xs as [|i xs IH]; intros tr Hd Hs; simpl.
  - unfold ret. now rewrite app_nil_r.
  - inversion Hs as [|? ? [Hz HX] Hs']; subst.
    unfold task_messages at 1. fold (X_worker_slice seg atom_shape i).
    unfold bind at 1. unfold bind at 1.
    destruct (p_has_z0 params).
    + destruct (Hz eq_refl) as (z & -> & Hlen).
      unfold bind at 1. unfold lift at 1. rewrite getview_ok by assumption.
      unfold emit at 1. unfold bind at 1. unfold lift at 1.
      rewrite getview_ok by assumption.
      unfold bind at 1. unfold emit at 1. unfold ret at 1.
      rewrite IH by assumption. rewrite <- ?app_assoc. reflexivity.
    + unfold ret at 1. unfold bind at 1. unfold lift at 1.
      rewrite getview_ok by assumption.
      unfold bind at 1. unfold emit at 1. unfold ret at 1.
      rewrite IH by assumption. rewrite <- ?app_assoc. reflexivity.
Qed.

(** With the debugging exchange and the warm-start check switched off,
    [_send_task] broadcasts [params], then [D], then serves the workers in
    the order of their ranks: worker [i] gets its tile of [z0] (when
    [has_z0]) and its tile of [X], both under the tag [TAG_ROOT + i]; a
    barrier closes the exchange.  Nothing is received. *)
Theorem send_task_wire_format comm w X D reg z0 seg params n_atoms
    n_channels atom_shape :
  shape D = n_atoms :: n_channels :: atom_shape ->
  p_debug params = false ->
  Forall (servable X z0 seg params atom_shape)
         (range 0 (effective_n_seg seg)) ->
  run (_send_task TAG_ROOT false comm w X D reg z0 seg params)
  = (Ok tt,
     [BcastParams params; BroadcastArray D]
     ++ concat (map (task_messages TAG_ROOT X z0 seg params atom_shape)
                    (range 0 (effective_n_seg seg)))
     ++ [Barrier]).
Proof.
  intros HD Hdbg Hs. unfold run, _send_task. rewrite HD, Hdbg.
  unfold bind at 1. unfold emit at 1. unfold bind at 1. unfold emit at 1.
  erewrite bind_ok
    by (exact (send_loop X z0 seg params atom_shape _ _ _ _ Hdbg Hs)).
  reflexivity.
Qed.

Lemma range_lookup_inv a b k x :
  range a b !! k = Some x -> x = a + Z.of_nat k.
Proof.
  unfold range. rewrite list_lookup_fmap. intros H.
  destruct (seq 0 (Z.to_nat (b - a)) !! k) as [y|] eqn:Hy; [|discriminate].
  apply lookup_seq in Hy as [-> _]. simpl in H. injection H as <-. lia.
Qed.

(** [range] lists its numbers in increasing order. *)
Lemma range_later a b xs1 i xs2 j :
  range a b = xs1 ++ i :: xs2 -> In j xs2 -> i < j.
Proof.
  intros E Hj.
  apply list_elem_of_In, list_elem_of_lookup in Hj as [k Hk].
  assert (Hi : range a b !! length xs1 = Some i).
  { rewrite E. now rewrite list_lookup_middle. }
  assert (Hj : range a b !! (length xs1 + S k)%nat = Some j).
  { rewrite E. rewrite lookup_app_r by lia.
    replace (length xs1 + S k - length xs1)%nat with (S k) by lia.
    exact Hk. }
  apply range_lookup_inv in Hi, Hj. lia.
Qed.

Lemma setitem_ok a sl b a' :
  setitem a sl b = Ok a' ->
  a' = {| shape := shape a;
          at_ := fun ix =>
                   if inside (trailing_bounds (shape a) sl) ix
                   then at_ b (relative (trailing_bounds (shape a) sl) ix)
                   else at_ a ix |}.
Proof.
  unfold setitem. intros H. repeat case_match; inversion H; reflexivity.
Qed.

Local Abbreviation recv_body w n_atoms seg inner :=
  (fun z_hat i_seg =>
     bind (lift (alloc (n_atoms :: get_seg_shape seg i_seg inner)
                       (fun _ => 0%Qc)))
       (fun z_worker =>
          bind (emit (RecvDouble (prod (shape z_worker)) i_seg
                                 (Some (TAG_ROOT + i_seg))))
            (fun _ =>
               lift (setitem z_hat (get_seg_slice seg i_seg inner)
                       {| shape := shape z_worker;
                          at_ := w_z_hat w i_seg |})))).

Lemma recv_loop w n_atoms seg inner xs : forall z (tr : list event) z' tr',
  fold_m xs (recv_body w n_atoms seg inner) z tr = (Ok z', tr') ->
  tr' = tr ++ map (fun i_seg =>
                     RecvDouble (n_atoms * prod (get_seg_shape seg i_seg inner))
                                i_seg (Some (TAG_ROOT + i_seg))) xs /\
  shape z' = shape z /\
  (forall ix,
     (forall i, In i xs -> inside (tile seg inner (shape z) i) ix = false) ->
     at_ z' ix = at_ z ix) /\
  (forall xs1 i xs2 ix,
     xs = xs1 ++ i :: xs2 ->
     inside (tile seg inner (shape z) i) ix = true ->
     (forall j, In j xs2 -> inside (tile seg inner (shape z) j) ix = false) ->
     at_ z' ix = w_z_hat w i (relative (tile seg inner (shape z) i) ix)).
Proof.
  induction xs as [|x xs IH]; intros z tr z' tr' H; simpl in H.
  - unfold ret in H. injection H as <- <-. rewrite app_nil_r.
    repeat split; try reflexivity.
    intros [|? ?] ? ? ? E; discriminate E.
  - bind_inv H as z1 tr1 Hstep.
    bind_inv Hstep as zw t1 Hzw. bind_inv Hstep as u t2 Hemit.
    unfold lift in Hzw, Hstep. injection Hzw as Hzw <-.
    apply alloc_ok in Hzw. subst zw. simpl in Hemit, Hstep.
    unfold emit in Hemit. injection Hemit as _ <-.
    injection Hstep as Hset <-. apply setitem_ok in Hset.
    apply IH in H as (-> & Hsh & Hout & Hin).
    assert (Hsh1 : shape z1 = shape z) by (subst z1; reflexivity).
    rewrite Hsh1 in Hsh, Hout, Hin.
    fold (tile seg inner (shape z) x) in Hset.
    split; [rewrite <- ?app_assoc; reflexivity|]. split; [exact Hsh|]. split.
    + intros ix Hno. rewrite Hout by (intros i Hi; apply Hno; now right).
      subst z1. simpl. now rewrite (Hno x (or_introl eq_refl)).
    + intros xs1 i xs2 ix E Hi Hlater.
      destruct xs1 as [|y xs1]; simpl in E; injection E as -> ->.
      * rewrite Hout by exact Hlater. subst z1. simpl. now rewrite Hi.
      * eapply Hin; eauto.
Qed.

(** What [_recv_result] posts on the wire when it returns: one receive per
    worker, in the order of the ranks, for [n_atoms * prod(worker_shape)]
    doubles under the tag [TAG_ROOT + i]; with [return_ztz] the two
    reductions, of [n_atoms * n_atoms * prod(2 * a - 1)] and of
    [n_atoms * n_channels * prod(a)] doubles; with [timing] one object per
    worker; and the gather of the statistics.  Without [timing] no log is
    asked for and the log returned is empty. *)
Theorem recv_result_wire_format comm w n_atoms n_channels atom_shape
    valid_shape seg return_ztz timing verbose z_hat ztz ztX _log tr :
  run (_recv_result TAG_ROOT GET_OVERLAP_Z_HAT uninitialized comm w
         (n_atoms :: n_channels :: atom_shape) valid_shape seg
         return_ztz timing verbose)
  = (Ok (z_hat, ztz, ztX, _log), tr) ->
  tr = result_messages TAG_ROOT (negb GET_OVERLAP_Z_HAT) seg n_atoms
                       n_channels atom_shape return_ztz timing /\
  (timing = false -> _log = [] /\ forall i, ~ In (RecvObject i) tr).
Proof.
  unfold run, _recv_result. intros H.
  bind_inv H as z0 t0 Hz0. unfold lift in Hz0. injection Hz0 as Hz0 <-.
  bind_inv H as z1 t1 Hloop.
  apply recv_loop in Hloop as (-> & _).
  bind_inv H as stat t2 Hstat. bind_inv H as l t3 Hlog.
  bind_inv H as u t4 Hg. unfold emit in Hg. injection Hg as _ <-.
  unfold ret in H. injection H as <- <- <- <- <-.
  assert (Ht2 : t2 = (map (fun i_seg =>
                      RecvDouble (n_atoms * prod (get_seg_shape seg i_seg
                                                   (negb GET_OVERLAP_Z_HAT)))
                                 i_seg (Some (TAG_ROOT + i_seg)))
                   (range 0 (effective_n_seg seg)))
                ++ (if return_ztz then
                      [ReduceSum (n_atoms * (n_atoms
                         * prod (map (fun size_atom_ax => 2 * size_atom_ax - 1)
                                     atom_shape)));
                       ReduceSum (n_atoms * (n_channels * prod atom_shape))]
                    else [])).
  { destruct return_ztz.
    - bind_inv Hstat as a1 s1 H1. bind_inv Hstat as a2 s2 H2.
      bind_inv Hstat as a3 s3 H3. bind_inv Hstat as a4 s4 H4.
      unfold ret in Hstat. injection Hstat as _ <-.
      unfold lift in H1, H3. injection H1 as H1 <-. injection H3 as H3 <-.
      apply alloc_ok in H1, H3. subst a1 a3.
      unfold reduce_sum, bind, emit, ret in H2, H4.
      injection H2 as _ <-. injection H4 as _ <-.
      simpl. now rewrite <- app_assoc.
    - unfold ret in Hstat. injection Hstat as _ <-. now rewrite app_nil_r. }
  subst t2.
  assert (Ht3 : t3 = (map (fun i_seg =>
                      RecvDouble (n_atoms * prod (get_seg_shape seg i_seg
                                                   (negb GET_OVERLAP_Z_HAT)))
                                 i_seg (Some (TAG_ROOT + i_seg)))
                   (range 0 (effective_n_seg seg))
                ++ (if return_ztz then
                      [ReduceSum (n_atoms * (n_atoms
                         * prod (map (fun size_atom_ax => 2 * size_atom_ax - 1)
                                     atom_shape)));
                       ReduceSum (n_atoms * (n_channels * prod atom_shape))]
                    else []))
                ++ (if timing
                    then map RecvObject (range 0 (effective_n_seg seg))
                    else [])
             /\ (timing = false -> l = [])).
  { destruct timing.
    - rewrite recv_logs in Hlog. injection Hlog as _ <-. split; [reflexivity|].
      discriminate.
    - unfold ret in Hlog. injection Hlog as <- <-.
      split; [now rewrite app_nil_r | reflexivity]. }
  destruct Ht3 as [-> Hl].
  split.
  - unfold result_messages. now rewrite <- !app_assoc.
  - intros ->. split; [now apply Hl|].
    intros i Hi. rewrite !in_app_iff in Hi.
    destruct Hi as [[[Hi|Hi]|Hi]|Hi].
    + apply in_map_iff in Hi as (? & E & _). discriminate E.
    + destruct return_ztz; simpl in Hi; intuition discriminate.
    + exact Hi.
    + simpl in Hi. intuition discriminate.
Qed.

(** How [_recv_result] assembles [z_hat] from the tiles of the workers:
    the array is allocated with [np.empty] and each worker's answer is
    written into its slice, in the order of the ranks.  An entry that no
    slice covers keeps whatever [np.empty] held; an entry covered by the
    slice of worker [i] and by no later slice holds what worker [i]
    answered for it. *)
Theorem recv_result_assembles_tiles comm w n_atoms n_channels atom_shape
    valid_shape seg return_ztz timing verbose z_hat ztz ztX _log tr :
  run (_recv_result TAG_ROOT GET_OVERLAP_Z_HAT uninitialized comm w
         (n_atoms :: n_channels :: atom_shape) valid_shape seg
         return_ztz timing verbose)
  = (Ok (z_hat, ztz, ztX, _log), tr) ->
  let inner := negb GET_OVERLAP_Z_HAT in
  let tile_of := tile seg inner (n_atoms :: valid_shape) in
  (forall ix,
     (forall i, 0 <= i < effective_n_seg seg -> inside (tile_of i) ix = false) ->
     at_ z_hat ix = uninitialized ix) /\
  (forall i ix,
     0 <= i < effective_n_seg seg ->
     inside (tile_of i) ix = true ->
     (forall j, i < j < effective_n_seg seg -> inside (tile_of j) ix = false) ->
     at_ z_hat ix = w_z_hat w i (relative (tile_of i) ix)).
Proof.
  intros H inner tile_of. unfold run, _recv_result in H.
  bind_inv H as z0 t0 Hz0. unfold lift in Hz0. injection Hz0 as Hz0 <-.
  apply alloc_ok in Hz0.
  bind_inv H as z1 t1 Hloop.
  apply recv_loop in Hloop as (_ & _ & Hout & Hin).
  bind_inv H as stat t2 Hstat. bind_inv H as l t3 Hlog.
  bind_inv H as u t4 Hg.
  unfold ret in H. injection H as <- _ _ _ _.
  subst z0. simpl in Hout, Hin. fold inner in Hout, Hin.
  split.
  - intros ix Hno. apply Hout. intros i Hi. apply Hno.
    now apply range_In in Hi.
  - intros i ix Hi Hcov Hlater.
    destruct (in_split i (range 0 (effective_n_seg seg))) as (xs1 & xs2 & E).
    { apply range_In. lia. }
    eapply Hin; [exact E | exact Hcov |].
    intros j Hj. apply Hlater.
    assert (Hj' : In j (range 0 (effective_n_seg seg))).
    { rewrite E. apply in_or_app. right. now right. }
    apply range_In in Hj'. split; [|lia].
    eapply range_later; eassumption.
Qed.

End WireFacts.

Lemma send_task_wire_format_witness :
  let seg := Example.segmentation [2] [11] [1] in
  let params := Dicod.mk_params (Example.args 2 false false) 1%Qc [11] [2] in
  run (Dicod._send_task 4242 false {| Dicod.remote_size := 2 |}
         Example.workers Example.signal Example.atom 1%Qc None seg params)
  = (Ok tt,
     [Dicod.BcastParams params; Dicod.BroadcastArray Example.atom]
     ++ concat (map (Wire.task_messages 4242 Example.signal None seg params [2])
                    (range 0 (Dicod.effective_n_seg seg)))
     ++ [Dicod.Barrier]).
Proof.
  cbv zeta.
  apply (send_task_wire_format 4242 {| Dicod.remote_size := 2 |}
           Example.workers Example.signal Example.atom 1%Qc None
           (Example.segmentation [2] [11] [1])
           (Dicod.mk_params (Example.args 2 false false) 1%Qc [11] [2])
           1 1 [2]);
    [reflexivity | reflexivity |].
  repeat constructor; simpl; try discriminate; lia.
Defined.

Lemma recv_result_wire_format_witness :
  exists tr,
    snd (run (Dicod._recv_result 4242 false (fun _ => 0%Qc)
                {| Dicod.remote_size := 2 |} Example.workers [1; 1; 2] [11]
                (Example.segmentation [2] [11] [1]) true false 0)) = tr /\
    tr = Wire.result_messages 4242 true (Example.segmentation [2] [11] [1])
                              1 1 [2] true false /\
    forall i, ~ In (Dicod.RecvObject i) tr.
Proof.
  eassert (Hrun : run (Dicod._recv_result 4242 false (fun _ => 0%Qc)
                         {| Dicod.remote_size := 2 |} Example.workers
                         [1; 1; 2] [11] (Example.segmentation [2] [11] [1])
                         true false 0)
                  = (Ok (_, _, _, _), _)) by (lazy; reflexivity).
  destruct (recv_result_wire_format 4242 false (fun _ => 0%Qc) _ _ _ _ _ _ _
              _ _ _ _ _ _ _ _ Hrun) as [Htr Hlog].
  eexists. split; [rewrite Hrun; reflexivity|].
  split; [exact Htr|]. exact (proj2 (Hlog eq_refl)).
Defined.

Lemma recv_result_assembles_tiles_witness :
  exists z_hat ztz ztX _log tr,
    run (Dicod._recv_result 4242 false (fun _ => 0%Qc)
           {| Dicod.remote_size := 2 |} Example.workers [1; 1; 2] [11]
           (Example.segmentation [2] [11] [1]) false false 0)
    = (Ok (z_hat, ztz, ztX, _log), tr) /\
    Np.at_ z_hat [0; 5]
    = Dicod.w_z_hat Example.workers 1
        (NpView.relative
           (Wire.tile (Example.segmentation [2] [11] [1]) true [1; 11] 1)
           [0; 5]).
Proof.
  eassert (Hrun : run (Dicod._recv_result 4242 false (fun _ => 0%Qc)
                         {| Dicod.remote_size := 2 |} Example.workers
                         [1; 1; 2] [11] (Example.segmentation [2] [11] [1])
                         false false 0)
                  = (Ok (_, _, _, _), _)) by (lazy; reflexivity).
  do 5 eexists. split; [exact Hrun|].
  apply (proj2 (recv_result_assembles_tiles 4242 false (fun _ => 0%Qc) _ _ _
                  _ _ _ _ _ _ _ _ _ _ _ _ Hrun) 1 [0; 5]).
  - simpl. lia.
  - reflexivity.
  - intros j Hj. simpl in Hj. lia.
Defined.

(** ** The class [DICOD]: [send_task] *)

Section ShareFacts.
Import Np DICOD Share.

Lemma broadcast_array_run arr (tr : list event) :
  _broadcast_array arr tr
  = (Ok tt, tr ++ [BcastInt (Z.of_nat (length arr)); BcastDouble arr]).
Proof.
  unfold _broadcast_array, bind, emit. now rewrite <- app_assoc.
Qed.

(** [send_task] checks [pb.DD] before it sends anything and divides by
    [n_jobs] after the three arrays are out: a problem without [DD] ends in
    [AssertionError] with nothing broadcast, a solver with [n_jobs = 0] ends
    in [ZeroDivisionError] once [alpha_k], [DD] and [D] have been broadcast
    and before the constants of the algorithm are. *)
Theorem DICOD_send_task_needs_DD_and_workers self pb gathering K d S c T
    rest :
  shape (pb_D pb) = [K; d; S] ->
  shape (pb_x pb) = c :: T :: rest ->
  (pb_DD pb = None ->
   run (send_task self pb gathering) = (Raise AssertionError, [])) /\
  (forall DD, pb_DD pb = Some DD -> n_jobs self = 0 ->
   run (send_task self pb gathering)
   = (Raise ZeroDivisionError,
      [BcastInt (Z.of_nat (length (ravel (alpha_k (pb_D pb)))));
       BcastDouble (ravel (alpha_k (pb_D pb)));
       BcastInt (Z.of_nat (length (ravel DD))); BcastDouble (ravel DD);
       BcastInt (Z.of_nat (length (ravel (pb_D pb))));
       BcastDouble (ravel (pb_D pb))])).
Proof.
  intros HD Hx. unfold run, send_task. rewrite HD, Hx. split.
  - intros ->. reflexivity.
  - intros DD -> Hn.
    erewrite bind_ok by apply broadcast_array_run.
    erewrite bind_ok by apply broadcast_array_run.
    erewrite bind_ok by apply broadcast_array_run.
    unfold floordiv at 1. rewrite Hn. reflexivity.
Qed.

Lemma share_loop sig T S L_proc xs :
  forall (expect : list Qc) (tr : list event) expect' tr',
  fold_m xs
    (fun expect i =>
       bind (emit (Send (ravel (slice sig
                           [None;
                            Some (i * L_proc,
                                  Z.min T ((i + 1) * L_proc + S - 1))]))
                        i (100 + i)))
         (fun _ =>
            bind (lift (getitem sig [0; i * L_proc]))
              (fun a =>
                 bind (lift (getitem sig
                               [-1; Z.min T ((i + 1) * L_proc + S - 1) - 1]))
                   (fun b => ret (expect ++ [a; b])))))
    expect tr
  = (Ok expect', tr') ->
  tr' = tr ++ map (chunk_message sig T S L_proc) xs /\
  length expect' = (length expect + 2 * length xs)%nat.
Proof.
  induction xs as [|i xs IH]; intros expect tr expect' tr' H; simpl in H.
  - unfold ret in H. injection H as <- <-. rewrite app_nil_r. split; [easy|].
    simpl. lia.
  - bind_inv H as e1 t1 Hstep.
    bind_inv Hstep as u t2 Hsend. unfold emit in Hsend.
    injection Hsend as _ <-.
    bind_inv Hstep as a t3 Ha. bind_inv Hstep as b t4 Hb.
    unfold lift in Ha, Hb. injection Ha as _ <-. injection Hb as _ <-.
    unfold ret in Hstep. injection Hstep as <- <-.
    apply IH in H as [-> Hlen]. split.
    + rewrite <- app_assoc. reflexivity.
    + rewrite Hlen, length_app. simpl. lia.
Qed.

Lemma sends_chunks sig T S L_proc xs :
  sends (map (chunk_message sig T S L_proc) xs)
  = map (chunk_message sig T S L_proc) xs.
Proof.
  unfold sends. induction xs as [|i xs IH]; simpl; [reflexivity|].
  now rewrite IH.
Qed.

Lemma chunks_cover T S L n_jobs t :
  1 <= n_jobs -> 1 <= S -> L = T - S + 1 -> 0 <= L -> 0 <= t < T ->
  exists i, 0 <= i < n_jobs /\
    fst (chunk T S (L / n_jobs + 1) i) <= t
    < snd (chunk T S (L / n_jobs + 1) i).
Proof.
  intros Hn HS HL HL0 Ht. set (Lp := L / n_jobs + 1).
  assert (Hq : 0 <= L / n_jobs) by (apply Z.div_pos; lia).
  assert (HLp : 1 <= Lp) by (unfold Lp; lia).
  assert (Hbig : L < n_jobs * Lp).
  { unfold Lp. pose proof (Z.mod_pos_bound L n_jobs ltac:(lia)).
    pose proof (Z.div_mod L n_jobs ltac:(lia)). nia. }
  destruct (Z_lt_ge_dec (t / Lp) n_jobs) as [Hlt|Hge].
  - exists (t / Lp). unfold chunk. simpl.
    pose proof (Z.mod_pos_bound t Lp ltac:(lia)).
    pose proof (Z.div_mod t Lp ltac:(lia)).
    assert (0 <= t / Lp) by (apply Z.div_pos; lia).
    repeat split; try lia; nia.
  - exists (n_jobs - 1). unfold chunk. simpl.
    pose proof (Z.mod_pos_bound t Lp ltac:(lia)).
    pose proof (Z.div_mod t Lp ltac:(lia)).
    repeat split; try lia; nia.
Qed.

(** How [send_task] shares a signal of [T] columns out: with
    [L = T - S + 1] and [L_proc = L // n_jobs + 1], worker [i] is sent the
    columns [i * L_proc : min(T, (i + 1) * L_proc + S - 1)] under the tag
    [100 + i], the workers being served in the order of their ranks, and
    these are all the point-to-point messages of the call.  For at least
    one worker and an atom no longer than the signal, every column of the
    signal is in the chunk of some worker. *)
Theorem DICOD_send_task_shares_the_signal self pb gathering self' tr K d S
    c T :
  shape (pb_D pb) = [K; d; S] ->
  shape (pb_x pb) = [c; T] ->
  run (send_task self pb gathering) = (Ok self', tr) ->
  let L_proc := (T - S + 1) / n_jobs self + 1 in
  DICOD.L_proc self' = Some L_proc /\
  sends tr = map (chunk_message (pb_x pb) T S L_proc) (range 0 (n_jobs self))
  /\
  (1 <= n_jobs self -> 1 <= S <= T ->
   forall t, 0 <= t < T ->
     exists i, 0 <= i < n_jobs self /\
       fst (chunk T S L_proc i) <= t < snd (chunk T S L_proc i)).
Proof.
  intros HD Hx H L_proc. unfold run, send_task in H. rewrite HD, Hx in H.
  destruct (pb_DD pb) as [DD|]; [|discriminate].
  erewrite bind_ok in H by apply broadcast_array_run.
  erewrite bind_ok in H by apply broadcast_array_run.
  erewrite bind_ok in H by apply broadcast_array_run.
  bind_inv H as q t4 H4. unfold floordiv in H4.
  destruct (Z.eqb_spec (n_jobs self) 0) as [|Hn0]; [discriminate|].
  unfold ret in H4. injection H4 as <- <-.
  erewrite bind_ok in H by apply broadcast_array_run.
  bind_inv H as q' t6 H6. unfold floordiv in H6.
  destruct (Z.eqb_spec (n_jobs self) 0) as [|_]; [contradiction|].
  unfold ret in H6. injection H6 as <- <-.
  bind_inv H as expect t7 H7. fold L_proc in H7.
  apply share_loop in H7 as [-> _].
  bind_inv H as u8 t8 H8. bind_inv H8 as u8' t8' H8'.
  unfold emit in H8'. injection H8' as _ <-.
  unfold assert_ in H8. destruct (allclose _ _); [|discriminate].
  unfold ret in H8. injection H8 as _ <-.
  bind_inv H as u9 t9 H9. unfold emit in H9. injection H9 as _ <-.
  unfold ret in H. injection H as <- <-.
  split; [reflexivity|]. split.
  - pose proof (sends_chunks (pb_x pb) T S L_proc (range 0 (n_jobs self)))
      as Hs.
    unfold sends in *. simpl. rewrite !List.filter_app, Hs. simpl.
    now rewrite !app_nil_r.
  - intros Hn HS t Ht. apply chunks_cover; lia.
Qed.

End ShareFacts.

(** ** [send_task]: the closing barrier *)

Section BarrierFacts.
Context {E : Type}.
Variable B : E.

Lemma ends_with_raise {A} (e : exn) : ends_with B (@raise E A e).
Proof.
  intros tr o tr' H. injection H as <- <-. exists [].
  split; [now rewrite app_nil_r | easy].
Qed.

Lemma ends_with_final {A} (a : A) :
  ends_with B (bind (emit B) (fun _ => ret a)).
Proof.
  intros tr o tr' H. unfold bind, emit, ret in H. injection H as <- <-.
  exists [B]. split; [reflexivity|]. exists []. split; [reflexivity | easy].
Qed.

Lemma ends_with_bind {A C} (m : M E A) (k : A -> M E C) :
  obeys (fun e => e <> B) (fun _ => True) m ->
  (forall a, ends_with B (k a)) ->
  ends_with B (bind m k).
Proof.
  intros Hm Hk tr o tr' H.
  destruct (bind_inv _ _ _ _ _ H) as [(a & tr1 & H1 & H2) | (e & H1 & ->)].
  - destruct (Hm _ _ _ H1) as [(ev1 & -> & F1) _].
    destruct (Hk a _ _ _ H2) as (ev2 & -> & Ho).
    assert (Hno : ~ In B ev1).
    { rewrite Forall_forall in F1. intros Hin. now apply (F1 B). }
    exists (ev1 ++ ev2). split; [now rewrite app_assoc|].
    destruct o.
    + destruct Ho as (pre & -> & Hpre). exists (ev1 ++ pre).
      split; [now rewrite app_assoc|].
      rewrite in_app_iff. tauto.
    + rewrite in_app_iff. tauto.
  - destruct (Hm _ _ _ H1) as [(ev1 & -> & F1) _].
    exists ev1. split; [reflexivity|].
    rewrite Forall_forall in F1. intros Hin. now apply (F1 B).
Qed.

Lemma ends_with_run {A} (m : M E A) o tr :
  ends_with B m -> run m = (o, tr) ->
  (In B tr <-> exists a, o = Ok a) /\
  (forall a, o = Ok a -> list.last tr = Some B).
Proof.
  intros Hm H. destruct (Hm _ _ _ H) as (ev & -> & Ho). simpl.
  destruct o as [a|e].
  - destruct Ho as (pre & -> & _). split.
    + split; [eauto|]. intros _. apply in_or_app. right. now left.
    + intros _ _. apply last_snoc.
  - split; [|discriminate]. split; [contradiction|]. now intros [a Ha].
Qed.

End BarrierFacts.

Ltac ends_with_step :=
  first
    [ apply ends_with_final
    | apply ends_with_raise
    | apply ends_with_bind;
      [ repeat obeys_step; try exact I; try (intros; exact I);
        try discriminate
      | intros ? ] ].

(** In both classes [send_task] closes with a barrier, after the workers
    have echoed the probes of [_confirm_array]: the barrier is the last
    event of every call that returns, and a call that raises (the shapes
    do not unpack, [DD] is missing, a division by zero, a probe out of the
    signal, an echo that differs) never reaches it. *)
Theorem send_task_barrier_closes_a_confirmed_transfer compute_DD :
  (forall self pb gathering o tr,
     run (DICOD.send_task self pb gathering) = (o, tr) ->
     (In DICOD.Barrier tr <-> exists self', o = Ok self') /\
     (forall self', o = Ok self' -> list.last tr = Some DICOD.Barrier)) /\
  (forall self pb DD gathering o tr,
     run (DICOD2D.send_task compute_DD self pb DD gathering) = (o, tr) ->
     (In DICOD2D.Barrier tr <-> exists self', o = Ok self') /\
     (forall self', o = Ok self' -> list.last tr = Some DICOD2D.Barrier)).
Proof.
  split.
  - intros self pb gathering o tr. apply ends_with_run.
    unfold DICOD.send_task.
    destruct (Np.shape (DICOD.pb_D pb)) as [|K [|d [|S [|]]]];
      try apply ends_with_raise.
    destruct (Np.shape (DICOD.pb_x pb)) as [|c [|T rest]];
      try apply ends_with_raise.
    destruct (DICOD.pb_DD pb); [|apply ends_with_raise].
    unfold DICOD._broadcast_array, DICOD.floordiv, DICOD._confirm_array.
    repeat ends_with_step.
  - intros self pb DD gathering o tr. apply ends_with_run.
    unfold DICOD2D.send_task.
    destruct (Np.shape (DICOD2D.pb_D pb)) as [|K [|d [|h [|w [|]]]]];
      try apply ends_with_raise.
    destruct (Np.shape (DICOD2D.pb_x pb)) as [|c [|hs [|ws [|]]]];
      try apply ends_with_raise.
    unfold DICOD2D._broadcast_array, DICOD2D.floordiv, DICOD2D.modulo,
      DICOD2D.truediv, DICOD2D._confirm_array.
    repeat ends_with_step.
Qed.

Lemma send_task_barrier_closes_a_confirmed_transfer_witness :
  exists self' tr,
    run (DICOD.send_task (Example.solver 7) Example.problem
           (Example.echo Example.probes)) = (Ok self', tr) /\
    In DICOD.Barrier tr /\ list.last tr = Some DICOD.Barrier.
Proof.
  eassert (Hrun : run (DICOD.send_task (Example.solver 7) Example.problem
                         (Example.echo Example.probes)) = (Ok _, _))
    by (lazy; reflexivity).
  destruct (proj1 (send_task_barrier_closes_a_confirmed_transfer
                     Example.compute_DD) _ _ _ _ _ Hrun) as [Hin Hlast].
  do 2 eexists. split; [exact Hrun|]. split.
  - apply Hin. eexists. reflexivity.
  - eapply Hlast. reflexivity.
Defined.

Lemma DICOD_send_task_needs_DD_and_workers_witness :
  run (DICOD.send_task (Example.solver 7) Scenario.problem_without_DD
         (Example.echo Example.probes)) = (Raise AssertionError, []) /\
  fst (run (DICOD.send_task Scenario.idle_solver Example.problem
              (Example.echo Example.probes))) = Raise ZeroDivisionError.
Proof.
  split.
  - apply (proj1 (DICOD_send_task_needs_DD_and_workers (Example.solver 7)
                    Scenario.problem_without_DD (Example.echo Example.probes)
                    1 1 2 1 9 [] eq_refl eq_refl)).
    reflexivity.
  - rewrite (proj2 (DICOD_send_task_needs_DD_and_workers Scenario.idle_solver
                      Example.problem (Example.echo Example.probes)
                      1 1 2 1 9 [] eq_refl eq_refl)
               (Np.zeros [1; 1; 3]) eq_refl eq_refl).
    reflexivity.
Defined.

Lemma DICOD_send_task_shares_the_signal_witness :
  exists self' tr,
    run (DICOD.send_task (Example.solver 7) Example.problem
           (Example.echo Example.probes)) = (Ok self', tr) /\
    DICOD.L_proc self' = Some 5 /\
    Share.sends tr
    = [Share.chunk_message Example.ramp 9 2 5 0;
       Share.chunk_message Example.ramp 9 2 5 1].
Proof.
  eassert (Hrun : run (DICOD.send_task (Example.solver 7) Example.problem
                         (Example.echo Example.probes)) = (Ok _, _))
    by (lazy; reflexivity).
  destruct (DICOD_send_task_shares_the_signal (Example.solver 7)
              Example.problem (Example.echo Example.probes) _ _ 1 1 2 1 9
              eq_refl eq_refl Hrun) as (HL & Hs & _).
  do 2 eexists. split; [exact Hrun|]. split; [exact HL | exact Hs].
Defined.
